(** * Jal-Rakshya: the analytics engine of the groundwater dashboard

    A shallow embedding of the server-side engine
    (the in-memory data store, [utils/waterScore], [utils/alertEngine] and
    the predictions endpoint of [controllers/waterController.js]) and the
    properties of its specification.

    Numbers.  A JavaScript number is an IEEE-754 double.  Here a finite
    double is idealised as an exact rational (decimal literals such as
    [0.35] denote that rational, arithmetic does not round), and the three
    non-finite values are kept as constructors of their own, so that a
    division by zero, a missing field turned into [NaN] or an overflowing
    parse stay visible in the model.  The sign of zero is not tracked.

    Strings.  A JavaScript string is a sequence of UTF-16 code units.

    Time.  [new Date()] reads the system clock; the clock is an explicit
    sequence of readings threaded through the functions that read it. *)

From Stdlib Require Import ZArith QArith Qround Qabs Qminmax Lqa Lia.
From Stdlib Require Import List Bool String Ascii.
From Stdlib Require Import Permutation Sorted.
Import ListNotations.

Set Implicit Arguments.

(** ** The runtime: numbers, strings, objects, sorting *)

Module JS.

Local Open Scope Q_scope.

(** *** Numbers *)

Inductive number : Type :=
| Fin (q : Q)
| PInf
| NInf
| NaN.

Declare Scope num_scope.
Delimit Scope num_scope with num.
Bind Scope num_scope with number.
Arguments Fin q%_Q.

Definition of_Z (z : Z) : number := Fin (inject_Z z).
Definition of_nat (n : nat) : number := of_Z (Z.of_nat n).

Definition Qlt_bool (a b : Q) : bool := negb (Qle_bool b a).

(** The infinity carrying the sign of [q]; [NaN] for zero
    (as in [Infinity * 0] and [0 / 0]). *)
Definition signed_inf (q : Q) : number :=
  match Qcompare q 0 with
  | Gt => PInf
  | Lt => NInf
  | Eq => NaN
  end.

Definition neg (a : number) : number :=
  match a with
  | Fin q => Fin (- q)
  | PInf => NInf
  | NInf => PInf
  | NaN => NaN
  end.

Definition add (a b : number) : number :=
  match a, b with
  | NaN, _ | _, NaN => NaN
  | Fin p, Fin q => Fin (p + q)
  | PInf, NInf | NInf, PInf => NaN
  | PInf, _ | _, PInf => PInf
  | NInf, _ | _, NInf => NInf
  end.

Definition sub (a b : number) : number := add a (neg b).

Definition mul (a b : number) : number :=
  match a, b with
  | NaN, _ | _, NaN => NaN
  | Fin p, Fin q => Fin (p * q)
  | PInf, Fin q | Fin q, PInf => signed_inf q
  | NInf, Fin q | Fin q, NInf => signed_inf (- q)
  | PInf, PInf | NInf, NInf => PInf
  | PInf, NInf | NInf, PInf => NInf
  end.

Definition div (a b : number) : number :=
  match a, b with
  | NaN, _ | _, NaN => NaN
  | Fin p, Fin q => if Qeq_bool q 0 then signed_inf p else Fin (p / q)
  | Fin _, (PInf | NInf) => Fin 0
  | PInf, Fin q => if Qlt_bool q 0 then NInf else PInf
  | NInf, Fin q => if Qlt_bool q 0 then PInf else NInf
  | (PInf | NInf), (PInf | NInf) => NaN
  end.

Definition abs (a : number) : number :=
  match a with
  | Fin q => Fin (Qabs q)
  | PInf | NInf => PInf
  | NaN => NaN
  end.

(** [a < b]; every comparison with [NaN] is false. *)
Definition lt (a b : number) : bool :=
  match a, b with
  | NaN, _ | _, NaN => false
  | Fin p, Fin q => Qlt_bool p q
  | NInf, (Fin _ | PInf) => true
  | Fin _, PInf => true
  | _, _ => false
  end.

(** [a <= b]. *)
Definition le (a b : number) : bool :=
  match a, b with
  | NaN, _ | _, NaN => false
  | Fin p, Fin q => Qle_bool p q
  | NInf, _ => true
  | _, PInf => true
  | _, _ => false
  end.

Definition gt (a b : number) : bool := lt b a.
Definition ge (a b : number) : bool := le b a.

(** [a !== b] on numbers. *)
Definition strict_ne (a b : number) : bool :=
  match a, b with
  | Fin p, Fin q => negb (Qeq_bool p q)
  | PInf, PInf | NInf, NInf => false
  | _, _ => true
  end.

(** Truthiness of a number: [0] and [NaN] are falsy. *)
Definition truthy (a : number) : bool :=
  match a with
  | Fin q => negb (Qeq_bool q 0)
  | NaN => false
  | PInf | NInf => true
  end.

(** [a || d] on numbers. *)
Definition or_else (a d : number) : number := if truthy a then a else d.

Definition Math_max (a b : number) : number :=
  match a, b with
  | NaN, _ | _, NaN => NaN
  | _, _ => if lt a b then b else a
  end.

Definition Math_min (a b : number) : number :=
  match a, b with
  | NaN, _ | _, NaN => NaN
  | _, _ => if lt b a then b else a
  end.

(** [Math.max(...xs)]: [-Infinity] on the empty list. *)
Definition Math_max_list (xs : list number) : number :=
  fold_left Math_max xs NInf.

Definition Math_abs := abs.

(** [Math.round]: the nearest integer, halves towards [+Infinity]. *)
Definition Math_round (a : number) : number :=
  match a with
  | Fin q => of_Z (Qfloor (q + (1 # 2)))
  | _ => a
  end.

Definition pow10 (k : nat) : Q := inject_Z (10 ^ Z.of_nat k).

(** The decimal with [k] fraction digits nearest to [q], ties away from
    zero ([toFixed] picks the larger [n] for [|q|]). *)
Definition roundTo (k : nat) (q : Q) : Q :=
  let n := Qfloor (Qabs q * pow10 k + (1 # 2)) in
  let m := inject_Z n / pow10 k in
  if Qlt_bool q 0 then - m else m.

(** [+(a).toFixed(k)]: the rounded decimal read back as a number.  From
    [1e21] on [toFixed] prints the number itself. *)
Definition toFixed (k : nat) (a : number) : number :=
  match a with
  | Fin q => if Qle_bool (pow10 21) (Qabs q) then Fin q else Fin (roundTo k q)
  | _ => a
  end.

(** The same value as a number (rationals up to [==]). *)
Definition same (a b : number) : Prop :=
  match a, b with
  | Fin p, Fin q => p == q
  | PInf, PInf | NInf, NInf | NaN, NaN => True
  | _, _ => False
  end.

Definition finite (a : number) : Prop :=
  match a with Fin _ => True | _ => False end.

Module Import Notations.
Infix "+" := add : num_scope.
Infix "-" := sub : num_scope.
Infix "*" := mul : num_scope.
Infix "/" := div : num_scope.
Infix "<?" := lt : num_scope.
Infix "<=?" := le : num_scope.
Infix ">?" := gt : num_scope.
Infix ">=?" := ge : num_scope.
Infix "=~" := same (at level 70, no associativity) : num_scope.
End Notations.

(** *** Strings *)

(** A string is its list of UTF-16 code units. *)
Definition jsstring : Type := list N.

(** The code units of an ASCII literal. *)
Definition js (s : string) : jsstring :=
  map N_of_ascii (list_ascii_of_string s).

Definition charCodeAt (c : N) : Z := Z.of_N c.

Fixpoint str_eqb (a b : jsstring) : bool :=
  match a, b with
  | [], [] => true
  | x :: a', y :: b' => N.eqb x y && str_eqb a' b'
  | _, _ => false
  end.

(** [ToInt32]: wrap into the signed 32-bit range ([x | 0], [x << k]). *)
Definition to_int32 (z : Z) : Z :=
  let m := (z mod 2 ^ 32)%Z in
  if (m <? 2 ^ 31)%Z then m else (m - 2 ^ 32)%Z.

(** [a << k] on 32-bit integers. *)
Definition shl32 (a : Z) (k : Z) : Z := to_int32 (Z.shiftl (to_int32 a) k).

(** *** [Array.prototype.sort] with a comparator

    The sort is stable.  [cmp a b > 0] puts [b] first; a result that is
    zero, negative or [NaN] keeps [a] before [b].  For a comparator that
    is a consistent order this is the only stable sorted arrangement. *)

Section Sort.
Variable A : Type.
Variable cmp : A -> A -> number.

Fixpoint insert (x : A) (l : list A) : list A :=
  match l with
  | [] => [x]
  | y :: l' => if gt (cmp x y) (Fin 0) then y :: insert x l' else x :: l
  end.

Fixpoint sort (l : list A) : list A :=
  match l with
  | [] => []
  | x :: l' => insert x (sort l')
  end.
End Sort.

(** *** Plain objects used as maps ([{}] indexed by a string)

    The own properties are kept in creation order.  A key that is not an
    own property is looked up in [Object.prototype]. *)

Definition Object_prototype_names : list jsstring :=
  map js
    ["constructor"; "__defineGetter__"; "__defineSetter__";
     "hasOwnProperty"; "__lookupGetter__"; "__lookupSetter__";
     "isPrototypeOf"; "propertyIsEnumerable"; "toString"; "valueOf";
     "__proto__"; "toLocaleString"]%string.

Section Objects.
Variable V : Type.

Definition object : Type := list (jsstring * V).

Inductive member : Type :=
| Own (v : V)
| Inherited
| Undefined.

Fixpoint own (m : object) (k : jsstring) : option V :=
  match m with
  | [] => None
  | (k', v) :: m' => if str_eqb k' k then Some v else own m' k
  end.

(** [m[k]] *)
Definition get (m : object) (k : jsstring) : member :=
  match own m k with
  | Some v => Own v
  | None =>
      if existsb (str_eqb k) Object_prototype_names then Inherited
      else Undefined
  end.

(** [m[k] = v], for a key that is an own property or is not inherited:
    an own property keeps its place, a new one is created last. *)
Fixpoint set (m : object) (k : jsstring) (v : V) : object :=
  match m with
  | [] => [(k, v)]
  | (k', v') :: m' =>
      if str_eqb k' k then (k', v) :: m' else (k', v') :: set m' k v
  end.

Fixpoint digits_value (acc : N) (s : jsstring) : option N :=
  match s with
  | [] => Some acc
  | c :: s' =>
      if ((48 <=? c) && (c <=? 57))%N
      then digits_value (acc * 10 + (c - 48))%N s'
      else None
  end.

(** A key that is a canonical array index: decimal digits without a
    leading zero, at most [2^32 - 2]. *)
Definition array_index (k : jsstring) : option N :=
  match k with
  | [] => None
  | c :: rest =>
      if (c =? 48)%N && negb (Nat.eqb (List.length rest) 0) then None
      else match digits_value 0 k with
           | Some n => if (n <=? 4294967294)%N then Some n else None
           | None => None
           end
  end.

Definition is_index (e : jsstring * V) : bool :=
  match array_index (fst e) with Some _ => true | None => false end.

Definition index_of (e : jsstring * V) : Z :=
  match array_index (fst e) with Some n => Z.of_N n | None => 0%Z end.

(** The own property order: array indices ascending, then the other
    keys in creation order. *)
Definition own_entries (m : object) : list (jsstring * V) :=
  sort (fun a b => of_Z (index_of a - index_of b)) (filter is_index m)
  ++ filter (fun e => negb (is_index e)) m.

Definition Object_values (m : object) : list V :=
  map snd (own_entries m).
End Objects.

Arguments Inherited {V}.
Arguments Undefined {V}.

(** *** The system clock

    A computation that may read the clock: it is given the sequence of
    readings and the number of readings already made. *)

Definition Clock (A : Type) : Type := (nat -> Z) -> nat -> A * nat.

Definition ret {A} (a : A) : Clock A := fun _ n => (a, n).

Definition bind {A B} (c : Clock A) (k : A -> Clock B) : Clock B :=
  fun clock n => let (a, n') := c clock n in k a clock n'.

(** [new Date()]: the time value of the clock at this reading. *)
Definition new_Date : Clock Z := fun clock n => (clock n, S n).

End JS.

(** ** The data model *)

Module Data.
Import JS.

(** A property that may be missing, [null] or set. *)
Inductive field (A : Type) : Type :=
| Absent
| Null
| Val (a : A).
Arguments Absent {A}.
Arguments Null {A}.

(** One record of the store, as [parseCSV] and the generator build it.
    [lastUpdated] is the time value of a [Date]. *)
Record Observation : Type := {
  location : jsstring;
  year : Z;
  consumption : number;
  perCapitaUsage : number;
  agriculturalUsage : number;
  industrialUsage : number;
  householdUsage : number;
  rainfall : number;
  depletionRate : number;
  scarcityLevel : jsstring;
  ph : number;
  groundwaterLevel : number;
  latitude : field number;
  longitude : field number;
  lastUpdated : field Z
}.

(** The observation that differs from [d] only in its rainfall. *)
Definition withRainfall (d : Observation) (r : number) : Observation :=
  {| location := location d;
     year := year d;
     consumption := consumption d;
     perCapitaUsage := perCapitaUsage d;
     agriculturalUsage := agriculturalUsage d;
     industrialUsage := industrialUsage d;
     householdUsage := householdUsage d;
     rainfall := r;
     depletionRate := depletionRate d;
     scarcityLevel := scarcityLevel d;
     ph := ph d;
     groundwaterLevel := groundwaterLevel d;
     latitude := latitude d;
     longitude := longitude d;
     lastUpdated := lastUpdated d |}.

(** The observation that differs from [d] only in its depletion rate. *)
Definition withDepletionRate (d : Observation) (r : number) : Observation :=
  {| location := location d;
     year := year d;
     consumption := consumption d;
     perCapitaUsage := perCapitaUsage d;
     agriculturalUsage := agriculturalUsage d;
     industrialUsage := industrialUsage d;
     householdUsage := householdUsage d;
     rainfall := rainfall d;
     depletionRate := r;
     scarcityLevel := scarcityLevel d;
     ph := ph d;
     groundwaterLevel := groundwaterLevel d;
     latitude := latitude d;
     longitude := longitude d;
     lastUpdated := lastUpdated d |}.

(** Two records that agree on every property but [lastUpdated]. *)
Definition same_but_lastUpdated (a b : Observation) : Prop :=
  location a = location b /\ year a = year b
  /\ consumption a = consumption b
  /\ perCapitaUsage a = perCapitaUsage b
  /\ agriculturalUsage a = agriculturalUsage b
  /\ industrialUsage a = industrialUsage b
  /\ householdUsage a = householdUsage b
  /\ rainfall a = rainfall b
  /\ depletionRate a = depletionRate b
  /\ scarcityLevel a = scarcityLevel b
  /\ ph a = ph b
  /\ groundwaterLevel a = groundwaterLevel b
  /\ latitude a = latitude b
  /\ longitude a = longitude b.

(** The comparator [(a, b) => a.year - b.year]. *)
Definition by_year (a b : Observation) : number := of_Z (year a - year b).

(** The four metrics the score reads are finite numbers. *)
Definition well_formed (d : Observation) : Prop :=
  finite (groundwaterLevel d) /\ finite (rainfall d) /\
  finite (depletionRate d) /\ finite (ph d).

End Data.

(** ** [utils/waterScore]: scores, indices and the forecast *)

Module WaterScore.
Import JS JS.Notations Data.
Local Open Scope num_scope.

Module THRESHOLDS.
Definition waterLevel_min : number := Fin 4.
Definition waterLevel_max : number := Fin 20.
Definition rainfall_min : number := Fin 500.
Definition rainfall_max : number := Fin 1500.
Definition depletion_min : number := Fin 0.
Definition depletion_max : number := Fin 10.
Definition ph_ideal : number := Fin 7.0.
Definition ph_range : number := Fin 1.5.
End THRESHOLDS.

Definition normalize (value min max : number) (invert : bool) : number :=
  let clamped := Math_max min (Math_min max value) in
  let normalized := (clamped - min) / (max - min) * Fin 100 in
  if invert then Fin 100 - normalized else normalized.

Definition calculateWaterScore (data : Observation) : number :=
  let waterLevelScore :=
    normalize (groundwaterLevel data)
      THRESHOLDS.waterLevel_min THRESHOLDS.waterLevel_max true in
  let rainfallScore :=
    normalize (rainfall data)
      THRESHOLDS.rainfall_min THRESHOLDS.rainfall_max false in
  let depletionScore :=
    normalize (depletionRate data)
      THRESHOLDS.depletion_min THRESHOLDS.depletion_max true in
  let phDeviation := Math_abs (ph data - THRESHOLDS.ph_ideal) in
  let phScore := normalize phDeviation (Fin 0) THRESHOLDS.ph_range true in
  let score :=
    waterLevelScore * Fin 0.35 +
    rainfallScore * Fin 0.25 +
    depletionScore * Fin 0.30 +
    phScore * Fin 0.10 in
  Math_round (Math_max (Fin 0) (Math_min (Fin 100) score)).

Definition getStatus (score : number) : string :=
  if score >=? Fin 70 then "Safe"
  else if score >=? Fin 40 then "Warning"
  else "Critical".

Definition getStatusColor (score : number) : string :=
  if score >=? Fin 70 then "#22c55e"
  else if score >=? Fin 40 then "#eab308"
  else "#ef4444".

Record index_value : Type := { index : string; value : number }.

Definition calculateWQI (ph : number) : index_value :=
  let deviation := Math_abs (ph - Fin 7.0) in
  if deviation <=? Fin 0.5 then {| index := "Excellent"; value := Fin 95 |}
  else if deviation <=? Fin 1.0 then {| index := "Good"; value := Fin 75 |}
  else if deviation <=? Fin 1.5 then {| index := "Fair"; value := Fin 55 |}
  else {| index := "Poor"; value := Fin 30 |}.

Definition calculateDepletionIndex (depletionRate : number) : index_value :=
  if depletionRate <=? Fin 2 then {| index := "Sustainable"; value := Fin 90 |}
  else if depletionRate <=? Fin 4 then {| index := "Moderate"; value := Fin 65 |}
  else if depletionRate <=? Fin 6 then {| index := "Concerning"; value := Fin 40 |}
  else {| index := "Critical"; value := Fin 15 |}.

Definition calculateSustainabilityScore (data : Observation) : number :=
  let rechargeCapacity :=
    normalize (rainfall data) (Fin 500) (Fin 1500) false * Fin 0.4 in
  let extractionImpact :=
    normalize (depletionRate data) (Fin 0) (Fin 10) true * Fin 0.35 in
  let qualityFactor :=
    normalize (Math_abs (ph data - Fin 7.0)) (Fin 0) (Fin 1.5) true
    * Fin 0.25 in
  Math_round (rechargeCapacity + extractionImpact + qualityFactor).

(** *** Linear regression *)

Record point : Type := { x : number; y : number }.

Record regression : Type := { slope : number; intercept : number }.

Record sums : Type :=
  { sumX : number; sumY : number; sumXY : number; sumX2 : number }.

Definition accumulate (s : sums) (p : point) : sums :=
  {| sumX := sumX s + x p;
     sumY := sumY s + y p;
     sumXY := sumXY s + x p * y p;
     sumX2 := sumX2 s + x p * x p |}.

Definition linearRegression (points : list point) : regression :=
  let n := List.length points in
  if (n <? 2)%nat then {| slope := Fin 0; intercept := Fin 0 |}
  else
    let s :=
      fold_left accumulate points
        {| sumX := Fin 0; sumY := Fin 0; sumXY := Fin 0; sumX2 := Fin 0 |} in
    let slope :=
      (of_nat n * sumXY s - sumX s * sumY s)
      / (of_nat n * sumX2 s - sumX s * sumX s) in
    let intercept := (sumY s - slope * sumX s) / of_nat n in
    {| slope := slope; intercept := intercept |}.

Module CI.
Record t : Type := { lower : number; upper : number }.
End CI.

Module Prediction.
Record t : Type := {
  year : number;
  groundwaterLevel : number;
  groundwaterLevelCI : CI.t;
  rainfall : number;
  rainfallCI : CI.t;
  depletionRate : number;
  depletionRateCI : CI.t;
  confidenceLevel : string
}.
End Prediction.

(** An interval that is the single point [estimate]: the lower bound is
    the estimate, and an upper bound that is not negative is the lower
    bound. *)
Definition degenerate (estimate : number) (ci : CI.t) : Prop :=
  same (CI.lower ci) estimate
  /\ (le (Fin 0) (CI.upper ci) = true -> same (CI.upper ci) (CI.lower ci)).

Section Forecast.

(** The square root of a non-negative rational, as the runtime rounds
    it; the forecast only passes it on. *)
Variable sqrtQ : Q -> Q.

Definition Math_sqrt (a : number) : number :=
  match a with
  | Fin q => if Qlt_bool q 0 then NaN else Fin (sqrtQ q)
  | PInf => PInf
  | NInf | NaN => NaN
  end.

Definition calcResidualStdError (points : list point) (reg : regression)
  : number :=
  if (List.length points <? 3)%nat then Fin 0
  else
    let residuals :=
      map (fun p =>
             let predicted := slope reg * x p + intercept reg in
             (y p - predicted) * (y p - predicted)) points in
    let sse := fold_left add residuals (Fin 0) in
    Math_sqrt (sse / of_nat (List.length points - 2)).

(** The number of rounds of [for (let i = 1; i <= yearsAhead; i++)];
    the loop does not end for [Infinity]. *)
Definition rounds (yearsAhead : number) : option nat :=
  match yearsAhead with
  | Fin q => Some (Z.to_nat (Qfloor q))
  | PInf => None
  | NInf | NaN => Some O
  end.

(** [1.96 * Math.sqrt(1 + 1 / n + (i * i) / (n * 3))], for a history
    of [n] records at round [i]. *)
Definition confidenceMultiplier (n : nat) (i : nat) : number :=
  Fin 1.96
  * Math_sqrt
      (Fin 1 + Fin 1 / of_nat n
       + (of_nat i * of_nat i) / (of_nat n * Fin 3)).

(** The prediction pushed at round [i] of the loop. *)
Definition predictAt (historicalData : list Observation)
    (wlReg rfReg dpReg : regression)
    (wlResiduals rfResiduals dpResiduals lastYear : number) (i : nat)
  : Prediction.t :=
  let year := lastYear + of_nat i in
  let confidenceMultiplier :=
    confidenceMultiplier (List.length historicalData) i in
  let wlPred := toFixed 2 (slope wlReg * year + intercept wlReg) in
  let rfPred := toFixed 1 (slope rfReg * year + intercept rfReg) in
  let dpPred := toFixed 2 (slope dpReg * year + intercept dpReg) in
  {| Prediction.year := year;
     Prediction.groundwaterLevel := Math_max (Fin 0) wlPred;
     Prediction.groundwaterLevelCI :=
       {| CI.lower :=
            Math_max (Fin 0)
              (toFixed 2 (wlPred - wlResiduals * confidenceMultiplier));
          CI.upper :=
            toFixed 2 (wlPred + wlResiduals * confidenceMultiplier) |};
     Prediction.rainfall := Math_max (Fin 0) rfPred;
     Prediction.rainfallCI :=
       {| CI.lower :=
            Math_max (Fin 0)
              (toFixed 1 (rfPred - rfResiduals * confidenceMultiplier));
          CI.upper :=
            toFixed 1 (rfPred + rfResiduals * confidenceMultiplier) |};
     Prediction.depletionRate := Math_max (Fin 0) dpPred;
     Prediction.depletionRateCI :=
       {| CI.lower :=
            Math_max (Fin 0)
              (toFixed 2 (dpPred - dpResiduals * confidenceMultiplier));
          CI.upper :=
            toFixed 2 (dpPred + dpResiduals * confidenceMultiplier) |};
     Prediction.confidenceLevel :=
       if (i <=? 1)%nat then "high"
       else if (i <=? 2)%nat then "medium" else "low" |}.

Definition waterLevelPoints (historicalData : list Observation) :=
  map (fun d => {| x := of_Z (year d); y := groundwaterLevel d |})
    historicalData.

Definition rainfallPoints (historicalData : list Observation) :=
  map (fun d => {| x := of_Z (year d); y := rainfall d |}) historicalData.

Definition depletionPoints (historicalData : list Observation) :=
  map (fun d => {| x := of_Z (year d); y := depletionRate d |})
    historicalData.

(** [predictFuture(historicalData, yearsAhead = 3)]; [None] when the
    loop does not end. *)
Definition predictFuture (historicalData : list Observation)
    (yearsAhead : option number) : option (list Prediction.t) :=
  let yearsAhead :=
    match yearsAhead with Some k => k | None => Fin 3 end in
  let wlReg := linearRegression (waterLevelPoints historicalData) in
  let rfReg := linearRegression (rainfallPoints historicalData) in
  let dpReg := linearRegression (depletionPoints historicalData) in
  let wlResiduals :=
    calcResidualStdError (waterLevelPoints historicalData) wlReg in
  let rfResiduals :=
    calcResidualStdError (rainfallPoints historicalData) rfReg in
  let dpResiduals :=
    calcResidualStdError (depletionPoints historicalData) dpReg in
  let lastYear :=
    Math_max_list (map (fun d => of_Z (year d)) historicalData) in
  match rounds yearsAhead with
  | Some k =>
      Some (map (predictAt historicalData wlReg rfReg dpReg
                   wlResiduals rfResiduals dpResiduals lastYear)
              (seq 1 k))
  | None => None
  end.

End Forecast.

End WaterScore.

(** ** [utils/alertEngine]: threshold and trend alerts *)

Module AlertEngine.
Import JS JS.Notations Data.
Local Open Scope num_scope.

Module ALERT_THRESHOLDS.
Definition criticalWaterLevel : number := Fin 15.
Definition warningWaterLevel : number := Fin 12.
Definition highDepletion : number := Fin 5.
Definition criticalDepletion : number := Fin 7.
Definition lowRainfall : number := Fin 700.
Definition criticalRainfall : number := Fin 600.
Definition highPH : number := Fin 8.0.
Definition lowPH : number := Fin 6.5.
Definition highConsumption : number := Fin 500.
End ALERT_THRESHOLDS.
Import ALERT_THRESHOLDS.

(** A template literal, kept as its parts: literal text, an interpolated
    string, an interpolated number, and a number printed by
    [toFixed(digits)]. *)
Inductive part : Type :=
| Txt (s : string)
| Str (s : jsstring)
| Num (n : number)
| Dec (digits : nat) (n : number).

(** What the [value] and [threshold] properties hold. *)
Inductive property : Type :=
| Missing
| Number (n : number)
| String (s : jsstring)
| Template (t : list part).

Module Alert.
Record t : Type := {
  type : string;
  category : string;
  title : list part;
  message : list part;
  value : property;
  threshold : property;
  recommendation : string;
  timestamp : Z
}.
End Alert.

Section Thresholds.
Variable data : Observation.
Variable timestamp : Z.

Definition waterLevelAlerts : list Alert.t :=
  if groundwaterLevel data >=? criticalWaterLevel then
    [ {| Alert.type := "critical";
         Alert.category := "Water Level";
         Alert.title := [Txt "🚨 Critical Water Level"];
         Alert.message :=
           [Txt "Groundwater level at "; Num (groundwaterLevel data);
            Txt "m depth in "; Str (location data);
            Txt ". Immediate action required."];
         Alert.value := Number (groundwaterLevel data);
         Alert.threshold := Number criticalWaterLevel;
         Alert.recommendation :=
           "Implement water rationing and emergency recharge measures.";
         Alert.timestamp := timestamp |} ]
  else if groundwaterLevel data >=? warningWaterLevel then
    [ {| Alert.type := "warning";
         Alert.category := "Water Level";
         Alert.title := [Txt "⚠️ Low Water Table"];
         Alert.message :=
           [Txt "Water table at "; Num (groundwaterLevel data);
            Txt "m in "; Str (location data); Txt ". Monitor closely."];
         Alert.value := Number (groundwaterLevel data);
         Alert.threshold := Number warningWaterLevel;
         Alert.recommendation :=
           "Increase monitoring frequency. Consider water conservation measures.";
         Alert.timestamp := timestamp |} ]
  else [].

Definition depletionAlerts : list Alert.t :=
  if depletionRate data >=? criticalDepletion then
    [ {| Alert.type := "critical";
         Alert.category := "Depletion";
         Alert.title := [Txt "🚨 Over-extraction Detected"];
         Alert.message :=
           [Txt "Groundwater depletion rate at "; Num (depletionRate data);
            Txt "% in "; Str (location data);
            Txt ". Aquifer stress is severe."];
         Alert.value := Number (depletionRate data);
         Alert.threshold := Number criticalDepletion;
         Alert.recommendation :=
           "Restrict bore-well usage. Implement mandatory rainwater harvesting.";
         Alert.timestamp := timestamp |} ]
  else if depletionRate data >=? highDepletion then
    [ {| Alert.type := "warning";
         Alert.category := "Depletion";
         Alert.title := [Txt "⚠️ High Depletion Rate"];
         Alert.message :=
           [Txt "Depletion rate "; Num (depletionRate data);
            Txt "% in "; Str (location data);
            Txt ". Extraction exceeds recharge."];
         Alert.value := Number (depletionRate data);
         Alert.threshold := Number highDepletion;
         Alert.recommendation :=
           "Promote water-efficient irrigation. Review extraction permits.";
         Alert.timestamp := timestamp |} ]
  else [].

Definition rainfallAlerts : list Alert.t :=
  if rainfall data <=? criticalRainfall then
    [ {| Alert.type := "critical";
         Alert.category := "Rainfall";
         Alert.title := [Txt "🚨 Drought Risk"];
         Alert.message :=
           [Txt "Rainfall only "; Num (rainfall data);
            Txt "mm in "; Str (location data);
            Txt ". Severe drought conditions likely."];
         Alert.value := Number (rainfall data);
         Alert.threshold := Number criticalRainfall;
         Alert.recommendation :=
           "Activate drought contingency plans. Arrange water tanker supply.";
         Alert.timestamp := timestamp |} ]
  else if rainfall data <=? lowRainfall then
    [ {| Alert.type := "warning";
         Alert.category := "Rainfall";
         Alert.title := [Txt "⚠️ Below Normal Rainfall"];
         Alert.message :=
           [Txt "Rainfall "; Num (rainfall data);
            Txt "mm in "; Str (location data);
            Txt ", below expected levels."];
         Alert.value := Number (rainfall data);
         Alert.threshold := Number lowRainfall;
         Alert.recommendation :=
           "Monitor reservoir levels. Advise farmers on drought-resistant crops.";
         Alert.timestamp := timestamp |} ]
  else [].

Definition phAlerts : list Alert.t :=
  if (ph data >=? highPH) || (ph data <=? lowPH) then
    [ {| Alert.type := "warning";
         Alert.category := "Water Quality";
         Alert.title := [Txt "⚠️ pH Imbalance"];
         Alert.message :=
           [Txt "pH level "; Num (ph data);
            Txt " in "; Str (location data);
            Txt ". Water quality may be affected."];
         Alert.value := Number (ph data);
         Alert.threshold := Template [Num lowPH; Txt "-"; Num highPH];
         Alert.recommendation :=
           "Test for contaminants. Advise water treatment before consumption.";
         Alert.timestamp := timestamp |} ]
  else [].

Definition consumptionAlerts : list Alert.t :=
  if consumption data >=? highConsumption then
    [ {| Alert.type := "info";
         Alert.category := "Consumption";
         Alert.title := [Txt "ℹ️ High Water Consumption"];
         Alert.message :=
           [Txt "Total consumption "; Num (consumption data);
            Txt " Ml in "; Str (location data);
            Txt ". Above district average."];
         Alert.value := Number (consumption data);
         Alert.threshold := Number highConsumption;
         Alert.recommendation :=
           "Review industrial and agricultural water permits. Promote efficiency.";
         Alert.timestamp := timestamp |} ]
  else [].

Definition scarcityAlerts : list Alert.t :=
  if str_eqb (scarcityLevel data) (js "Severe")
     || str_eqb (scarcityLevel data) (js "Extreme") then
    [ {| Alert.type := "critical";
         Alert.category := "Scarcity";
         Alert.title :=
           [Txt "🚨 "; Str (scarcityLevel data); Txt " Water Scarcity"];
         Alert.message :=
           [Str (location data); Txt " classified as ";
            Str (scarcityLevel data); Txt " water scarcity zone."];
         Alert.value := String (scarcityLevel data);
         Alert.threshold := Missing;
         Alert.recommendation :=
           "Prioritize for government water supply augmentation schemes.";
         Alert.timestamp := timestamp |} ]
  else [].
End Thresholds.

(** The length of the run of pairs related by [rel] that ends at the
    last record: the counter of the loop over [i = 1 .. length - 1]. *)
Fixpoint run (rel : Observation -> Observation -> bool)
    (prev : Observation) (rest : list Observation) (count : nat) : nat :=
  match rest with
  | [] => count
  | cur :: rest' =>
      run rel cur rest' (if rel cur prev then S count else O)
  end.

Definition consecutive (rel : Observation -> Observation -> bool)
    (sorted : list Observation) : nat :=
  match sorted with
  | [] => O
  | first :: rest => run rel first rest O
  end.

(** [sorted[j].groundwaterLevel]; the engine only reads inside the
    array. *)
Definition levelAt (sorted : list Observation) (j : nat) : number :=
  match nth_error sorted j with
  | Some d => groundwaterLevel d
  | None => NaN
  end.

Definition average (xs : list number) : number :=
  fold_left add xs (Fin 0) / of_nat (List.length xs).

Section Trends.
Variable data : Observation.
Variable timestamp : Z.
Variable sorted : list Observation.

Definition consecutiveRise : nat :=
  consecutive (fun cur prev => groundwaterLevel cur >? groundwaterLevel prev)
    sorted.

Definition waterLevelTrendAlerts : list Alert.t :=
  if (3 <=? consecutiveRise)%nat then
    let totalRise :=
      levelAt sorted (List.length sorted - 1)
      - levelAt sorted (List.length sorted - 1 - consecutiveRise) in
    [ {| Alert.type := "warning";
         Alert.category := "Trend";
         Alert.title := [Txt "📉 Sustained Water Level Decline"];
         Alert.message :=
           [Txt "Water level in "; Str (location data);
            Txt " has been dropping for "; Num (of_nat consecutiveRise);
            Txt " consecutive years ("; Dec 1 totalRise;
            Txt "m increase in depth)."];
         Alert.value := Number (of_nat consecutiveRise);
         Alert.threshold := Missing;
         Alert.recommendation :=
           "Long-term recharge intervention needed. Consider artificial recharge structures.";
         Alert.timestamp := timestamp |} ]
  else [].

Definition consecutiveDepIncrease : nat :=
  consecutive (fun cur prev => depletionRate cur >? depletionRate prev)
    sorted.

Definition depletionTrendAlerts : list Alert.t :=
  if (3 <=? consecutiveDepIncrease)%nat then
    [ {| Alert.type := "critical";
         Alert.category := "Trend";
         Alert.title := [Txt "📊 Accelerating Depletion Trend"];
         Alert.message :=
           [Txt "Depletion rate in "; Str (location data);
            Txt " has increased for "; Num (of_nat consecutiveDepIncrease);
            Txt " consecutive years. Current: "; Num (depletionRate data);
            Txt "%."];
         Alert.value := Number (of_nat consecutiveDepIncrease);
         Alert.threshold := Missing;
         Alert.recommendation :=
           "Urgent policy intervention needed. Restrict new extraction permits.";
         Alert.timestamp := timestamp |} ]
  else [].

Definition consecutiveRainfallDrop : nat :=
  consecutive (fun cur prev => rainfall cur <? rainfall prev) sorted.

Definition rainfallTrendAlerts : list Alert.t :=
  if (3 <=? consecutiveRainfallDrop)%nat then
    [ {| Alert.type := "warning";
         Alert.category := "Trend";
         Alert.title := [Txt "🌧️ Declining Rainfall Pattern"];
         Alert.message :=
           [Txt "Rainfall in "; Str (location data);
            Txt " has decreased for "; Num (of_nat consecutiveRainfallDrop);
            Txt " consecutive years. Long-term drought risk elevated."];
         Alert.value := Number (of_nat consecutiveRainfallDrop);
         Alert.threshold := Missing;
         Alert.recommendation :=
           "Plan for drought resilience. Increase water storage capacity.";
         Alert.timestamp := timestamp |} ]
  else [].

Definition scoreTrendAlerts : list Alert.t :=
  let scores := map WaterScore.calculateWaterScore sorted in
  let half := Nat.div (List.length scores) 2 in
  let firstHalf := firstn half scores in
  let secondHalf := skipn half scores in
  let avgFirst := average firstHalf in
  let avgSecond := average secondHalf in
  if avgSecond <? avgFirst - Fin 10 then
    [ {| Alert.type := "warning";
         Alert.category := "Trend";
         Alert.title := [Txt "⚡ Overall Water Health Declining"];
         Alert.message :=
           [Txt "Water health score in "; Str (location data);
            Txt " has declined significantly (avg ";
            Num (Math_round avgFirst); Txt " → ";
            Num (Math_round avgSecond);
            Txt ") over the monitoring period."];
         Alert.value := Number (Math_round (avgSecond - avgFirst));
         Alert.threshold := Missing;
         Alert.recommendation :=
           "Comprehensive water management review recommended for this location.";
         Alert.timestamp := timestamp |} ]
  else [].
End Trends.

(** The alert of a water level that fell for [n] years in a row. *)
Definition sustainedDecline (a : Alert.t) (n : nat) : Prop :=
  Alert.category a = "Trend"%string
  /\ Alert.title a = [Txt "📉 Sustained Water Level Decline"]
  /\ Alert.value a = Number (of_nat n).

(** [generateAlerts(data, history)]; [history] may be left out. *)
Definition generateAlerts (data : Observation)
    (history : option (list Observation)) : Clock (list Alert.t) :=
  bind new_Date (fun timestamp =>
    let alerts :=
      waterLevelAlerts data timestamp
      ++ depletionAlerts data timestamp
      ++ rainfallAlerts data timestamp
      ++ phAlerts data timestamp
      ++ consumptionAlerts data timestamp
      ++ scarcityAlerts data timestamp in
    ret
      match history with
      | Some history =>
          if (3 <=? List.length history)%nat then
            let sorted := sort by_year history in
            alerts
            ++ waterLevelTrendAlerts data timestamp sorted
            ++ depletionTrendAlerts data timestamp sorted
            ++ rainfallTrendAlerts data timestamp sorted
            ++ scoreTrendAlerts data timestamp sorted
          else alerts
      | None => alerts
      end).

End AlertEngine.

(** ** The in-memory data store *)

Module DataStore.
Import JS JS.Notations Data.
Local Open Scope num_scope.

Module Enriched.
Record t : Type := {
  record : Observation;
  waterScore : number;
  status : string;
  statusColor : string;
  wqi : WaterScore.index_value;
  depletionIndex : WaterScore.index_value;
  sustainabilityScore : number
}.
End Enriched.

Definition enrichRecord (d : Observation) : Enriched.t :=
  let score := WaterScore.calculateWaterScore d in
  {| Enriched.record := d;
     Enriched.waterScore := score;
     Enriched.status := WaterScore.getStatus score;
     Enriched.statusColor := WaterScore.getStatusColor score;
     Enriched.wqi := WaterScore.calculateWQI (ph d);
     Enriched.depletionIndex :=
       WaterScore.calculateDepletionIndex (depletionRate d);
     Enriched.sustainabilityScore :=
       WaterScore.calculateSustainabilityScore d |}.

(** *** The synthetic series *)

(** [hash = (hash << 5) - hash + charCode; hash |= 0] *)
Definition hashStep (hash : Z) (c : N) : Z :=
  to_int32 (shl32 hash 5 - hash + charCodeAt c)%Z.

Definition nameHash (name : jsstring) : Z := fold_left hashStep name 0%Z.

Definition years : list Z := [2016; 2017; 2018; 2019; 2020; 2021]%Z.

Definition classifyScarcity (newDepletion newRainfall : number) : jsstring :=
  if newDepletion >=? Fin 6 then js "Severe"
  else if newDepletion >=? Fin 5 then js "High"
  else if newDepletion >=? Fin 3 then
    if newRainfall <? Fin 750 then js "High" else js "Moderate"
  else js "Low".

(** The record pushed for one target year. *)
Definition recordFor (baseRow : Observation) (hash : Z) (yr : Z)
  : Clock Observation :=
  if (yr =? year baseRow)%Z then ret baseRow
  else
    let offset := of_Z (yr - year baseRow) in
    let varSeed := Z.rem (Z.abs hash + yr) 100 in
    let variation := (of_Z varSeed - Fin 50) / Fin 200 in
    let depletionDelta := offset * Fin 0.25 + variation * Fin 0.4 in
    let rainfallDelta := offset * Fin (-8) + variation * Fin 35 in
    let levelDelta := offset * Fin 0.15 + variation * Fin 0.35 in
    let newDepletion :=
      Math_max (Fin 0.5) (toFixed 1 (depletionRate baseRow + depletionDelta)) in
    let newRainfall :=
      Math_max (Fin 400) (toFixed 0 (rainfall baseRow + rainfallDelta)) in
    let newLevel :=
      Math_max (Fin 3) (toFixed 1 (groundwaterLevel baseRow + levelDelta)) in
    let newConsumption :=
      Math_max (Fin 100)
        (toFixed 0 (consumption baseRow + offset * Fin 8 + variation * Fin 15)) in
    let newPh :=
      Math_max (Fin 6.0)
        (Math_min (Fin 9.0) (toFixed 1 (ph baseRow + variation * Fin 0.25))) in
    let newAgri :=
      Math_max (Fin 50)
        (toFixed 0
           (agriculturalUsage baseRow + offset * Fin 4 + variation * Fin 12)) in
    let newIndustrial :=
      Math_max (Fin 10)
        (toFixed 0
           (industrialUsage baseRow + offset * Fin 2 + variation * Fin 8)) in
    let newHousehold :=
      Math_max (Fin 20)
        (toFixed 0
           (householdUsage baseRow + offset * Fin 2 + variation * Fin 6)) in
    let newPerCapita :=
      Math_max (Fin 50)
        (toFixed 0
           (perCapitaUsage baseRow + offset * Fin 1.5 + variation * Fin 4)) in
    let scarcity := classifyScarcity newDepletion newRainfall in
    bind new_Date (fun now =>
      ret {| location := location baseRow;
             year := yr;
             consumption := newConsumption;
             perCapitaUsage := newPerCapita;
             agriculturalUsage := newAgri;
             industrialUsage := newIndustrial;
             householdUsage := newHousehold;
             rainfall := newRainfall;
             depletionRate := newDepletion;
             scarcityLevel := scarcity;
             ph := newPh;
             groundwaterLevel := newLevel;
             latitude := Absent;
             longitude := Absent;
             lastUpdated := Val now |}).

(** [for (const x of xs) records.push(f x)] *)
Fixpoint forEach {A B} (f : A -> Clock B) (xs : list A) : Clock (list B) :=
  match xs with
  | [] => ret []
  | x :: xs' =>
      bind (f x) (fun b => bind (forEach f xs') (fun bs => ret (b :: bs)))
  end.

Definition generateMultiYearData (baseRow : Observation)
  : Clock (list Observation) :=
  forEach (recordFor baseRow (nameHash (location baseRow))) years.

(** *** Queries; [waterData] is the array of the store *)

Definition getWaterByLocation (waterData : list Observation)
    (locationName : jsstring) : list Observation :=
  sort by_year
    (filter (fun d => str_eqb (location d) locationName) waterData).

(** [if (!latestMap[d.location] || d.year > latestMap[d.location].year)
      latestMap[d.location] = d;]
    An inherited member of the object is truthy and has no [year], so
    the record is not stored. *)
Definition latestStep (latestMap : object Observation) (d : Observation)
  : object Observation :=
  match get latestMap (location d) with
  | Own cur =>
      if (year d >? year cur)%Z then set latestMap (location d) d
      else latestMap
  | Inherited => latestMap
  | Undefined => set latestMap (location d) d
  end.

Definition latestMap (waterData : list Observation) : object Observation :=
  fold_left latestStep waterData [].

Definition latestArr (waterData : list Observation) : list Observation :=
  Object_values (latestMap waterData).

(** What one round of the loop keeps: the keys stay distinct, every
    entry is a record of the array stored under its own location. *)
Record latest_inv (seen : list Observation) (m : object Observation)
  : Prop := {
  keys_nodup : NoDup (map fst m);
  entries_sound :
    forall k v, In (k, v) m -> In v seen /\ location v = k;
  keys_complete :
    forall d, In d seen -> ~ In (location d) Object_prototype_names ->
              In (location d) (map fst m)
}.

Module DistrictStats.
Record t : Type := {
  totalLocations : nat;
  avgWaterLevel : number;
  avgRainfall : number;
  avgDepletion : number;
  criticalCount : nat;
  warningCount : nat;
  safeCount : nat
}.
End DistrictStats.

Record tally : Type := {
  totalWaterLevel : number;
  totalRainfall : number;
  totalDepletion : number;
  critical : nat;
  warning : nat;
  safe : nat
}.

Definition tallyStep (t : tally) (d : Observation) : tally :=
  let isCritical :=
    str_eqb (scarcityLevel d) (js "Severe")
    || str_eqb (scarcityLevel d) (js "Extreme") in
  let isWarning := str_eqb (scarcityLevel d) (js "High") in
  {| totalWaterLevel := totalWaterLevel t + or_else (groundwaterLevel d) (Fin 0);
     totalRainfall := totalRainfall t + or_else (rainfall d) (Fin 0);
     totalDepletion := totalDepletion t + or_else (depletionRate d) (Fin 0);
     critical := if isCritical then S (critical t) else critical t;
     warning :=
       if isCritical then warning t
       else if isWarning then S (warning t) else warning t;
     safe :=
       if isCritical then safe t
       else if isWarning then safe t else S (safe t) |}.

(** [getDistrictStats()]; [None] is the empty object [{}]. *)
Definition getDistrictStats (waterData : list Observation)
  : option DistrictStats.t :=
  let latestArr := latestArr waterData in
  match latestArr with
  | [] => None
  | _ :: _ =>
      let t :=
        fold_left tallyStep latestArr
          {| totalWaterLevel := Fin 0; totalRainfall := Fin 0;
             totalDepletion := Fin 0;
             critical := O; warning := O; safe := O |} in
      let n := List.length latestArr in
      Some {| DistrictStats.totalLocations := n;
              DistrictStats.avgWaterLevel :=
                toFixed 2 (totalWaterLevel t / of_nat n);
              DistrictStats.avgRainfall :=
                toFixed 1 (totalRainfall t / of_nat n);
              DistrictStats.avgDepletion :=
                toFixed 2 (totalDepletion t / of_nat n);
              DistrictStats.criticalCount := critical t;
              DistrictStats.warningCount := warning t;
              DistrictStats.safeCount := safe t |}
  end.

(** *** Trend and year-over-year changes *)

(** [records[records.length - 1]] and [records[records.length - 2]] *)
Definition lastOf (records : list Observation) : option Observation :=
  nth_error records (List.length records - 1).

Definition secondLastOf (records : list Observation) : option Observation :=
  if (2 <=? List.length records)%nat
  then nth_error records (List.length records - 2)
  else None.

(** The trend label from the score of the latest record and the record
    before it. *)
Definition trendOf (currScore : number) (records : list Observation)
  : string :=
  match secondLastOf records with
  | Some prev =>
      let prevScore := WaterScore.calculateWaterScore prev in
      let diff := currScore - prevScore in
      if diff >? Fin 3 then "improving"
      else if diff <? Fin (-3) then "declining"
      else "stable"
  | None => "stable"
  end.

(** The pairs [(records[i - 1], records[i])] for [i = 1 .. length - 1]. *)
Fixpoint consecutivePairs (records : list Observation)
  : list (Observation * Observation) :=
  match records with
  | prv :: (cur :: _) as rest => (prv, cur) :: consecutivePairs rest
  | _ => []
  end.

Module YoY.
Record t : Type := {
  from : Z;
  to : Z;
  waterLevelChange : number;
  rainfallChange : number;
  depletionChange : number
}.
End YoY.

(** [+((cur - prv) / (prv || 1) * 100).toFixed(1)] *)
Definition relativeChange (cur prv : number) : number :=
  toFixed 1 ((cur - prv) / or_else prv (Fin 1) * Fin 100).

Definition yoyChange (p : Observation * Observation) : YoY.t :=
  let (prv, cur) := p in
  {| YoY.from := year prv;
     YoY.to := year cur;
     YoY.waterLevelChange :=
       relativeChange (groundwaterLevel cur) (groundwaterLevel prv);
     YoY.rainfallChange := relativeChange (rainfall cur) (rainfall prv);
     YoY.depletionChange :=
       relativeChange (depletionRate cur) (depletionRate prv) |}.

Module Summary.
Record t : Type := {
  location : jsstring;
  year : Z;
  waterScore : number;
  status : string;
  statusColor : string;
  groundwaterLevel : number;
  rainfall : number;
  depletionRate : number;
  ph : number;
  scarcityLevel : jsstring;
  wqi : WaterScore.index_value;
  depletionIndex : WaterScore.index_value;
  sustainabilityScore : number;
  trend : string;
  alertCount : nat;
  yoyChanges : list YoY.t;
  narrative : list AlertEngine.part;
  yearsAvailable : list Z
}.
End Summary.

Definition count (b : bool) : nat := if b then 1 else 0.

(** [getLocationSummary(locationName)]; [None] is [null]. *)
Definition getLocationSummary (waterData : list Observation)
    (locationName : jsstring) : option Summary.t :=
  let records := getWaterByLocation waterData locationName in
  match lastOf records with
  | None => None
  | Some latest =>
      let enriched := enrichRecord latest in
      let trend := trendOf (Enriched.waterScore enriched) records in
      let yoyChanges :=
        if (2 <=? List.length records)%nat
        then map yoyChange (consecutivePairs records)
        else [] in
      let deepLevel := groundwaterLevel latest >=? Fin 12 in
      let highDepletion := depletionRate latest >=? Fin 5 in
      let lowRainfall := rainfall latest <=? Fin 700 in
      let badPh := (ph latest <? Fin 6.5) || (ph latest >? Fin 8.0) in
      let scarce :=
        str_eqb (scarcityLevel latest) (js "Severe")
        || str_eqb (scarcityLevel latest) (js "Extreme") in
      let alertCount :=
        (count deepLevel + count highDepletion + count lowRainfall
         + count badPh + count scarce)%nat in
      let narrative :=
        [AlertEngine.Str locationName;
         AlertEngine.Txt " has a water score of ";
         AlertEngine.Num (Enriched.waterScore enriched);
         AlertEngine.Txt "/100 (";
         AlertEngine.Txt (Enriched.status enriched);
         AlertEngine.Txt "). ";
         AlertEngine.Txt "The groundwater level is ";
         AlertEngine.Num (groundwaterLevel latest);
         AlertEngine.Txt "m with ";
         AlertEngine.Num (rainfall latest);
         AlertEngine.Txt "mm rainfall. ";
         AlertEngine.Txt "Trend is ";
         AlertEngine.Txt trend;
         AlertEngine.Txt " with ";
         AlertEngine.Num (of_nat alertCount);
         AlertEngine.Txt " active alert";
         AlertEngine.Txt (if Nat.eqb alertCount 1 then "" else "s");
         AlertEngine.Txt "."] in
      Some {| Summary.location := locationName;
              Summary.year := year latest;
              Summary.waterScore := Enriched.waterScore enriched;
              Summary.status := Enriched.status enriched;
              Summary.statusColor := Enriched.statusColor enriched;
              Summary.groundwaterLevel := groundwaterLevel latest;
              Summary.rainfall := rainfall latest;
              Summary.depletionRate := depletionRate latest;
              Summary.ph := ph latest;
              Summary.scarcityLevel := scarcityLevel latest;
              Summary.wqi := Enriched.wqi enriched;
              Summary.depletionIndex := Enriched.depletionIndex enriched;
              Summary.sustainabilityScore :=
                Enriched.sustainabilityScore enriched;
              Summary.trend := trend;
              Summary.alertCount := alertCount;
              Summary.yoyChanges := yoyChanges;
              Summary.narrative := narrative;
              Summary.yearsAvailable := map year records |}
  end.

(** *** Rankings *)

Module Ranking.
Record t : Type := {
  location : jsstring;
  waterScore : number;
  status : string;
  statusColor : string;
  scarcityLevel : jsstring;
  groundwaterLevel : number;
  rainfall : number;
  depletionRate : number;
  trend : string;
  rank : option nat
}.
End Ranking.

Definition rankingOf (waterData : list Observation) (d : Observation)
  : Ranking.t :=
  let enriched := enrichRecord d in
  let records := getWaterByLocation waterData (location d) in
  let trend := trendOf (Enriched.waterScore enriched) records in
  {| Ranking.location := location d;
     Ranking.waterScore := Enriched.waterScore enriched;
     Ranking.status := Enriched.status enriched;
     Ranking.statusColor := Enriched.statusColor enriched;
     Ranking.scarcityLevel := scarcityLevel d;
     Ranking.groundwaterLevel := groundwaterLevel d;
     Ranking.rainfall := rainfall d;
     Ranking.depletionRate := depletionRate d;
     Ranking.trend := trend;
     Ranking.rank := None |}.

Definition by_score_desc (a b : Ranking.t) : number :=
  Ranking.waterScore b - Ranking.waterScore a.

Definition setRank (item : Ranking.t) (r : nat) : Ranking.t :=
  {| Ranking.location := Ranking.location item;
     Ranking.waterScore := Ranking.waterScore item;
     Ranking.status := Ranking.status item;
     Ranking.statusColor := Ranking.statusColor item;
     Ranking.scarcityLevel := Ranking.scarcityLevel item;
     Ranking.groundwaterLevel := Ranking.groundwaterLevel item;
     Ranking.rainfall := Ranking.rainfall item;
     Ranking.depletionRate := Ranking.depletionRate item;
     Ranking.trend := Ranking.trend item;
     Ranking.rank := Some r |}.

(** [ranked.forEach((item, i) => { item.rank = i + 1; })], from index [i]. *)
Fixpoint assignRanks (i : nat) (ranked : list Ranking.t) : list Ranking.t :=
  match ranked with
  | [] => []
  | item :: rest => setRank item (i + 1) :: assignRanks (S i) rest
  end.

Definition getRankings (waterData : list Observation) : list Ranking.t :=
  let ranked := map (rankingOf waterData) (latestArr waterData) in
  assignRanks 0 (sort by_score_desc ranked).

(** *** Yearly changes *)

Module Change.
Record t : Type := { prev : number; curr : number; changePct : number }.
End Change.

Module YearlyChange.
Record t : Type := {
  from : Z;
  to : Z;
  waterLevel : Change.t;
  rainfall : Change.t;
  depletion : Change.t;
  consumption : Change.t;
  ph : Change.t
}.
End YearlyChange.

Definition safeDiv (a b : number) : number :=
  if strict_ne b (Fin 0)
  then toFixed 1 ((a - b) / Math_abs b * Fin 100)
  else Fin 0.

Definition change (metric : Observation -> number)
    (prv cur : Observation) : Change.t :=
  {| Change.prev := metric prv;
     Change.curr := metric cur;
     Change.changePct := safeDiv (metric cur) (metric prv) |}.

Definition yearlyChange (p : Observation * Observation) : YearlyChange.t :=
  let (prv, cur) := p in
  {| YearlyChange.from := year prv;
     YearlyChange.to := year cur;
     YearlyChange.waterLevel := change groundwaterLevel prv cur;
     YearlyChange.rainfall := change rainfall prv cur;
     YearlyChange.depletion := change depletionRate prv cur;
     YearlyChange.consumption := change consumption prv cur;
     YearlyChange.ph := change ph prv cur |}.

Definition getYearlyChanges (waterData : list Observation)
    (locationName : jsstring) : list YearlyChange.t :=
  let records := getWaterByLocation waterData locationName in
  if (List.length records <? 2)%nat then []
  else map yearlyChange (consecutivePairs records).

End DataStore.

(** ** [controllers/waterController]: the predictions endpoint *)

Module WaterController.
Import JS JS.Notations Data.

Module Request.
(** [req.params.location] and [req.query.years] *)
Record t : Type := { location : jsstring; years : option jsstring }.
End Request.

Inductive body : Type :=
| Failure (message : string)
| Predictions (predictions : list WaterScore.Prediction.t) (basedOn : nat).

Module Response.
Record t : Type := { status : Z; json : body }.
End Response.

Section Handlers.
Variable sqrtQ : Q -> Q.
(** [parseInt] of the query parameter ([NaN] when it is missing or
    does not start with an integer). *)
Variable parseInt : option jsstring -> number.

(** [GET /api/water/:location/predictions]; [None] when the handler
    does not return. *)
Definition getPredictions (waterData : list Observation)
    (req : Request.t) : option Response.t :=
  let location := Request.location req in
  let yearsAhead := or_else (parseInt (Request.years req)) (Fin 3) in
  let data := DataStore.getWaterByLocation waterData location in
  if (List.length data <? 2)%nat then
    Some {| Response.status := 400;
            Response.json :=
              Failure "Need at least 2 years of data for predictions" |}
  else
    match WaterScore.predictFuture sqrtQ data (Some yearsAhead) with
    | Some predictions =>
        Some {| Response.status := 200;
                Response.json :=
                  Predictions predictions (List.length data) |}
    | None => None
    end.
End Handlers.

End WaterController.

(** ** Sample records *)

Module Samples.
Import JS Data.

(** A record of location [name] for year [yr] with the four scored
    metrics given and the other properties fixed. *)
Definition sample (name : string) (yr : Z)
    (level rain depletion acidity : Q) : Observation :=
  {| location := js name;
     year := yr;
     consumption := Fin 300;
     perCapitaUsage := Fin 120;
     agriculturalUsage := Fin 150;
     industrialUsage := Fin 60;
     householdUsage := Fin 90;
     rainfall := Fin rain;
     depletionRate := Fin depletion;
     scarcityLevel := js "Low";
     ph := Fin acidity;
     groundwaterLevel := Fin level;
     latitude := Null;
     longitude := Null;
     lastUpdated := Val 1700000000000%Z |}.

(** A clock that advances by one millisecond at every reading. *)
Definition ticking : nat -> Z := fun n => (1700000000000 + Z.of_nat n)%Z.

(** Two locations with the same metrics. *)
Definition tied : list Observation :=
  [sample "A" 2020 10 800 4 7.2; sample "B" 2020 10 800 4 7.2].

(** Three years of a water level that rises every year. *)
Definition rising3 : list Observation :=
  [sample "A" 2016 5 900 2 7.2; sample "A" 2017 6 900 2 7.2;
   sample "A" 2018 7 900 2 7.2].

Definition rising4 : list Observation :=
  rising3 ++ [sample "A" 2019 8 900 2 7.2].

(** A depletion rate that starts from zero. *)
Definition fromZero : list Observation :=
  [sample "A" 2018 10 800 0 7.2; sample "A" 2019 10 800 2 7.2].

(** The two-point history of the forecast example, and a falling one. *)
Definition twoPoints : list Observation :=
  [sample "A" 2018 10 800 4 7.2; sample "A" 2019 12 800 4 7.2].

Definition falling : list Observation :=
  [sample "A" 2018 10 800 4 7.2; sample "A" 2019 2 800 4 7.2].
End Samples.

(** ** The store as a whole: records and locations *)

Module Store.
Import JS JS.Notations Data DataStore.
Local Open Scope num_scope.

Module Coordinates.
Record t : Type := { latitude : number; longitude : number }.
End Coordinates.

(** Fallback coordinates around the city centre, from the hash of the
    name (the loop is the one of the generator). *)
Definition generateCoordinates (locationName : jsstring) : Coordinates.t :=
  let hash := nameHash locationName in
  let latOffset := of_Z (Z.rem hash 500) / Fin 500 * Fin 0.8 - Fin 0.4 in
  let lngOffset :=
    of_Z (Z.rem (Z.shiftr hash 8) 500) / Fin 500 * Fin 0.8 - Fin 0.4 in
  {| Coordinates.latitude := toFixed 6 (Fin 19.9975 + latOffset);
     Coordinates.longitude := toFixed 6 (Fin 73.7898 + lngOffset) |}.

Module Location.
Record t : Type := {
  name : jsstring;
  latitude : number;
  longitude : number;
  district : string;
  state : string
}.
End Location.

(** [(row.latitude && row.longitude)
       ? { latitude: row.latitude, longitude: row.longitude }
       : generateCoordinates(row.location)] *)
Definition coordinatesOf (row : Observation) : Coordinates.t :=
  match latitude row, longitude row with
  | Val lat, Val lng =>
      if truthy lat && truthy lng
      then {| Coordinates.latitude := lat; Coordinates.longitude := lng |}
      else generateCoordinates (location row)
  | _, _ => generateCoordinates (location row)
  end.

Definition locationOf (row : Observation) : Location.t :=
  let coords := coordinatesOf row in
  {| Location.name := location row;
     Location.latitude := Coordinates.latitude coords;
     Location.longitude := Coordinates.longitude coords;
     Location.district := "Nashik";
     Location.state := "Maharashtra" |}.

(** The two arrays of the module. *)
Record state : Type := {
  waterData : list Observation;
  locations : list Location.t
}.

Definition sameKey (row d : Observation) : bool :=
  str_eqb (location d) (location row) && (year d =? year row)%Z.

Definition known (locations : list Location.t) (name : jsstring) : bool :=
  existsb (fun l => str_eqb (Location.name l) name) locations.

(** One round of [addWaterData]: the record of the same location and
    year is removed, the row is pushed, and its location is added when
    it is new. *)
Definition addRow (st : state) (row : Observation) : state :=
  {| waterData :=
       filter (fun d => negb (sameKey row d)) (waterData st) ++ [row];
     locations :=
       if known (locations st) (location row) then locations st
       else locations st ++ [locationOf row] |}.

Definition addWaterData (st : state) (rows : list Observation) : state :=
  fold_left addRow rows st.

(** [waterData.push(...multiYear)] for every row. *)
Fixpoint generateAll (rows : list Observation) : Clock (list Observation) :=
  match rows with
  | [] => ret []
  | row :: rows' =>
      bind (generateMultiYearData row) (fun multiYear =>
      bind (generateAll rows') (fun rest => ret (multiYear ++ rest)))
  end.

(** The locations of the rows, each name once ([seen] is the set of the
    names met so far). *)
Fixpoint uniqueLocations (seen : list jsstring) (rows : list Observation)
  : list Location.t :=
  match rows with
  | [] => []
  | r :: rows' =>
      if existsb (str_eqb (location r)) seen
      then uniqueLocations seen rows'
      else locationOf r :: uniqueLocations (location r :: seen) rows'
  end.

(** [loadData()], from the rows that [parseCSV] returned. *)
Definition loadData (rows : list Observation) : Clock state :=
  bind (generateAll rows) (fun waterData =>
  ret {| waterData := waterData; locations := uniqueLocations [] rows |}).

Definition getLatestByLocation (waterData : list Observation)
    (locationName : jsstring) : option Observation :=
  lastOf (getWaterByLocation waterData locationName).

Definition getLocationByName (locations : list Location.t)
    (name : jsstring) : option Location.t :=
  find (fun l => str_eqb (Location.name l) name) locations.

(** *** The heat map *)

Module Heat.
Record t : Type := {
  lat : number;
  lng : number;
  intensity : number;
  location : jsstring;
  waterScore : number;
  status : string
}.
End Heat.

(** The entry of one latest record; [None] is [null], which
    [filter(Boolean)] drops. *)
Definition heatOf (locations : list Location.t) (d : Observation)
  : option Heat.t :=
  match find (fun l => str_eqb (Location.name l) (location d)) locations with
  | None => None
  | Some loc =>
      let score := WaterScore.calculateWaterScore d in
      let intensity := Math_max (Fin 0.1) ((Fin 100 - score) / Fin 100) in
      Some {| Heat.lat := Location.latitude loc;
              Heat.lng := Location.longitude loc;
              Heat.intensity := toFixed 2 intensity;
              Heat.location := location d;
              Heat.waterScore := score;
              Heat.status := WaterScore.getStatus score |}
  end.

Fixpoint dropNull {A : Type} (xs : list (option A)) : list A :=
  match xs with
  | [] => []
  | Some x :: xs' => x :: dropNull xs'
  | None :: xs' => dropNull xs'
  end.

Definition getHeatmapData (st : state) : list Heat.t :=
  dropNull (map (heatOf (locations st)) (latestArr (waterData st))).

(** *** The extended district statistics *)

Module Entry.
(** [{ location, score, status }] *)
Record t : Type := { location : jsstring; score : number; status : string }.
End Entry.

Definition entryOf (r : Ranking.t) : Entry.t :=
  {| Entry.location := Ranking.location r;
     Entry.score := Ranking.waterScore r;
     Entry.status := Ranking.status r |}.

(** [xs.slice(0, 5)] and [xs.slice(-5)] *)
Definition first5 {A : Type} (xs : list A) : list A := firstn 5 xs.
Definition last5 {A : Type} (xs : list A) : list A :=
  skipn (List.length xs - 5) xs.

Record changeTotals : Type := {
  totalWLChange : number;
  totalRFChange : number;
  totalDPChange : number;
  changeCount : nat
}.

(** One round of the loop over the locations. *)
Definition changeStep (waterData : list Observation) (t : changeTotals)
    (loc : Location.t) : changeTotals :=
  let records := getWaterByLocation waterData (Location.name loc) in
  match records, lastOf records with
  | first :: _ :: _, Some last =>
      {| totalWLChange :=
           totalWLChange t + (groundwaterLevel last - groundwaterLevel first);
         totalRFChange := totalRFChange t + (rainfall last - rainfall first);
         totalDPChange :=
           totalDPChange t + (depletionRate last - depletionRate first);
         changeCount := S (changeCount t) |}
  | _, _ => t
  end.

Record trendCounts : Type := { improving : nat; stable : nat; declining : nat }.

Definition trendStep (c : trendCounts) (r : Ranking.t) : trendCounts :=
  if String.eqb (Ranking.trend r) "improving" then
    {| improving := S (improving c); stable := stable c;
       declining := declining c |}
  else if String.eqb (Ranking.trend r) "declining" then
    {| improving := improving c; stable := stable c;
       declining := S (declining c) |}
  else
    {| improving := improving c; stable := S (stable c);
       declining := declining c |}.

Module ChangeRates.
Record t : Type := { waterLevel : number; rainfall : number; depletion : number }.
End ChangeRates.

Module EnhancedStats.
(** [base] holds the properties spread from [getDistrictStats()]: none
    when that is the empty object. *)
Record t : Type := {
  base : option DistrictStats.t;
  best5 : list Entry.t;
  worst5 : list Entry.t;
  districtTrend : string;
  trendDistribution : trendCounts;
  avgChangeRates : option ChangeRates.t
}.
End EnhancedStats.

Definition getEnhancedDistrictStats (st : state) : EnhancedStats.t :=
  let base := getDistrictStats (waterData st) in
  let rankings := getRankings (waterData st) in
  let best5 := map entryOf (first5 rankings) in
  let worst5 := map entryOf (rev (last5 rankings)) in
  let totals :=
    fold_left (changeStep (waterData st)) (locations st)
      {| totalWLChange := Fin 0; totalRFChange := Fin 0;
         totalDPChange := Fin 0; changeCount := O |} in
  let counts :=
    fold_left trendStep rankings
      {| improving := O; stable := O; declining := O |} in
  let districtTrend :=
    if of_nat (declining counts) >? of_nat (improving counts) * Fin 1.5
    then "declining"%string
    else if of_nat (improving counts) >? of_nat (declining counts) * Fin 1.5
    then "improving"%string
    else "stable"%string in
  {| EnhancedStats.base := base;
     EnhancedStats.best5 := best5;
     EnhancedStats.worst5 := worst5;
     EnhancedStats.districtTrend := districtTrend;
     EnhancedStats.trendDistribution := counts;
     EnhancedStats.avgChangeRates :=
       if (0 <? changeCount totals)%nat then
         Some {| ChangeRates.waterLevel :=
                   toFixed 2 (totalWLChange totals / of_nat (changeCount totals));
                 ChangeRates.rainfall :=
                   toFixed 1 (totalRFChange totals / of_nat (changeCount totals));
                 ChangeRates.depletion :=
                   toFixed 2 (totalDPChange totals / of_nat (changeCount totals)) |}
       else None |}.

End Store.

(** ** What the scan for the latest records keeps *)

Module Latest.
Import JS Data DataStore.

(** No key is a name of [Object.prototype], and no record seen so far
    is newer than the entry of its location. *)
Record latest_max (seen : list Observation) (m : object Observation)
  : Prop := {
  keys_own :
    forall k, In k (map fst m) -> ~ In k Object_prototype_names;
  entries_max :
    forall k v, In (k, v) m ->
    forall d, In d seen -> location d = k -> (year d <= year v)%Z
}.

End Latest.

(** ** Stores with one record for a location and year *)

Module Keys.
Import JS Data.

Definition keyOf (d : Observation) : jsstring * Z := (location d, year d).

(** No two records of the store share their location and year. *)
Definition uniqueKeys (waterData : list Observation) : Prop :=
  NoDup (map keyOf waterData).

End Keys.

(** ** The two reports of a year-over-year change *)

Module Changes.
Import JS Data DataStore.

(** The percentages of the summary and of the yearly changes agree
    for a metric whose earlier value is above zero. *)
Definition agreeOn (summary : number) (yearly : Change.t) : Prop :=
  lt (Fin 0) (Change.prev yearly) = true ->
  same summary (Change.changePct yearly).

Definition agree (y : YoY.t) (c : YearlyChange.t) : Prop :=
  YoY.from y = YearlyChange.from c
  /\ YoY.to y = YearlyChange.to c
  /\ agreeOn (YoY.waterLevelChange y) (YearlyChange.waterLevel c)
  /\ agreeOn (YoY.rainfallChange y) (YearlyChange.rainfall c)
  /\ agreeOn (YoY.depletionChange y) (YearlyChange.depletion c).

End Changes.

(** ** What the generator keeps of a record *)

Module Generated.
Import JS Data.

(** The nine numeric properties are finite numbers. *)
Definition allFinite (d : Observation) : Prop :=
  finite (consumption d) /\ finite (perCapitaUsage d)
  /\ finite (agriculturalUsage d) /\ finite (industrialUsage d)
  /\ finite (householdUsage d) /\ finite (rainfall d)
  /\ finite (depletionRate d) /\ finite (ph d)
  /\ finite (groundwaterLevel d).

(** The floors of the generated values, and the range of the pH. *)
Definition withinBounds (r : Observation) : Prop :=
  le (Fin 0.5) (depletionRate r) = true
  /\ le (Fin 400) (rainfall r) = true
  /\ le (Fin 3) (groundwaterLevel r) = true
  /\ le (Fin 100) (consumption r) = true
  /\ le (Fin 6.0) (ph r) = true /\ le (ph r) (Fin 9.0) = true
  /\ le (Fin 50) (agriculturalUsage r) = true
  /\ le (Fin 10) (industrialUsage r) = true
  /\ le (Fin 20) (householdUsage r) = true
  /\ le (Fin 50) (perCapitaUsage r) = true.

(** The records that the generator built itself: those of another year
    than the base row's. *)
Definition synthesized (baseRow : Observation)
    (records : list Observation) : list Observation :=
  filter (fun r => negb (year r =? year baseRow)%Z) records.

(** The records carry, in order, the readings of [clock] from the
    [n]-th on as their [lastUpdated]. *)
Definition stampedBy (clock : nat -> Z) (n : nat)
    (records : list Observation) : Prop :=
  map lastUpdated records
  = map (fun k => Val (clock k)) (seq n (List.length records)).

End Generated.

(** ** Records whose metrics are numbers *)

Module Metrics.
Import JS Data.

(** No scored metric is [NaN]; it may be infinite. *)
Definition numeric (d : Observation) : Prop :=
  groundwaterLevel d <> NaN /\ rainfall d <> NaN
  /\ depletionRate d <> NaN /\ ph d <> NaN.

End Metrics.

(** ** More sample data *)

Module MoreSamples.
Import JS Data Samples.

(** A store of two locations, unordered in time. *)
Definition store : list Observation :=
  [sample "A" 2019 8 900 2 7.2; sample "B" 2018 12 650 6 6.5;
   sample "A" 2017 6 900 2 7.2; sample "A" 2018 7 900 2 7.2;
   sample "B" 2019 13 640 6 8].

(** The store and registry after [store] is uploaded into an empty
    module. *)
Definition registry : Store.state :=
  Store.addWaterData {| Store.waterData := []; Store.locations := [] |}
    store.

(** The forecast of the falling history for one year, with the
    identity in place of the square root. *)
Definition fallingForecast : list WaterScore.Prediction.t :=
  Eval vm_compute in
    match WaterScore.predictFuture (fun q => q) falling (Some (Fin 1)) with
    | Some predictions => predictions
    | None => []
    end.

End MoreSamples.

(** * Properties *)

Unset Implicit Arguments.

(** ** Facts about the runtime *)

Module NumberFacts.
Import JS JS.Notations.
Local Open Scope Q_scope.

Lemma Qlt_bool_iff (a b : Q) : Qlt_bool a b = true <-> a < b.
Proof.
  unfold Qlt_bool. rewrite negb_true_iff. split; intros H.
  - apply Qnot_le_lt. intros Hle. apply Qle_bool_iff in Hle. congruence.
  - destruct (Qle_bool b a) eqn:E; [| reflexivity].
    apply Qle_bool_iff in E. exfalso. exact (Qlt_not_le _ _ H E).
Qed.

Lemma Qlt_bool_false (a b : Q) : Qlt_bool a b = false <-> b <= a.
Proof.
  unfold Qlt_bool. rewrite negb_false_iff. apply Qle_bool_iff.
Qed.

Lemma Qle_bool_false (a b : Q) : Qle_bool a b = false <-> b < a.
Proof.
  rewrite <- Qlt_bool_iff. unfold Qlt_bool.
  destruct (Qle_bool a b); simpl; intuition congruence.
Qed.

#[global] Instance Qlt_bool_comp : Proper (Qeq ==> Qeq ==> eq) Qlt_bool.
Proof. intros a a' Ha b b' Hb. unfold Qlt_bool. now rewrite Ha, Hb. Qed.

#[global] Instance same_equiv : Equivalence same.
Proof.
  split.
  - intros [q | | |]; simpl; auto. reflexivity.
  - intros [p | | |] [q | | |]; simpl; auto. intros H; now symmetry.
  - intros [p | | |] [q | | |] [r | | |]; simpl; auto; try tauto.
    intros H1 H2; now transitivity q.
Qed.

Lemma same_fin (a : number) (q : Q) :
  same a (Fin q) -> exists p, a = Fin p /\ p == q.
Proof. destruct a as [p | | |]; simpl; try tauto. intros H; now exists p. Qed.

Lemma eq_same (a b : number) : a = b -> same a b.
Proof. intros ->. reflexivity. Qed.

#[global] Instance signed_inf_comp : Proper (Qeq ==> eq) signed_inf.
Proof. intros a a' Ha. unfold signed_inf. now rewrite Ha. Qed.

#[global] Instance Fin_comp : Proper (Qeq ==> same) Fin.
Proof. intros a a' Ha. exact Ha. Qed.

#[global] Instance neg_comp : Proper (same ==> same) neg.
Proof.
  intros [p | | |] [q | | |]; simpl; try tauto. intros H; now rewrite H.
Qed.

#[global] Instance add_comp : Proper (same ==> same ==> same) add.
Proof.
  intros [p | | |] [q | | |] H1 [r | | |] [s | | |] H2;
    simpl in *; try tauto. now rewrite H1, H2.
Qed.

#[global] Instance sub_comp : Proper (same ==> same ==> same) sub.
Proof. intros a a' Ha b b' Hb. unfold sub. now rewrite Ha, Hb. Qed.

#[global] Instance mul_comp : Proper (same ==> same ==> same) mul.
Proof.
  intros [p | | |] [q | | |] H1 [r | | |] [s | | |] H2;
    simpl in *; try tauto;
    try (now rewrite H1, H2);
    try (rewrite H1; reflexivity);
    try (rewrite H2; reflexivity).
Qed.

#[global] Instance div_comp : Proper (same ==> same ==> same) div.
Proof.
  intros [p | | |] [q | | |] H1 [r | | |] [s | | |] H2;
    simpl in *; try tauto.
  - rewrite H2. destruct (Qeq_bool s 0) eqn:E.
    + rewrite H1. reflexivity.
    + simpl. now rewrite H1, H2.
  - reflexivity.
  - reflexivity.
  - rewrite H2. now destruct (Qlt_bool s 0).
  - rewrite H2. now destruct (Qlt_bool s 0).
Qed.

#[global] Instance abs_comp : Proper (same ==> same) abs.
Proof.
  intros [p | | |] [q | | |]; simpl; try tauto. intros H; now rewrite H.
Qed.

#[global] Instance lt_comp : Proper (same ==> same ==> eq) lt.
Proof.
  intros [p | | |] [q | | |] H1 [r | | |] [s | | |] H2;
    simpl in *; try tauto. now rewrite H1, H2.
Qed.

#[global] Instance le_comp : Proper (same ==> same ==> eq) le.
Proof.
  intros [p | | |] [q | | |] H1 [r | | |] [s | | |] H2;
    simpl in *; try tauto. now rewrite H1, H2.
Qed.

#[global] Instance Math_max_comp : Proper (same ==> same ==> same) Math_max.
Proof.
  intros [p | | |] [q | | |] H1 [r | | |] [s | | |] H2;
    simpl in *; try tauto.
  rewrite H1, H2. now destruct (Qlt_bool q s).
Qed.

#[global] Instance Math_min_comp : Proper (same ==> same ==> same) Math_min.
Proof.
  intros [p | | |] [q | | |] H1 [r | | |] [s | | |] H2;
    simpl in *; try tauto.
  rewrite H1, H2. now destruct (Qlt_bool s q).
Qed.

#[global] Instance roundTo_comp (k : nat) : Proper (Qeq ==> Qeq) (roundTo k).
Proof.
  intros p q H. unfold roundTo.
  assert (Hs : Qlt_bool p 0 = Qlt_bool q 0) by now rewrite H.
  assert (Hf : Qfloor (Qabs p * pow10 k + (1 # 2))
               = Qfloor (Qabs q * pow10 k + (1 # 2))) by now rewrite H.
  rewrite Hs, Hf. reflexivity.
Qed.

#[global] Instance toFixed_comp (k : nat) : Proper (same ==> same) (toFixed k).
Proof.
  intros [p | | |] [q | | |]; try (simpl; tauto). intros H.
  unfold toFixed. cbn [same] in H. rewrite H.
  destruct (Qle_bool (pow10 21) (Qabs q)); cbn [same]; [exact H |].
  now rewrite H.
Qed.

#[global] Instance Math_round_comp : Proper (same ==> same) Math_round.
Proof.
  intros [p | | |] [q | | |]; try (simpl; tauto). intros H.
  cbn [same] in H. unfold Math_round, of_Z. cbn [same]. now rewrite H.
Qed.

(** *** Rounding to a fixed number of digits *)

Lemma pow10_pos (k : nat) : 0 < pow10 k.
Proof.
  unfold pow10. change 0 with (inject_Z 0). rewrite <- Zlt_Qlt.
  apply Z.pow_pos_nonneg; lia.
Qed.

Lemma Qfloor_unique (x : Q) (n : Z) :
  inject_Z n <= x -> x < inject_Z (n + 1) -> Qfloor x = n.
Proof.
  intros H1 H2.
  pose proof (Qfloor_le x) as F1. pose proof (Qlt_floor x) as F2.
  assert (A : (Qfloor x < n + 1)%Z).
  { rewrite Zlt_Qlt. eapply Qle_lt_trans; eassumption. }
  assert (B : (n < Qfloor x + 1)%Z).
  { rewrite Zlt_Qlt. eapply Qle_lt_trans; eassumption. }
  lia.
Qed.

Lemma Qfloor_half (n : Z) : Qfloor (inject_Z n + (1 # 2)) = n.
Proof.
  apply Qfloor_unique.
  - lra.
  - rewrite inject_Z_plus. change (inject_Z 1) with 1. lra.
Qed.

(** Rounding once more changes nothing. *)
Lemma roundTo_idem (k : nat) (q : Q) : roundTo k (roundTo k q) == roundTo k q.
Proof.
  pose proof (pow10_pos k) as HP.
  assert (Hn : (0 <= Qfloor (Qabs q * pow10 k + (1 # 2)))%Z).
  { change 0%Z with (Qfloor 0). apply Qfloor_resp_le.
    pose proof (Qabs_nonneg q).
    assert (0 <= Qabs q * pow10 k) by (apply Qmult_le_0_compat; lra). lra. }
  set (n := Qfloor (Qabs q * pow10 k + (1 # 2))) in *.
  set (m := inject_Z n / pow10 k).
  assert (Hm : 0 <= m).
  { unfold m. apply Qle_shift_div_l; [exact HP |].
    rewrite Qmult_0_l. change 0 with (inject_Z 0). now rewrite <- Zle_Qle. }
  assert (HmP : m * pow10 k == inject_Z n).
  { unfold m. field. lra. }
  assert (Hround : forall r, Qabs r == m ->
             inject_Z (Qfloor (Qabs r * pow10 k + (1 # 2))) / pow10 k == m).
  { intros r Hr. rewrite Hr, HmP, Qfloor_half. reflexivity. }
  assert (Hq : roundTo k q = if Qlt_bool q 0 then - m else m) by reflexivity.
  rewrite Hq. destruct (Qlt_bool q 0).
  - assert (Ha : Qabs (- m) == m) by (rewrite Qabs_opp; now apply Qabs_pos).
    unfold roundTo. destruct (Qlt_bool (- m) 0) eqn:E; rewrite (Hround _ Ha).
    + reflexivity.
    + apply Qlt_bool_false in E. lra.
  - assert (Ha : Qabs m == m) by now apply Qabs_pos.
    unfold roundTo. destruct (Qlt_bool m 0) eqn:E; rewrite (Hround _ Ha).
    + apply Qlt_bool_iff in E. lra.
    + reflexivity.
Qed.

Lemma toFixed_idem (k : nat) (a : number) :
  same (toFixed k (toFixed k a)) (toFixed k a).
Proof.
  destruct a as [q | | |]; try reflexivity.
  assert (H : toFixed k (Fin q)
              = if Qle_bool (pow10 21) (Qabs q) then Fin q
                else Fin (roundTo k q)) by reflexivity.
  rewrite H. destruct (Qle_bool (pow10 21) (Qabs q)) eqn:E.
  - unfold toFixed. rewrite E. reflexivity.
  - unfold toFixed.
    destruct (Qle_bool (pow10 21) (Qabs (roundTo k q))); [reflexivity |].
    apply roundTo_idem.
Qed.

Lemma toFixed_fin (k : nat) (q : Q) : exists w, toFixed k (Fin q) = Fin w.
Proof.
  unfold toFixed. destruct (Qle_bool (pow10 21) (Qabs q)); eexists; reflexivity.
Qed.

End NumberFacts.

(** ** The water score *)

Module ScoreFacts.
Import JS JS.Notations Data WaterScore NumberFacts.
Local Open Scope Q_scope.

Ltac qbool :=
  repeat match goal with
    | H : Qlt_bool _ _ = true |- _ => apply Qlt_bool_iff in H
    | H : Qlt_bool _ _ = false |- _ => apply Qlt_bool_false in H
    | H : Qle_bool _ _ = true |- _ => apply Qle_bool_iff in H
    | H : Qle_bool _ _ = false |- _ => apply Qle_bool_false in H
    | H : Qeq_bool _ _ = true |- _ => apply Qeq_bool_iff in H
    | H : Qeq_bool _ _ = false |- _ => apply Qeq_bool_neq in H
    end.

(** Clamping: [Math.max(lo, Math.min(hi, v))]. *)
Lemma clamp_Fin (lo hi q : Q) :
  lo <= hi ->
  exists c, Math_max (Fin lo) (Math_min (Fin hi) (Fin q)) = Fin c
            /\ lo <= c <= hi
            /\ (q <= lo -> c == lo) /\ (hi <= q -> c == hi)
            /\ (lo <= q <= hi -> c == q).
Proof.
  intros Hlh. cbn.
  destruct (Qlt_bool q hi) eqn:E1; cbn.
  - destruct (Qlt_bool lo q) eqn:E2; qbool;
      eexists; (split; [reflexivity |]); repeat split; intros; lra.
  - destruct (Qlt_bool lo hi) eqn:E2; qbool;
      eexists; (split; [reflexivity |]); repeat split; intros; lra.
Qed.

Lemma clamp_PInf (lo hi : Q) :
  lo <= hi ->
  exists c, Math_max (Fin lo) (Math_min (Fin hi) PInf) = Fin c /\ c == hi.
Proof.
  intros Hlh. cbn.
  destruct (Qlt_bool lo hi) eqn:E; qbool;
    eexists; (split; [reflexivity |]); lra.
Qed.

Lemma clamp_NInf (lo hi : Q) :
  Math_max (Fin lo) (Math_min (Fin hi) NInf) = Fin lo.
Proof. reflexivity. Qed.

Lemma clamp_cases (lo hi : Q) (v : number) :
  lo <= hi ->
  (v = NaN /\ Math_max (Fin lo) (Math_min (Fin hi) v) = NaN)
  \/ (v <> NaN /\
      exists c, Math_max (Fin lo) (Math_min (Fin hi) v) = Fin c
                /\ lo <= c <= hi).
Proof.
  intros Hlh. destruct v as [q | | |].
  - right. split; [discriminate |].
    destruct (clamp_Fin lo hi q Hlh) as (c & E & B & _). now exists c.
  - right. split; [discriminate |].
    destruct (clamp_PInf lo hi Hlh) as (c & E & B). exists c. split; [exact E | lra].
  - right. split; [discriminate |]. rewrite clamp_NInf.
    exists lo. split; [reflexivity | lra].
  - left. split; reflexivity.
Qed.

Lemma clamp_mono (lo hi : Q) (v1 v2 : number) :
  lo <= hi -> le v1 v2 = true ->
  exists c1 c2,
    Math_max (Fin lo) (Math_min (Fin hi) v1) = Fin c1
    /\ Math_max (Fin lo) (Math_min (Fin hi) v2) = Fin c2
    /\ lo <= c1 /\ c1 <= c2 /\ c2 <= hi.
Proof.
  intros Hlh Hle.
  destruct v1 as [p | | |], v2 as [q | | |]; try discriminate.
  - cbn [le] in Hle. qbool.
    destruct (clamp_Fin lo hi p Hlh) as (c1 & E1 & B1 & L1 & H1 & M1).
    destruct (clamp_Fin lo hi q Hlh) as (c2 & E2 & B2 & L2 & H2 & M2).
    exists c1, c2. split; [exact E1 |]. split; [exact E2 |].
    split; [tauto |]. split; [| tauto].
    destruct (Qlt_le_dec p lo), (Qlt_le_dec hi p),
      (Qlt_le_dec q lo), (Qlt_le_dec hi q);
      try (rewrite L1 by lra); try (rewrite H1 by lra);
      try (rewrite M1 by lra);
      try (rewrite L2 by lra); try (rewrite H2 by lra);
      try (rewrite M2 by lra); lra.
  - destruct (clamp_Fin lo hi p Hlh) as (c1 & E1 & B1 & _).
    destruct (clamp_PInf lo hi Hlh) as (c2 & E2 & B2).
    exists c1, c2. split; [exact E1 |]. split; [exact E2 |]. lra.
  - destruct (clamp_PInf lo hi Hlh) as (c2 & E2 & B2).
    exists c2, c2. split; [exact E2 |]. split; [exact E2 |]. lra.
  - destruct (clamp_Fin lo hi q Hlh) as (c2 & E2 & B2 & _).
    exists lo, c2. split; [apply clamp_NInf |]. split; [exact E2 |]. lra.
  - destruct (clamp_PInf lo hi Hlh) as (c2 & E2 & B2).
    exists lo, c2. split; [apply clamp_NInf |]. split; [exact E2 |]. lra.
  - exists lo, lo. split; [apply clamp_NInf |].
    split; [apply clamp_NInf |]. lra.
Qed.

Lemma rescale_fin (lo hi c : Q) :
  lo < hi ->
  ((Fin c - Fin lo) / (Fin hi - Fin lo) * Fin 100)%num
  = Fin ((c + - lo) / (hi + - lo) * 100).
Proof.
  intros Hlh. cbn.
  destruct (Qeq_bool (hi + - lo) 0) eqn:E; [| reflexivity].
  apply Qeq_bool_iff in E. lra.
Qed.

Lemma rescale_bounds (lo hi c : Q) :
  lo < hi -> lo <= c <= hi ->
  0 <= (c + - lo) / (hi + - lo) * 100 <= 100.
Proof.
  intros Hlh [H1 H2].
  assert (Hd : 0 < hi + - lo) by lra.
  assert (H0 : 0 <= (c + - lo) / (hi + - lo)).
  { apply Qle_shift_div_l; [exact Hd | lra]. }
  assert (H1' : (c + - lo) / (hi + - lo) <= 1).
  { apply Qle_shift_div_r; [exact Hd | lra]. }
  lra.
Qed.

Lemma rescale_mono (lo hi c1 c2 : Q) :
  lo < hi -> c1 <= c2 ->
  (c1 + - lo) / (hi + - lo) * 100 <= (c2 + - lo) / (hi + - lo) * 100.
Proof.
  intros Hlh H.
  assert (Hd : 0 < hi + - lo) by lra.
  assert (Hi : 0 <= / (hi + - lo)) by (apply Qinv_le_0_compat; lra).
  unfold Qdiv.
  assert ((c1 + - lo) * / (hi + - lo) <= (c2 + - lo) * / (hi + - lo)).
  { apply Qmult_le_compat_r; [lra | exact Hi]. }
  lra.
Qed.

(** [normalize] on bounds [lo < hi]: [NaN] for [NaN], otherwise a finite
    number of [[0, 100]]. *)
Lemma normalize_cases (v : number) (lo hi : Q) (invert : bool) :
  lo < hi ->
  (v = NaN /\ normalize v (Fin lo) (Fin hi) invert = NaN)
  \/ (v <> NaN /\
      exists q, normalize v (Fin lo) (Fin hi) invert = Fin q
                /\ 0 <= q <= 100).
Proof.
  intros Hlh. unfold normalize.
  destruct (clamp_cases lo hi v (Qlt_le_weak _ _ Hlh))
    as [[-> E] | [Hv (c & E & B)]].
  - left. split; [reflexivity |]. rewrite E. now destruct invert.
  - right. split; [exact Hv |]. rewrite E, rescale_fin by exact Hlh.
    pose proof (rescale_bounds lo hi c Hlh B) as Hb.
    destruct invert; eexists; (split; [reflexivity |]); cbn; lra.
Qed.

Lemma normalize_mono (v1 v2 : number) (lo hi : Q) :
  lo < hi -> le v1 v2 = true ->
  exists q1 q2,
    normalize v1 (Fin lo) (Fin hi) false = Fin q1
    /\ normalize v2 (Fin lo) (Fin hi) false = Fin q2
    /\ 0 <= q1 /\ q1 <= q2 /\ q2 <= 100.
Proof.
  intros Hlh Hle. unfold normalize.
  destruct (clamp_mono lo hi v1 v2 (Qlt_le_weak _ _ Hlh) Hle)
    as (c1 & c2 & E1 & E2 & B1 & B12 & B2).
  rewrite E1, E2, !rescale_fin by exact Hlh.
  do 2 eexists. split; [reflexivity |]. split; [reflexivity |].
  assert (Hb1 : lo <= c1 <= hi) by lra.
  assert (Hb2 : lo <= c2 <= hi) by lra.
  pose proof (rescale_bounds lo hi c1 Hlh Hb1). pose proof (rescale_bounds lo hi c2 Hlh Hb2).
  pose proof (rescale_mono lo hi c1 c2 Hlh B12). lra.
Qed.

Lemma normalize_antimono (v1 v2 : number) (lo hi : Q) :
  lo < hi -> le v1 v2 = true ->
  exists q1 q2,
    normalize v1 (Fin lo) (Fin hi) true = Fin q1
    /\ normalize v2 (Fin lo) (Fin hi) true = Fin q2
    /\ 0 <= q2 /\ q2 <= q1 /\ q1 <= 100.
Proof.
  intros Hlh Hle. unfold normalize.
  destruct (clamp_mono lo hi v1 v2 (Qlt_le_weak _ _ Hlh) Hle)
    as (c1 & c2 & E1 & E2 & B1 & B12 & B2).
  rewrite E1, E2, !rescale_fin by exact Hlh.
  do 2 eexists. split; [reflexivity |]. split; [reflexivity |].
  assert (Hb1 : lo <= c1 <= hi) by lra.
  assert (Hb2 : lo <= c2 <= hi) by lra.
  pose proof (rescale_bounds lo hi c1 Hlh Hb1). pose proof (rescale_bounds lo hi c2 Hlh Hb2).
  pose proof (rescale_mono lo hi c1 c2 Hlh B12). cbn. lra.
Qed.

Lemma round_bounds (c : Q) :
  0 <= c <= 100 -> (0 <= Qfloor (c + (1 # 2)) <= 100)%Z.
Proof.
  intros [H0 H1]. split.
  - change 0%Z with (Qfloor (0 + (1 # 2))). apply Qfloor_resp_le. lra.
  - change 100%Z with (Qfloor (100 + (1 # 2))). apply Qfloor_resp_le. lra.
Qed.

(** The last step of the score: clamp to [[0, 100]], then round. *)
Lemma finish_fin (s : Q) :
  exists z,
    Math_round (Math_max (Fin 0) (Math_min (Fin 100) (Fin s))) = of_Z z
    /\ (0 <= z <= 100)%Z.
Proof.
  destruct (clamp_Fin 0 100 s) as (c & E & B & _); [lra |].
  rewrite E. exists (Qfloor (c + (1 # 2))).
  split; [reflexivity | now apply round_bounds].
Qed.

Lemma finish_mono (s1 s2 : Q) :
  s1 <= s2 ->
  lt (Math_round (Math_max (Fin 0) (Math_min (Fin 100) (Fin s2))))
     (Math_round (Math_max (Fin 0) (Math_min (Fin 100) (Fin s1))))
  = false.
Proof.
  intros H.
  destruct (clamp_mono 0 100 (Fin s1) (Fin s2)) as (c1 & c2 & E1 & E2 & B);
    [lra | now apply Qle_bool_iff |].
  rewrite E1, E2. unfold Math_round, of_Z. cbn [lt]. apply Qlt_bool_false.
  rewrite <- Zle_Qle. apply Qfloor_resp_le. lra.
Qed.

(** The score is [NaN] as soon as one component is. *)
Lemma finish_NaN :
  Math_round (Math_max (Fin 0) (Math_min (Fin 100) NaN)) = NaN.
Proof. reflexivity. Qed.

Ltac score_components d :=
  unfold calculateWaterScore, THRESHOLDS.waterLevel_min,
    THRESHOLDS.waterLevel_max, THRESHOLDS.rainfall_min,
    THRESHOLDS.rainfall_max, THRESHOLDS.depletion_min,
    THRESHOLDS.depletion_max, THRESHOLDS.ph_ideal, THRESHOLDS.ph_range.

Lemma score_integer (d : Observation) :
  well_formed d ->
  exists z, calculateWaterScore d = of_Z z /\ (0 <= z <= 100)%Z.
Proof.
  intros (Hg & Hr & Hd & Hp). score_components d.
  destruct (normalize_cases (groundwaterLevel d) 4 20 true)
    as [[E _] | [_ (q1 & E1 & _)]];
    [reflexivity | rewrite E in Hg; contradiction |].
  destruct (normalize_cases (rainfall d) 500 1500 false)
    as [[E _] | [_ (q2 & E2 & _)]];
    [reflexivity | rewrite E in Hr; contradiction |].
  destruct (normalize_cases (depletionRate d) 0 10 true)
    as [[E _] | [_ (q3 & E3 & _)]];
    [reflexivity | rewrite E in Hd; contradiction |].
  destruct (normalize_cases (Math_abs (ph d - Fin 7.0)%num) 0 1.5 true)
    as [[E _] | [_ (q4 & E4 & _)]];
    [reflexivity | destruct (ph d); try contradiction; discriminate |].
  rewrite E1, E2, E3, E4. cbn [add mul]. apply finish_fin.
Qed.

Lemma score_rainfall_mono (d : Observation) (r1 r2 : number) :
  le r1 r2 = true ->
  lt (calculateWaterScore (withRainfall d r2))
     (calculateWaterScore (withRainfall d r1)) = false.
Proof.
  intros Hle. score_components d. cbn [withRainfall groundwaterLevel rainfall depletionRate ph].
  destruct (normalize_mono r1 r2 500 1500) as (a1 & a2 & A1 & A2 & A);
    [reflexivity | exact Hle |].
  rewrite A1, A2.
  destruct (normalize_cases (groundwaterLevel d) 4 20 true)
    as [[_ E1] | [_ (q1 & E1 & _)]]; [reflexivity | |]; rewrite E1;
    [reflexivity |].
  destruct (normalize_cases (depletionRate d) 0 10 true)
    as [[_ E3] | [_ (q3 & E3 & _)]]; [reflexivity | |]; rewrite E3;
    [reflexivity |].
  destruct (normalize_cases (Math_abs (ph d - Fin 7.0)%num) 0 1.5 true)
    as [[_ E4] | [_ (q4 & E4 & _)]]; [reflexivity | |]; rewrite E4;
    [reflexivity |].
  cbn [add mul]. apply finish_mono. lra.
Qed.

Lemma score_depletion_antimono (d : Observation) (r1 r2 : number) :
  le r1 r2 = true ->
  lt (calculateWaterScore (withDepletionRate d r1))
     (calculateWaterScore (withDepletionRate d r2)) = false.
Proof.
  intros Hle. score_components d. cbn [withDepletionRate groundwaterLevel rainfall depletionRate ph].
  destruct (normalize_antimono r1 r2 0 10) as (a1 & a2 & A1 & A2 & A);
    [reflexivity | exact Hle |].
  rewrite A1, A2.
  destruct (normalize_cases (groundwaterLevel d) 4 20 true)
    as [[_ E1] | [_ (q1 & E1 & _)]]; [reflexivity | |]; rewrite E1;
    [reflexivity |].
  destruct (normalize_cases (rainfall d) 500 1500 false)
    as [[_ E2] | [_ (q2 & E2 & _)]]; [reflexivity | |]; rewrite E2;
    [reflexivity |].
  destruct (normalize_cases (Math_abs (ph d - Fin 7.0)%num) 0 1.5 true)
    as [[_ E4] | [_ (q4 & E4 & _)]]; [reflexivity | |]; rewrite E4;
    [reflexivity |].
  cbn [add mul]. apply finish_mono. lra.
Qed.

End ScoreFacts.

(** ** Strings, sorting and objects *)

Module RuntimeFacts.
Import JS JS.Notations NumberFacts.

Lemma str_eqb_eq (a b : jsstring) : str_eqb a b = true <-> a = b.
Proof.
  revert b. induction a as [| x a IH]; intros [| y b]; simpl;
    try (split; [discriminate | discriminate]); try tauto.
  rewrite andb_true_iff, N.eqb_eq, IH. split.
  - intros [-> ->]. reflexivity.
  - intros H. injection H as -> ->. split; reflexivity.
Qed.

Lemma str_eqb_refl (a : jsstring) : str_eqb a a = true.
Proof. now apply str_eqb_eq. Qed.

Lemma str_eqb_neq (a b : jsstring) : str_eqb a b = false <-> a <> b.
Proof.
  rewrite <- str_eqb_eq. destruct (str_eqb a b); intuition congruence.
Qed.

Lemma existsb_str_eqb (k : jsstring) (l : list jsstring) :
  existsb (str_eqb k) l = true <-> In k l.
Proof.
  rewrite existsb_exists. split.
  - intros (x & Hx & E). apply str_eqb_eq in E. now subst.
  - intros H. exists k. split; [exact H | apply str_eqb_refl].
Qed.

(** *** The stable sort *)

Section SortFacts.
Context {A : Type} (cmp : A -> A -> number).

Lemma insert_perm (x : A) (l : list A) :
  Permutation (x :: l) (insert cmp x l).
Proof.
  induction l as [| y l IH]; cbn [insert sort]; [reflexivity |].
  destruct (gt (cmp x y) (Fin 0)); [| reflexivity].
  rewrite perm_swap. now apply perm_skip.
Qed.

Lemma sort_perm (l : list A) : Permutation l (sort cmp l).
Proof.
  induction l as [| x l IH]; cbn [insert sort]; [reflexivity |].
  rewrite <- insert_perm. now apply perm_skip.
Qed.

Lemma sort_length (l : list A) : List.length (sort cmp l) = List.length l.
Proof. symmetry. apply Permutation_length, sort_perm. Qed.

(** [a] may stay before [b]. *)
Let keeps (a b : A) : Prop := gt (cmp a b) (Fin 0) = false.

Hypothesis total : forall a b, gt (cmp a b) (Fin 0) = true -> keeps b a.

Lemma insert_sorted (x : A) (l : list A) :
  Sorted keeps l -> Sorted keeps (insert cmp x l).
Proof.
  induction 1 as [| y l Hs IH Hd]; cbn [insert sort].
  - repeat constructor.
  - destruct (gt (cmp x y) (Fin 0)) eqn:E.
    + constructor; [exact IH |].
      destruct l as [| z l]; cbn [insert sort].
      * constructor. now apply total.
      * destruct (gt (cmp x z) (Fin 0)); constructor.
        -- now inversion Hd.
        -- now apply total.
    + constructor; [now constructor | constructor; exact E].
Qed.

Lemma sort_sorted (l : list A) : Sorted keeps (sort cmp l).
Proof.
  induction l as [| x l IH]; cbn [insert sort]; [constructor |].
  now apply insert_sorted.
Qed.

(** A list that is already in order is left as it is. *)
Lemma insert_head (x : A) (l : list A) :
  HdRel keeps x l -> insert cmp x l = x :: l.
Proof.
  intros H. destruct l as [| y l]; cbn [insert sort]; [reflexivity |].
  inversion H as [| ? ? E]; subst. unfold keeps in E. now rewrite E.
Qed.

Lemma sort_id (l : list A) : Sorted keeps l -> sort cmp l = l.
Proof.
  induction 1 as [| x l Hs IH Hd]; cbn [insert sort]; [reflexivity |].
  rewrite IH. now apply insert_head.
Qed.
End SortFacts.

(** *** Objects *)

Section ObjectFacts.
Context {V : Type}.
Implicit Types (m : object V) (k : jsstring) (v : V).

Lemma own_In m k v : own m k = Some v -> In (k, v) m.
Proof.
  induction m as [| [k' v'] m IH]; simpl; [discriminate |].
  destruct (str_eqb k' k) eqn:E.
  - apply str_eqb_eq in E. intros H. injection H as ->. subst. now left.
  - intros H. right. now apply IH.
Qed.

Lemma own_None m k : own m k = None <-> ~ In k (map fst m).
Proof.
  induction m as [| [k' v'] m IH]; simpl; [tauto |].
  destruct (str_eqb k' k) eqn:E.
  - apply str_eqb_eq in E. subst. split; [discriminate | tauto].
  - apply str_eqb_neq in E. rewrite IH. tauto.
Qed.

Lemma set_keys_new m k v :
  ~ In k (map fst m) -> map fst (set m k v) = map fst m ++ [k].
Proof.
  induction m as [| [k' v'] m IH]; simpl; [reflexivity |].
  intros H. destruct (str_eqb k' k) eqn:E.
  - apply str_eqb_eq in E. tauto.
  - simpl. rewrite IH by tauto. reflexivity.
Qed.

Lemma set_keys_old m k v :
  In k (map fst m) -> map fst (set m k v) = map fst m.
Proof.
  induction m as [| [k' v'] m IH]; simpl; [tauto |].
  intros H. destruct (str_eqb k' k) eqn:E; simpl; [reflexivity |].
  apply str_eqb_neq in E. rewrite IH; [reflexivity | tauto].
Qed.

Lemma set_In m k v k' v' :
  In (k', v') (set m k v) -> (k' = k /\ v' = v) \/ In (k', v') m.
Proof.
  induction m as [| [k0 v0] m IH]; simpl.
  - intros [H | []]. injection H as <- <-. now left.
  - destruct (str_eqb k0 k) eqn:E; simpl.
    + apply str_eqb_eq in E. subst. intros [H | H].
      * injection H as <- <-. now left.
      * right. now right.
    + intros [H | H]; [right; now left |].
      destruct (IH H) as [? | ?]; [now left | right; now right].
Qed.

Lemma own_entries_perm m : Permutation (own_entries m) m.
Proof.
  unfold own_entries. rewrite <- sort_perm.
  induction m as [| e m IH]; simpl; [reflexivity |].
  destruct (is_index e); simpl.
  - now apply perm_skip.
  - rewrite <- Permutation_middle. now apply perm_skip.
Qed.

Lemma Object_values_perm m : Permutation (Object_values m) (map snd m).
Proof. unfold Object_values. apply Permutation_map, own_entries_perm. Qed.
End ObjectFacts.

End RuntimeFacts.

(** ** The data store *)

Module StoreFacts.
Import JS JS.Notations Data DataStore NumberFacts RuntimeFacts.

(** *** District statistics *)

Lemma tallyStep_counts (t : tally) (d : Observation) :
  (critical (tallyStep t d) + warning (tallyStep t d) + safe (tallyStep t d)
   = S (critical t + warning t + safe t))%nat.
Proof.
  unfold tallyStep. cbn [critical warning safe].
  destruct (str_eqb (scarcityLevel d) (js "Severe")
            || str_eqb (scarcityLevel d) (js "Extreme"));
    [lia |].
  destruct (str_eqb (scarcityLevel d) (js "High")); lia.
Qed.

Lemma tally_counts (arr : list Observation) (t : tally) :
  let t' := fold_left tallyStep arr t in
  (critical t' + warning t' + safe t'
   = critical t + warning t + safe t + List.length arr)%nat.
Proof.
  revert t. induction arr as [| d arr IH]; intros t; cbn [fold_left List.length].
  - cbn zeta. lia.
  - cbn zeta in *. rewrite IH, tallyStep_counts. lia.
Qed.

(** *** The latest record of every location *)

Lemma get_Own (m : object Observation) (k : jsstring) (v : Observation) :
  get m k = Own v -> own m k = Some v.
Proof.
  unfold get. destruct (own m k); [congruence |].
  destruct (existsb (str_eqb k) Object_prototype_names); discriminate.
Qed.

Lemma get_Inherited (m : object Observation) (k : jsstring) :
  get m k = Inherited ->
  own m k = None /\ In k Object_prototype_names.
Proof.
  unfold get. destruct (own m k); [discriminate |].
  destruct (existsb (str_eqb k) Object_prototype_names) eqn:E;
    [| discriminate].
  intros _. split; [reflexivity | now apply existsb_str_eqb].
Qed.

Lemma get_Undefined (m : object Observation) (k : jsstring) :
  get m k = Undefined ->
  own m k = None /\ ~ In k Object_prototype_names.
Proof.
  unfold get. destruct (own m k); [discriminate |].
  destruct (existsb (str_eqb k) Object_prototype_names) eqn:E;
    [discriminate |].
  intros _. split; [reflexivity |].
  rewrite <- existsb_str_eqb. congruence.
Qed.

Lemma latest_inv_nil : latest_inv [] [].
Proof.
  split; simpl; [constructor | tauto | tauto].
Qed.

Lemma latestStep_inv (seen : list Observation) (m : object Observation)
    (d : Observation) :
  latest_inv seen m -> latest_inv (seen ++ [d]) (latestStep m d).
Proof.
  intros [Hn Hs Hc]. unfold latestStep.
  assert (Hseen : forall v, In v seen -> In v (seen ++ [d]))
    by (intros; apply in_or_app; now left).
  assert (Hd : In d (seen ++ [d]))
    by (apply in_or_app; right; now left).
  destruct (get m (location d)) as [cur | |] eqn:G.
  - apply get_Own, own_In in G.
    assert (Hk : In (location d) (map fst m))
      by (change (location d) with (fst (location d, cur)); now apply (in_map fst)).
    destruct (year d >? year cur)%Z.
    + split.
      * now rewrite set_keys_old.
      * intros k v H. apply set_In in H. destruct H as [[-> ->] | H].
        -- now split.
        -- destruct (Hs k v H). split; auto.
      * intros d' H' Hp. rewrite set_keys_old by exact Hk.
        apply in_app_or in H'. destruct H' as [H' | [<- | []]]; auto.
    + split; [exact Hn | |].
      * intros k v H. destruct (Hs k v H). split; auto.
      * intros d' H' Hp.
        apply in_app_or in H'. destruct H' as [H' | [<- | []]]; auto.
  - apply get_Inherited in G. destruct G as [_ G].
    split; [exact Hn | |].
    + intros k v H. destruct (Hs k v H). split; auto.
    + intros d' H' Hp.
      apply in_app_or in H'. destruct H' as [H' | [<- | []]]; auto.
      contradiction.
  - apply get_Undefined in G. destruct G as [G _].
    apply own_None in G. split.
    + rewrite set_keys_new by exact G.
      apply NoDup_app; [exact Hn | repeat constructor; simpl; tauto |].
      intros k H1 [<- | []]. contradiction.
    + intros k v H. apply set_In in H. destruct H as [[-> ->] | H].
      * now split.
      * destruct (Hs k v H). split; auto.
    + intros d' H' Hp. rewrite set_keys_new by exact G.
      apply in_or_app.
      apply in_app_or in H'. destruct H' as [H' | [<- | []]].
      * left. auto.
      * right. now left.
Qed.

Lemma fold_latest_inv (rest seen : list Observation)
    (m : object Observation) :
  latest_inv seen m ->
  latest_inv (seen ++ rest) (fold_left latestStep rest m).
Proof.
  revert seen m. induction rest as [| d rest IH]; intros seen m H; simpl.
  - now rewrite app_nil_r.
  - replace (seen ++ d :: rest) with ((seen ++ [d]) ++ rest)
      by (rewrite <- app_assoc; reflexivity).
    apply IH. now apply latestStep_inv.
Qed.

Lemma latestMap_inv (waterData : list Observation) :
  latest_inv waterData (latestMap waterData).
Proof.
  unfold latestMap.
  apply (fold_latest_inv waterData [] []). apply latest_inv_nil.
Qed.

Lemma latestArr_In (waterData : list Observation) (d : Observation) :
  In d (latestArr waterData) -> In d waterData.
Proof.
  unfold latestArr. intros H.
  apply (Permutation_in _ (Object_values_perm _)) in H.
  apply in_map_iff in H. destruct H as ([k v] & <- & H).
  now apply (entries_sound (latestMap_inv waterData)) in H.
Qed.

Lemma entries_locations (seen : list Observation) (m : object Observation) :
  (forall k v, In (k, v) m -> In v seen /\ location v = k) ->
  map location (map snd m) = map fst m.
Proof.
  induction m as [| [k v] m IH]; intros H; simpl; [reflexivity |].
  rewrite IH by (intros k' v' H'; apply H; now right).
  destruct (H k v) as [_ ->]; [now left | reflexivity].
Qed.

(** With no location named like a member of [Object.prototype], the
    latest records carry every location of the store exactly once. *)
Lemma latestArr_locations (waterData : list Observation) :
  (forall d, In d waterData ->
             ~ In (location d) Object_prototype_names) ->
  Permutation (map location (latestArr waterData))
    (nodup (list_eq_dec N.eq_dec) (map location waterData)).
Proof.
  intros Hp. pose proof (latestMap_inv waterData) as [Hn Hs Hc].
  unfold latestArr. rewrite Object_values_perm.
  rewrite (entries_locations waterData _ Hs).
  apply NoDup_Permutation; [exact Hn | apply NoDup_nodup |].
  intros k. rewrite nodup_In. split.
  - intros H. apply in_map_iff in H. destruct H as ([k' v] & <- & H).
    destruct (Hs k' v H) as [Hv <-]. now apply (in_map location).
  - intros H. apply in_map_iff in H. destruct H as (d & <- & H).
    apply Hc; auto.
Qed.

End StoreFacts.

(** ** Rankings *)

Module RankingFacts.
Import JS JS.Notations Data DataStore NumberFacts RuntimeFacts StoreFacts.
Local Open Scope Q_scope.

Lemma sub_gt_antisym (a b : number) :
  gt (sub b a) (Fin 0) = true -> gt (sub a b) (Fin 0) = false.
Proof.
  destruct a as [p | | |], b as [q | | |]; cbn; try discriminate;
    try reflexivity.
  intros H. apply Qlt_bool_iff in H. apply Qlt_bool_false. lra.
Qed.

Lemma keeps_ge (sa sb : Q) :
  gt (sub (Fin sb) (Fin sa)) (Fin 0) = false ->
  ge (Fin sa) (Fin sb) = true.
Proof.
  cbn. intros H. apply Qlt_bool_false in H. apply Qle_bool_iff. lra.
Qed.

Lemma ge_trans (a b c : number) :
  ge a b = true -> ge b c = true -> ge a c = true.
Proof.
  destruct a as [p | | |], b as [q | | |], c as [r | | |]; cbn;
    try discriminate; try reflexivity.
  intros H1 H2. apply Qle_bool_iff in H1, H2. apply Qle_bool_iff. lra.
Qed.

Lemma Sorted_map_impl {A B : Type} (f : A -> B) (R : A -> A -> Prop)
    (R' : B -> B -> Prop) (P : A -> Prop) (l : list A) :
  Forall P l ->
  (forall a b, P a -> P b -> R a b -> R' (f a) (f b)) ->
  Sorted R l -> Sorted R' (map f l).
Proof.
  intros HP Himp HS. induction HS as [| x l HS IH Hd]; simpl.
  - constructor.
  - inversion HP as [| ? ? Px Pl]; subst.
    constructor; [now apply IH |].
    destruct Hd as [| y l Hxy]; simpl; constructor.
    inversion Pl; subst. now apply Himp.
Qed.

Lemma assignRanks_scores (i : nat) (l : list Ranking.t) :
  map Ranking.waterScore (assignRanks i l) = map Ranking.waterScore l.
Proof.
  revert i. induction l as [| x l IH]; intros i; simpl; [reflexivity |].
  now rewrite IH.
Qed.

Lemma assignRanks_locations (i : nat) (l : list Ranking.t) :
  map Ranking.location (assignRanks i l) = map Ranking.location l.
Proof.
  revert i. induction l as [| x l IH]; intros i; simpl; [reflexivity |].
  now rewrite IH.
Qed.

Lemma assignRanks_length (i : nat) (l : list Ranking.t) :
  List.length (assignRanks i l) = List.length l.
Proof.
  revert i. induction l as [| x l IH]; intros i; simpl; [reflexivity |].
  now rewrite IH.
Qed.

Lemma assignRanks_ranks (i : nat) (l : list Ranking.t) :
  map Ranking.rank (assignRanks i l)
  = map Some (seq (i + 1) (List.length l)).
Proof.
  revert i. induction l as [| x l IH]; intros i; simpl; [reflexivity |].
  rewrite IH. now replace (S i + 1)%nat with (S (i + 1)) by lia.
Qed.

Lemma rankingOf_locations (waterData arr : list Observation) :
  map Ranking.location (map (rankingOf waterData) arr) = map location arr.
Proof. rewrite map_map. reflexivity. Qed.

(** The scores of the sorted array never increase, when every score is
    a finite number. *)
Lemma sort_scores_descending (ranked : list Ranking.t) :
  Forall (fun r => finite (Ranking.waterScore r)) ranked ->
  StronglySorted (fun x y => ge x y = true)
    (map Ranking.waterScore (sort by_score_desc ranked)).
Proof.
  intros Hfin. apply Sorted_StronglySorted.
  { intros a b c. apply ge_trans. }
  apply Sorted_map_impl
    with (R := fun a b => gt (by_score_desc a b) (Fin 0) = false)
         (P := fun r => finite (Ranking.waterScore r)).
  - apply (Permutation_Forall (sort_perm by_score_desc ranked)). exact Hfin.
  - intros a b Ha Hb. unfold by_score_desc.
    destruct (Ranking.waterScore a), (Ranking.waterScore b);
      try contradiction.
    apply keeps_ge.
  - apply sort_sorted. intros a b. unfold by_score_desc.
    apply sub_gt_antisym.
Qed.

Lemma rankings_scores_finite (waterData : list Observation) :
  (forall d, In d waterData -> well_formed d) ->
  Forall (fun r => finite (Ranking.waterScore r))
    (map (rankingOf waterData) (latestArr waterData)).
Proof.
  intros Hwf. apply Forall_forall. intros r Hr.
  apply in_map_iff in Hr. destruct Hr as (d & <- & Hd).
  apply latestArr_In, Hwf in Hd.
  destruct (ScoreFacts.score_integer d Hd) as (z & E & _).
  cbn. rewrite E. exact I.
Qed.

End RankingFacts.

(** ** The synthetic series *)

Module GeneratorFacts.
Import JS JS.Notations Data DataStore.

Lemma same_but_lastUpdated_refl (a : Observation) : same_but_lastUpdated a a.
Proof. repeat split. Qed.

(** The record of one target year does not depend on the clock, except
    for its [lastUpdated]. *)
Lemma recordFor_clock (baseRow : Observation) (hash yr : Z)
    (clock1 clock2 : nat -> Z) (n1 n2 : nat) :
  same_but_lastUpdated
    (fst (recordFor baseRow hash yr clock1 n1))
    (fst (recordFor baseRow hash yr clock2 n2)).
Proof.
  unfold recordFor. destruct (yr =? year baseRow)%Z.
  - apply same_but_lastUpdated_refl.
  - unfold bind, new_Date, ret. cbn [fst]. repeat split.
Qed.

Lemma forEach_clock {A : Type} (f : A -> Clock Observation) (xs : list A) :
  (forall x clock1 clock2 n1 n2,
      same_but_lastUpdated (fst (f x clock1 n1)) (fst (f x clock2 n2))) ->
  forall clock1 clock2 n1 n2,
    Forall2 same_but_lastUpdated
      (fst (forEach f xs clock1 n1)) (fst (forEach f xs clock2 n2)).
Proof.
  intros Hf. induction xs as [| x xs IH]; intros clock1 clock2 n1 n2.
  - constructor.
  - cbn [forEach]. unfold bind at 1 3.
    pose proof (Hf x clock1 clock2 n1 n2) as Hx.
    destruct (f x clock1 n1) as [a m1], (f x clock2 n2) as [b m2].
    unfold bind.
    pose proof (IH clock1 clock2 m1 m2) as Hxs.
    destruct (forEach f xs clock1 m1) as [l1 k1],
      (forEach f xs clock2 m2) as [l2 k2].
    cbn [ret fst] in *. now constructor.
Qed.

End GeneratorFacts.

(** ** Histories in chronological order *)

Module HistoryFacts.
Import JS JS.Notations Data NumberFacts RuntimeFacts.
Local Open Scope Q_scope.

Lemma by_year_keeps (a b : Observation) :
  gt (by_year a b) (Fin 0) = false <-> (year a <= year b)%Z.
Proof.
  unfold by_year, of_Z. cbn [gt lt]. rewrite Qlt_bool_false.
  change 0 with (inject_Z 0). rewrite <- Zle_Qle. lia.
Qed.

(** Sorting by year leaves a chronological history as it is. *)
Lemma sort_by_year_id (history : list Observation) :
  Sorted (fun a b => (year a <= year b)%Z) history ->
  sort by_year history = history.
Proof.
  intros H. apply sort_id.
  induction H as [| x l Hs IH Hd]; constructor; [exact IH |].
  destruct Hd; constructor. now apply by_year_keeps.
Qed.

End HistoryFacts.

(** ** Year-over-year changes *)

Module ChangeFacts.
Import JS JS.Notations Data DataStore NumberFacts RuntimeFacts.
Local Open Scope Q_scope.

Lemma safeDiv_zero_prev (a b : number) :
  same b (Fin 0) -> safeDiv a b = Fin 0.
Proof.
  intros H. apply same_fin in H. destruct H as (p & -> & Hp).
  unfold safeDiv, strict_ne.
  apply Qeq_bool_iff in Hp. now rewrite Hp.
Qed.

Lemma toFixed_finite (k : nat) (a : number) : finite a -> finite (toFixed k a).
Proof.
  destruct a; try contradiction. intros _. unfold toFixed.
  now destruct (Qle_bool (pow10 21) (Qabs q)).
Qed.

(** The fallback divisor [prv || 1] is never zero, so the relative change
    of two finite values is finite. *)
Lemma relativeChange_finite (cur prv : number) :
  finite cur -> finite prv -> finite (relativeChange cur prv).
Proof.
  destruct cur as [c | | |], prv as [p | | |]; try contradiction.
  intros _ _. unfold relativeChange. apply toFixed_finite.
  unfold or_else, truthy.
  destruct (Qeq_bool p 0) eqn:E; cbn [negb].
  - exact I.
  - cbn. rewrite E. exact I.
Qed.

Lemma consecutivePairs_In (records : list Observation)
    (prv cur : Observation) :
  In (prv, cur) (consecutivePairs records) ->
  In prv records /\ In cur records.
Proof.
  induction records as [| a [| b rest] IH]; cbn [consecutivePairs];
    try contradiction.
  intros [H | H].
  - injection H as <- <-. split; [now left | right; now left].
  - destruct (IH H). split; now right.
Qed.

Lemma getWaterByLocation_In (waterData : list Observation)
    (locationName : jsstring) (d : Observation) :
  In d (getWaterByLocation waterData locationName) -> In d waterData.
Proof.
  unfold getWaterByLocation. intros H.
  apply (Permutation_in _ (Permutation_sym (sort_perm by_year _))) in H.
  now apply filter_In in H.
Qed.

(** Whenever the previous value of a metric is 0, [getYearlyChanges]
    reports a change of 0 for it; and for records with finite metrics
    every change in the [yoyChanges] of [getLocationSummary] is a finite
    number, never [Infinity] or [NaN]. *)
Lemma changes_from_zero (waterData : list Observation)
    (locationName : jsstring) :
  (forall c, In c (getYearlyChanges waterData locationName) ->
     forall metric,
       In metric [YearlyChange.waterLevel; YearlyChange.rainfall;
                  YearlyChange.depletion; YearlyChange.consumption;
                  YearlyChange.ph] ->
       same (Change.prev (metric c)) (Fin 0) ->
       Change.changePct (metric c) = Fin 0)
  /\ ((forall d, In d waterData -> well_formed d) ->
      forall s, getLocationSummary waterData locationName = Some s ->
      forall c, In c (Summary.yoyChanges s) ->
        finite (YoY.waterLevelChange c) /\ finite (YoY.rainfallChange c)
        /\ finite (YoY.depletionChange c)).
Proof.
  split.
  - intros c Hc metric Hm Hz. unfold getYearlyChanges in Hc. cbv zeta in Hc.
    destruct (List.length (getWaterByLocation waterData locationName) <? 2)%nat;
      [now cbn in Hc |].
    apply in_map_iff in Hc. destruct Hc as ([prv cur] & <- & _).
    cbn [In] in Hm.
    destruct Hm as [<- | [<- | [<- | [<- | [<- | []]]]]];
      cbn in Hz |- *; now apply safeDiv_zero_prev.
  - intros Hwf s Hs c Hc. unfold getLocationSummary in Hs. cbv zeta in Hs.
    destruct (lastOf (getWaterByLocation waterData locationName));
      [| discriminate].
    injection Hs as <-. cbn [Summary.yoyChanges] in Hc.
    match type of Hc with
    | In _ (if ?b then _ else _) => destruct b
    end; [| now cbn in Hc].
    apply in_map_iff in Hc. destruct Hc as ([prv cur] & <- & Hp).
    apply consecutivePairs_In in Hp. destruct Hp as [Hprv Hcur].
    apply getWaterByLocation_In, Hwf in Hprv, Hcur.
    destruct Hprv as (? & ? & ? & ?), Hcur as (? & ? & ? & ?).
    cbn [yoyChange YoY.waterLevelChange YoY.rainfallChange
           YoY.depletionChange].
    repeat split; now apply relativeChange_finite.
Qed.

End ChangeFacts.

(** ** The forecast *)

Module ForecastFacts.
Import JS JS.Notations Data WaterScore NumberFacts.
Local Open Scope Q_scope.

Lemma calcResidualStdError_short (sqrtQ : Q -> Q) (points : list point)
    (reg : regression) :
  (List.length points < 3)%nat ->
  calcResidualStdError sqrtQ points reg = Fin 0.
Proof.
  intros H. unfold calcResidualStdError.
  apply Nat.ltb_lt in H. now rewrite H.
Qed.

Lemma inject_nat_pos (n : nat) : (1 <= n)%nat -> 0 < inject_Z (Z.of_nat n).
Proof.
  intros H. change 0 with (inject_Z 0). rewrite <- Zlt_Qlt. lia.
Qed.

Lemma inject_nat_nonneg (n : nat) : 0 <= inject_Z (Z.of_nat n).
Proof. change 0 with (inject_Z 0). rewrite <- Zle_Qle. lia. Qed.

(** With at least one record the multiplier is a finite number. *)
Lemma confidenceMultiplier_finite (sqrtQ : Q -> Q) (n i : nat) :
  (1 <= n)%nat -> exists s, confidenceMultiplier sqrtQ n i = Fin s.
Proof.
  intros Hn. pose proof (inject_nat_pos n Hn) as Hpos.
  pose proof (inject_nat_nonneg i) as Hi.
  unfold confidenceMultiplier, of_nat, of_Z.
  set (qn := inject_Z (Z.of_nat n)) in *.
  set (qi := inject_Z (Z.of_nat i)) in *.
  assert (E1 : Qeq_bool qn 0 = false).
  { destruct (Qeq_bool qn 0) eqn:E; [| reflexivity].
    apply Qeq_bool_iff in E. lra. }
  assert (E2 : Qeq_bool (qn * 3) 0 = false).
  { destruct (Qeq_bool (qn * 3) 0) eqn:E; [| reflexivity].
    apply Qeq_bool_iff in E. lra. }
  cbn [add mul div]. rewrite E1, E2. cbn [add].
  assert (H1 : 0 <= 1 / qn).
  { apply Qle_shift_div_l; [exact Hpos | lra]. }
  assert (H2 : 0 <= qi * qi / (qn * 3)).
  { apply Qle_shift_div_l; [lra |].
    assert (0 <= qi * qi) by (apply Qmult_le_0_compat; exact Hi). lra. }
  unfold Math_sqrt.
  assert (E3 : Qlt_bool (1 + 1 / qn + qi * qi / (qn * 3)) 0 = false)
    by (apply Qlt_bool_false; lra).
  rewrite E3. cbn [mul]. eexists. reflexivity.
Qed.

(** A residual of zero leaves the point estimate as both bounds. *)
Lemma zero_residual_lower (w s : Q) :
  same (Fin w - Fin 0 * Fin s)%num (Fin w).
Proof. cbn. ring. Qed.

Lemma zero_residual_upper (w s : Q) :
  same (Fin w + Fin 0 * Fin s)%num (Fin w).
Proof. cbn. ring. Qed.

(** The water-level part of the prediction of round [i] when the residual
    error is zero. *)
Lemma predictAt_level_zero_residual (sqrtQ : Q -> Q)
    (historicalData : list Observation) (wlReg rfReg dpReg : regression)
    (rfResiduals dpResiduals lastYear : number) (i : nat) (w : Q) :
  (1 <= List.length historicalData)%nat ->
  toFixed 2 (slope wlReg * (lastYear + of_nat i) + intercept wlReg)%num
  = Fin w ->
  let p :=
    predictAt sqrtQ historicalData wlReg rfReg dpReg
      (Fin 0) rfResiduals dpResiduals lastYear i in
  Prediction.groundwaterLevel p = Math_max (Fin 0) (Fin w)
  /\ same (CI.lower (Prediction.groundwaterLevelCI p))
          (Math_max (Fin 0) (toFixed 2 (Fin w)))
  /\ same (CI.upper (Prediction.groundwaterLevelCI p)) (toFixed 2 (Fin w)).
Proof.
  intros Hn Hw p. subst p. unfold predictAt.
  cbn [Prediction.groundwaterLevel Prediction.groundwaterLevelCI
         CI.lower CI.upper].
  rewrite Hw.
  destruct (confidenceMultiplier_finite sqrtQ _ i Hn) as (s & ->).
  split; [reflexivity |]. split.
  - now rewrite zero_residual_lower.
  - now rewrite zero_residual_upper.
Qed.

(** *** Histories of two records *)

(** Two points with different abscissas give finite coefficients. *)
Lemma regression_two_points (x1 x2 : Z) (y1 y2 : Q) :
  x1 <> x2 ->
  exists a b,
    linearRegression
      [ {| x := of_Z x1; y := Fin y1 |}; {| x := of_Z x2; y := Fin y2 |} ]
    = {| slope := Fin a; intercept := Fin b |}.
Proof.
  intros Hx. unfold linearRegression.
  cbn [List.length Nat.ltb Nat.leb fold_left accumulate
         sumX sumY sumXY sumX2 x y].
  unfold of_nat, of_Z. cbn [add sub mul neg].
  set (X1 := inject_Z x1). set (X2 := inject_Z x2).
  set (den := inject_Z (Z.of_nat 2) * (0 + X1 * X1 + X2 * X2)
              + - ((0 + X1 + X2) * (0 + X1 + X2))).
  assert (E : Qeq_bool den 0 = false).
  { destruct (Qeq_bool den 0) eqn:E; [| reflexivity].
    apply Qeq_bool_iff in E. exfalso. apply Hx.
    assert (Hsq : (X1 - X2) * (X1 - X2) == 0).
    { rewrite <- E. unfold den. change (inject_Z (Z.of_nat 2)) with 2. ring. }
    apply Qmult_integral in Hsq.
    assert (HX : X1 == X2) by (destruct Hsq; lra).
    unfold X1, X2 in HX. apply inject_Z_injective. exact HX. }
  cbn [div]. rewrite E. cbn [mul add sub neg div].
  change (Qeq_bool (inject_Z (Z.of_nat 2)) 0) with false.
  cbv iota. do 2 eexists. reflexivity.
Qed.

Lemma lastYear_two (x1 x2 : Z) :
  exists L, Math_max_list [of_Z x1; of_Z x2] = Fin L.
Proof.
  unfold Math_max_list, of_Z. cbn [fold_left Math_max lt].
  destruct (Qlt_bool (inject_Z x1) (inject_Z x2)); eexists; reflexivity.
Qed.

(** With a residual of zero, both bounds are the rounded estimate; the
    lower bound is floored at zero like the point estimate. *)
Lemma band_zero_residual (k : nat) (raw s : Q) :
  let pred := toFixed k (Fin raw) in
  let lower := Math_max (Fin 0) (toFixed k (pred - Fin 0 * Fin s)%num) in
  let upper := toFixed k (pred + Fin 0 * Fin s)%num in
  same lower (Math_max (Fin 0) pred)
  /\ same upper pred
  /\ (le (Fin 0) upper = true -> same upper lower).
Proof.
  intros pred lower upper. subst lower upper.
  pose proof (toFixed_idem k (Fin raw)) as Hidem. fold pred in Hidem.
  destruct (toFixed_fin k raw) as (w & Hw). fold pred in Hw.
  rewrite Hw in *.
  rewrite zero_residual_lower, zero_residual_upper, Hidem.
  split; [reflexivity |]. split; [reflexivity |].
  cbn [le Math_max lt]. intros H. apply Qle_bool_iff in H.
  destruct (Qlt_bool 0 w) eqn:E; [reflexivity |].
  apply Qlt_bool_false in E. cbn [same]. lra.
Qed.

Lemma band_degenerate (k : nat) (raw s : Q) :
  let pred := toFixed k (Fin raw) in
  degenerate (Math_max (Fin 0) pred)
    {| CI.lower := Math_max (Fin 0) (toFixed k (pred - Fin 0 * Fin s)%num);
       CI.upper := toFixed k (pred + Fin 0 * Fin s)%num |}.
Proof.
  intros pred. destruct (band_zero_residual k raw s) as (H1 & H2 & H3).
  split; cbn [CI.lower CI.upper]; [exact H1 | exact H3].
Qed.

(** Every prediction of a round with zero residuals has one-point
    intervals, up to the missing floor of the upper bound. *)
Lemma predictAt_zero_residuals (sqrtQ : Q -> Q)
    (historicalData : list Observation) (wlReg rfReg dpReg : regression)
    (lastYear : number) (i : nat) :
  (1 <= List.length historicalData)%nat ->
  finite (slope wlReg) -> finite (intercept wlReg) ->
  finite (slope rfReg) -> finite (intercept rfReg) ->
  finite (slope dpReg) -> finite (intercept dpReg) ->
  finite lastYear ->
  let p :=
    predictAt sqrtQ historicalData wlReg rfReg dpReg
      (Fin 0) (Fin 0) (Fin 0) lastYear i in
  degenerate (Prediction.groundwaterLevel p) (Prediction.groundwaterLevelCI p)
  /\ degenerate (Prediction.rainfall p) (Prediction.rainfallCI p)
  /\ degenerate (Prediction.depletionRate p) (Prediction.depletionRateCI p).
Proof.
  intros Hn Hws Hwi Hrs Hri Hds Hdi HL p. subst p.
  destruct wlReg as [[ws | | |] [wi | | |]]; try contradiction.
  destruct rfReg as [[rs | | |] [ri | | |]]; try contradiction.
  destruct dpReg as [[ds | | |] [di | | |]]; try contradiction.
  destruct lastYear as [L | | |]; try contradiction.
  unfold predictAt.
  cbn [Prediction.groundwaterLevel Prediction.groundwaterLevelCI
         Prediction.rainfall Prediction.rainfallCI
         Prediction.depletionRate Prediction.depletionRateCI
         slope intercept].
  destruct (confidenceMultiplier_finite sqrtQ _ i Hn) as (s & ->).
  unfold of_nat, of_Z. cbn [add mul].
  split; [| split]; apply band_degenerate.
Qed.

Lemma points_finite (x1 x2 : Z) (v1 v2 : number) :
  x1 <> x2 -> finite v1 -> finite v2 ->
  let reg :=
    linearRegression
      [ {| x := of_Z x1; y := v1 |}; {| x := of_Z x2; y := v2 |} ] in
  finite (slope reg) /\ finite (intercept reg).
Proof.
  intros Hx H1 H2 reg. subst reg.
  destruct v1 as [y1 | | |], v2 as [y2 | | |]; try contradiction.
  destruct (regression_two_points x1 x2 y1 y2 Hx) as (a & b & ->).
  split; exact I.
Qed.

(** A history of two records of different years with finite metrics:
    all residual errors are zero and every prediction has one-point
    intervals. *)
Lemma two_records_degenerate (sqrtQ : Q -> Q) (h1 h2 : Observation)
    (yearsAhead : option number) (predictions : list Prediction.t) :
  year h1 <> year h2 ->
  finite (groundwaterLevel h1) -> finite (groundwaterLevel h2) ->
  finite (rainfall h1) -> finite (rainfall h2) ->
  finite (depletionRate h1) -> finite (depletionRate h2) ->
  predictFuture sqrtQ [h1; h2] yearsAhead = Some predictions ->
  Forall
    (fun p =>
       degenerate (Prediction.groundwaterLevel p)
         (Prediction.groundwaterLevelCI p)
       /\ degenerate (Prediction.rainfall p) (Prediction.rainfallCI p)
       /\ degenerate (Prediction.depletionRate p)
            (Prediction.depletionRateCI p))
    predictions.
Proof.
  intros Hy Hg1 Hg2 Hr1 Hr2 Hd1 Hd2 H. unfold predictFuture in H.
  cbv zeta in H.
  destruct (rounds _) as [k |]; [| discriminate]. injection H as <-.
  rewrite !calcResidualStdError_short by (cbn; lia).
  apply Forall_forall. intros p Hp. apply in_map_iff in Hp.
  destruct Hp as (i & <- & _).
  destruct (points_finite (year h1) (year h2) _ _ Hy Hg1 Hg2).
  destruct (points_finite (year h1) (year h2) _ _ Hy Hr1 Hr2).
  destruct (points_finite (year h1) (year h2) _ _ Hy Hd1 Hd2).
  apply predictAt_zero_residuals; try assumption; [cbn; lia |].
  cbn [map]. destruct (lastYear_two (year h1) (year h2)) as (L & ->).
  exact I.
Qed.

Lemma two_records_residuals (sqrtQ : Q -> Q) (h1 h2 : Observation) :
  calcResidualStdError sqrtQ (waterLevelPoints [h1; h2])
    (linearRegression (waterLevelPoints [h1; h2])) = Fin 0
  /\ calcResidualStdError sqrtQ (rainfallPoints [h1; h2])
       (linearRegression (rainfallPoints [h1; h2])) = Fin 0
  /\ calcResidualStdError sqrtQ (depletionPoints [h1; h2])
       (linearRegression (depletionPoints [h1; h2])) = Fin 0.
Proof. repeat split. Qed.

End ForecastFacts.

(** ** More on the scores and indices *)

Module IndexFacts.
Import JS JS.Notations Data WaterScore NumberFacts ScoreFacts.
Local Open Scope Q_scope.





(** The sustainability score of finite metrics. *)
Lemma sustainability_integer (d : Observation) :
  finite (rainfall d) -> finite (depletionRate d) -> finite (ph d) ->
  exists z : Z,
    calculateSustainabilityScore d = of_Z z /\ (0 <= z <= 100)%Z.
Proof.
  intros Hr Hd Hp. unfold calculateSustainabilityScore.
  destruct (normalize_cases (rainfall d) 500 1500 false)
    as [[E _] | [_ (q2 & E2 & B2)]];
    [reflexivity | rewrite E in Hr; contradiction |].
  destruct (normalize_cases (depletionRate d) 0 10 true)
    as [[E _] | [_ (q3 & E3 & B3)]];
    [reflexivity | rewrite E in Hd; contradiction |].
  destruct (normalize_cases (Math_abs (ph d - Fin 7.0)%num) 0 1.5 true)
    as [[E _] | [_ (q4 & E4 & B4)]];
    [reflexivity | destruct (ph d); try contradiction; discriminate |].
  rewrite E2, E3, E4. cbn [add mul]. unfold Math_round.
  eexists. split; [reflexivity |]. apply round_bounds. lra.
Qed.

(** The value of the depletion tier never rises with the rate. *)
Lemma depletionIndex_antimono (r1 r2 : number) :
  le r1 r2 = true ->
  le (value (calculateDepletionIndex r2)) (value (calculateDepletionIndex r1))
  = true.
Proof.
  intros H. destruct r1 as [p | | |], r2 as [q | | |]; try discriminate;
    try reflexivity.
  - cbn [le] in H. unfold calculateDepletionIndex. cbn [le].
    destruct (Qle_bool p 2) eqn:P2, (Qle_bool p 4) eqn:P4,
      (Qle_bool p 6) eqn:P6, (Qle_bool q 2) eqn:Q2, (Qle_bool q 4) eqn:Q4,
      (Qle_bool q 6) eqn:Q6; try reflexivity; qbool; exfalso; lra.
  - unfold calculateDepletionIndex. cbn [le].
    destruct (Qle_bool p 2), (Qle_bool p 4), (Qle_bool p 6); reflexivity.
  - unfold calculateDepletionIndex. cbn [le].
    destruct (Qle_bool q 2), (Qle_bool q 4), (Qle_bool q 6); reflexivity.
Qed.

(** The quality tier depends on the distance of the pH from 7 only, and
    its value never rises with that distance. *)
Lemma wqi_antimono (p1 p2 : Q) :
  Qabs (p1 - 7) <= Qabs (p2 - 7) ->
  le (value (calculateWQI (Fin p2))) (value (calculateWQI (Fin p1))) = true.
Proof.
  intros H. unfold calculateWQI, Math_abs. cbn [sub add neg abs le].
  assert (E1 : Qabs (p1 + Qopp 7.0) == Qabs (p1 - 7))
    by (apply Qabs_wd; unfold Qminus; lra).
  assert (E2 : Qabs (p2 + Qopp 7.0) == Qabs (p2 - 7))
    by (apply Qabs_wd; unfold Qminus; lra).
  rewrite <- E1, <- E2 in H. clear E1 E2.
  set (d1 := Qabs (p1 + Qopp 7.0)) in *. set (d2 := Qabs (p2 + Qopp 7.0)) in *.
  destruct (Qle_bool d1 0.5) eqn:A1, (Qle_bool d1 1.0) eqn:A2,
    (Qle_bool d1 1.5) eqn:A3, (Qle_bool d2 0.5) eqn:B1,
    (Qle_bool d2 1.0) eqn:B2, (Qle_bool d2 1.5) eqn:B3;
    try reflexivity; qbool; exfalso; lra.
Qed.

End IndexFacts.

(** ** More on the forecast *)

Module ForecastShape.
Import JS JS.Notations Data WaterScore NumberFacts.
Local Open Scope Q_scope.

Lemma predictFuture_length (sqrtQ : Q -> Q)
    (historicalData : list Observation) (q : Q) :
  exists predictions,
    predictFuture sqrtQ historicalData (Some (Fin q)) = Some predictions
    /\ List.length predictions = Z.to_nat (Qfloor q).
Proof.
  unfold predictFuture, rounds. eexists. split; [reflexivity |].
  now rewrite length_map, length_seq.
Qed.

(** [Math.max(0, a)] is never below zero. *)
Lemma floor_zero (a : number) : lt (Math_max (Fin 0) a) (Fin 0) = false.
Proof.
  destruct a as [q | | |]; try reflexivity.
  cbn [Math_max lt]. destruct (Qlt_bool 0 q) eqn:E; cbn [lt].
  - apply Qlt_bool_iff in E. apply Qlt_bool_false. lra.
  - reflexivity.
Qed.

(** No point estimate and no lower bound of a prediction is negative. *)
Lemma predictAt_not_negative (sqrtQ : Q -> Q)
    (historicalData : list Observation)
    (wlReg rfReg dpReg : regression)
    (wlResiduals rfResiduals dpResiduals lastYear : number) (i : nat) :
  let p := predictAt sqrtQ historicalData wlReg rfReg dpReg
             wlResiduals rfResiduals dpResiduals lastYear i in
  lt (Prediction.groundwaterLevel p) (Fin 0) = false
  /\ lt (Prediction.rainfall p) (Fin 0) = false
  /\ lt (Prediction.depletionRate p) (Fin 0) = false
  /\ lt (CI.lower (Prediction.groundwaterLevelCI p)) (Fin 0) = false
  /\ lt (CI.lower (Prediction.rainfallCI p)) (Fin 0) = false
  /\ lt (CI.lower (Prediction.depletionRateCI p)) (Fin 0) = false.
Proof.
  unfold predictAt.
  cbn [Prediction.groundwaterLevel Prediction.rainfall
         Prediction.depletionRate Prediction.groundwaterLevelCI
         Prediction.rainfallCI Prediction.depletionRateCI CI.lower].
  repeat split; apply floor_zero.
Qed.

End ForecastShape.

(** ** The alert engine *)

Module AlertFacts.
Import JS JS.Notations Data DataStore AlertEngine AlertEngine.ALERT_THRESHOLDS
  NumberFacts ScoreFacts RuntimeFacts.
Local Open Scope Q_scope.

Lemma last_cons (A : Type) (x d : A) (l : list A) :
  last (x :: l) d = last l x.
Proof.
  revert x d. induction l as [| y l IH]; intros x d; [reflexivity |].
  change (last (x :: y :: l) d) with (last (y :: l) d).
  now rewrite !IH.
Qed.

Lemma run_app (rel : Observation -> Observation -> bool)
    (xs ys : list Observation) (prev : Observation) (count : nat) :
  run rel prev (xs ++ ys) count
  = run rel (last xs prev) ys (run rel prev xs count).
Proof.
  revert prev count. induction xs as [| x xs IH]; intros prev count.
  - reflexivity.
  - cbn [app run]. rewrite IH, last_cons. reflexivity.
Qed.

(** The counter after one more record: one more when the last pair is
    related, zero otherwise. *)
Lemma consecutive_snoc (rel : Observation -> Observation -> bool)
    (l : list Observation) (c d : Observation) :
  consecutive rel (l ++ [c; d])
  = if rel d c then S (consecutive rel (l ++ [c])) else O.
Proof.
  destruct l as [| p l].
  - reflexivity.
  - cbn [app consecutive].
    change (l ++ [c; d]) with (l ++ [c] ++ [d]). rewrite app_assoc.
    rewrite run_app, last_last. reflexivity.
Qed.

Lemma consecutive_single (rel : Observation -> Observation -> bool)
    (l : list Observation) :
  (List.length l <= 1)%nat -> consecutive rel l = O.
Proof.
  destruct l as [| a [| b l]]; cbn; intros; try reflexivity; lia.
Qed.

(** The counter reaches three exactly when the last three pairs are
    related. *)
Lemma consecutive_three (rel : Observation -> Observation -> bool)
    (l : list Observation) :
  (3 <=? consecutive rel l)%nat = true
  <-> exists pre r0 r1 r2 r3,
        l = pre ++ [r0; r1; r2; r3]
        /\ rel r1 r0 = true /\ rel r2 r1 = true /\ rel r3 r2 = true.
Proof.
  rewrite Nat.leb_le. split.
  - intros H.
    destruct l as [| x l' _] using rev_ind; [cbn in H; lia |].
    destruct l' as [| y l _] using rev_ind; [cbn in H; lia |].
    rewrite <- app_assoc in H |- *. cbn [app] in H |- *.
    rewrite consecutive_snoc in H.
    destruct (rel x y) eqn:E3; [| lia].
    destruct l as [| z l' _] using rev_ind; [cbn in H; lia |].
    rewrite <- app_assoc in H |- *. cbn [app] in H |- *.
    rewrite consecutive_snoc in H.
    destruct (rel y z) eqn:E2; [| lia].
    destruct l' as [| w l _] using rev_ind; [cbn in H; lia |].
    rewrite <- app_assoc in H |- *. cbn [app] in H |- *.
    exists l, w, z, y, x. repeat split; try assumption.
    rewrite consecutive_snoc in H.
    destruct (rel z w); [reflexivity | lia].
  - intros (pre & r0 & r1 & r2 & r3 & -> & E1 & E2 & E3).
    change (pre ++ [r0; r1; r2; r3]) with (pre ++ [r0; r1] ++ [r2; r3]).
    rewrite app_assoc, consecutive_snoc, E3.
    rewrite <- app_assoc.
    change (pre ++ [r0; r1] ++ [r2]) with (pre ++ [r0] ++ [r1; r2]).
    rewrite app_assoc, consecutive_snoc, E2.
    rewrite <- app_assoc.
    change (pre ++ [r0] ++ [r1]) with (pre ++ [r0; r1]).
    rewrite consecutive_snoc, E1. lia.
Qed.

(** *** The threshold alerts *)

Ltac alert_cases H :=
  repeat match type of H with
         | In _ (if ?c then _ else _) => destruct c
         end;
  cbn [In] in H;
  repeat match type of H with
         | _ \/ _ => destruct H as [H | H]
         | False => contradiction
         end.

Lemma threshold_member (data : Observation) (timestamp : Z) (a : Alert.t) :
  In a (waterLevelAlerts data timestamp
        ++ depletionAlerts data timestamp
        ++ rainfallAlerts data timestamp
        ++ phAlerts data timestamp
        ++ consumptionAlerts data timestamp
        ++ scarcityAlerts data timestamp) ->
  Alert.timestamp a = timestamp /\ Alert.category a <> "Trend"%string.
Proof.
  rewrite !in_app_iff.
  unfold waterLevelAlerts, depletionAlerts, rainfallAlerts, phAlerts,
    consumptionAlerts, scarcityAlerts.
  intros [H | [H | [H | [H | [H | H]]]]]; alert_cases H; subst a;
    (split; [reflexivity | discriminate]).
Qed.

Lemma trend_member (data : Observation) (timestamp : Z)
    (sorted : list Observation) (a : Alert.t) :
  In a (waterLevelTrendAlerts data timestamp sorted
        ++ depletionTrendAlerts data timestamp sorted
        ++ rainfallTrendAlerts data timestamp sorted
        ++ scoreTrendAlerts data timestamp sorted) ->
  Alert.timestamp a = timestamp.
Proof.
  rewrite !in_app_iff.
  unfold waterLevelTrendAlerts, depletionTrendAlerts, rainfallTrendAlerts,
    scoreTrendAlerts. cbv zeta.
  intros [H | [H | [H | H]]]; alert_cases H; subst a; reflexivity.
Qed.

Lemma other_trend_title (data : Observation) (timestamp : Z)
    (sorted : list Observation) (a : Alert.t) :
  In a (depletionTrendAlerts data timestamp sorted
        ++ rainfallTrendAlerts data timestamp sorted
        ++ scoreTrendAlerts data timestamp sorted) ->
  Alert.title a <> [Txt "📉 Sustained Water Level Decline"].
Proof.
  rewrite !in_app_iff.
  unfold depletionTrendAlerts, rainfallTrendAlerts, scoreTrendAlerts.
  cbv zeta.
  intros [H | [H | H]]; alert_cases H; subst a; discriminate.
Qed.

Lemma if_length (A : Type) (c : bool) (x : A) :
  List.length (if c then [x] else []) = count c.
Proof. now destruct c. Qed.

Lemma waterLevelAlerts_length (data : Observation) (timestamp : Z) :
  List.length (waterLevelAlerts data timestamp)
  = count (ge (groundwaterLevel data) (Fin 12)).
Proof.
  unfold waterLevelAlerts, criticalWaterLevel, warningWaterLevel.
  destruct (groundwaterLevel data) as [q | | |]; try reflexivity.
  unfold ge, le.
  destruct (Qle_bool 15 q) eqn:E1, (Qle_bool 12 q) eqn:E2;
    try reflexivity.
  qbool. exfalso. lra.
Qed.

Lemma depletionAlerts_length (data : Observation) (timestamp : Z) :
  List.length (depletionAlerts data timestamp)
  = count (ge (depletionRate data) (Fin 5)).
Proof.
  unfold depletionAlerts, criticalDepletion, highDepletion.
  destruct (depletionRate data) as [q | | |]; try reflexivity.
  unfold ge, le.
  destruct (Qle_bool 7 q) eqn:E1, (Qle_bool 5 q) eqn:E2;
    try reflexivity.
  qbool. exfalso. lra.
Qed.

Lemma rainfallAlerts_length (data : Observation) (timestamp : Z) :
  List.length (rainfallAlerts data timestamp)
  = count (le (rainfall data) (Fin 700)).
Proof.
  unfold rainfallAlerts, criticalRainfall, lowRainfall.
  destruct (rainfall data) as [q | | |]; try reflexivity.
  unfold le.
  destruct (Qle_bool q 600) eqn:E1, (Qle_bool q 700) eqn:E2;
    try reflexivity.
  qbool. exfalso. lra.
Qed.

(** The engine's pH test holds where the summary's does, and at the two
    limits besides. *)
Lemma phAlerts_length (data : Observation) (timestamp : Z) :
  List.length (phAlerts data timestamp)
  = (count (lt (ph data) (Fin 6.5) || gt (ph data) (Fin 8.0))
     + count (negb (strict_ne (ph data) (Fin 6.5))
              || negb (strict_ne (ph data) (Fin 8.0))))%nat.
Proof.
  unfold phAlerts, highPH, lowPH. rewrite if_length.
  destruct (ph data) as [q | | |]; try reflexivity.
  unfold ge, gt, le, lt, strict_ne, Qlt_bool.
  destruct (Qle_bool 8.0 q) eqn:E1, (Qle_bool q 6.5) eqn:E2,
    (Qle_bool 6.5 q) eqn:E3, (Qle_bool q 8.0) eqn:E4,
    (Qeq_bool q 6.5) eqn:E5, (Qeq_bool q 8.0) eqn:E6;
    try reflexivity; qbool; exfalso; lra.
Qed.

Lemma consumptionAlerts_length (data : Observation) (timestamp : Z) :
  List.length (consumptionAlerts data timestamp)
  = count (ge (consumption data) (Fin 500)).
Proof. unfold consumptionAlerts. apply if_length. Qed.

Lemma scarcityAlerts_length (data : Observation) (timestamp : Z) :
  List.length (scarcityAlerts data timestamp)
  = count (str_eqb (scarcityLevel data) (js "Severe")
           || str_eqb (scarcityLevel data) (js "Extreme")).
Proof. unfold scarcityAlerts. apply if_length. Qed.

Lemma count_le (b : bool) : (count b <= 1)%nat.
Proof. destruct b; cbn; lia. Qed.

Lemma trend_lengths (data : Observation) (timestamp : Z)
    (sorted : list Observation) :
  (List.length (waterLevelTrendAlerts data timestamp sorted
                ++ depletionTrendAlerts data timestamp sorted
                ++ rainfallTrendAlerts data timestamp sorted
                ++ scoreTrendAlerts data timestamp sorted) <= 4)%nat.
Proof.
  rewrite !length_app.
  unfold waterLevelTrendAlerts, depletionTrendAlerts, rainfallTrendAlerts,
    scoreTrendAlerts. cbv zeta.
  rewrite !if_length.
  repeat match goal with
         | |- context [count ?b] =>
             let H := fresh in
             pose proof (count_le b) as H;
             generalize dependent (count b); intros
         end.
  lia.
Qed.

Lemma threshold_lengths (data : Observation) (timestamp : Z) :
  (List.length (waterLevelAlerts data timestamp
                ++ depletionAlerts data timestamp
                ++ rainfallAlerts data timestamp
                ++ phAlerts data timestamp
                ++ consumptionAlerts data timestamp
                ++ scarcityAlerts data timestamp) <= 6)%nat.
Proof.
  rewrite !length_app.
  rewrite waterLevelAlerts_length, depletionAlerts_length,
    rainfallAlerts_length, consumptionAlerts_length, scarcityAlerts_length.
  unfold phAlerts. rewrite if_length.
  repeat match goal with
         | |- context [count ?b] =>
             let H := fresh in
             pose proof (count_le b) as H;
             generalize dependent (count b); intros
         end.
  lia.
Qed.

End AlertFacts.

(** ** Queries on the store *)

Module QueryFacts.
Import JS JS.Notations Data DataStore NumberFacts RuntimeFacts StoreFacts
  HistoryFacts Latest Store Keys Changes.
Local Open Scope Z_scope.

Lemma by_year_total (a b : Observation) :
  gt (by_year a b) (Fin 0) = true -> gt (by_year b a) (Fin 0) = false.
Proof.
  intros H. apply by_year_keeps.
  destruct (gt (by_year b a) (Fin 0)) eqn:E.
  - assert (Ha : ~ (year a <= year b)) by (rewrite <- by_year_keeps; congruence).
    assert (Hb : ~ (year b <= year a)) by (rewrite <- by_year_keeps; congruence).
    lia.
  - now apply by_year_keeps.
Qed.

Lemma sort_by_year_sorted (l : list Observation) :
  StronglySorted (fun a b => year a <= year b) (sort by_year l).
Proof.
  apply Sorted_StronglySorted.
  - intros a b c. lia.
  - pose proof (sort_sorted by_year by_year_total l) as H.
    induction H as [| x s Hs IH Hd]; constructor; [exact IH |].
    destruct Hd; constructor. now apply by_year_keeps.
Qed.

(** The records of a location: those of the store that carry its name,
    each as often as the store has it, by ascending year. *)
Lemma getWaterByLocation_perm (waterData : list Observation)
    (locationName : jsstring) :
  Permutation (getWaterByLocation waterData locationName)
    (filter (fun d => str_eqb (location d) locationName) waterData).
Proof. unfold getWaterByLocation. symmetry. apply sort_perm. Qed.

Lemma records_of_location (waterData : list Observation)
    (locationName : jsstring) (d : Observation) :
  In d (getWaterByLocation waterData locationName)
  <-> In d waterData /\ location d = locationName.
Proof.
  split.
  - intros H.
    apply (Permutation_in _ (getWaterByLocation_perm _ _)) in H.
    apply filter_In in H. now rewrite str_eqb_eq in H.
  - intros [H E].
    apply (Permutation_in _ (Permutation_sym (getWaterByLocation_perm _ _))).
    apply filter_In. now rewrite str_eqb_eq.
Qed.

Lemma lastOf_snoc (l : list Observation) (d : Observation) :
  lastOf (l ++ [d]) = Some d.
Proof.
  unfold lastOf. rewrite length_app. cbn [List.length].
  replace (List.length l + 1 - 1)%nat with (List.length l) by lia.
  rewrite nth_error_app2 by lia. now rewrite Nat.sub_diag.
Qed.

Lemma lastOf_None (l : list Observation) : lastOf l = None <-> l = [].
Proof.
  destruct l as [| x l _] using rev_ind.
  - split; reflexivity.
  - rewrite lastOf_snoc. split; [discriminate |].
    intros H. now destruct l.
Qed.

Lemma lastOf_Some (l : list Observation) (d : Observation) :
  lastOf l = Some d -> exists l', l = l' ++ [d].
Proof.
  destruct l as [| x l _] using rev_ind.
  - discriminate.
  - rewrite lastOf_snoc. intros H. injection H as ->. now exists l.
Qed.

Lemma sorted_last (l : list Observation) (d x : Observation) :
  StronglySorted (fun a b => year a <= year b) (l ++ [d]) ->
  In x (l ++ [d]) -> year x <= year d.
Proof.
  induction l as [| y l IH]; cbn [app]; intros Hs Hin.
  - destruct Hin as [<- | []]. lia.
  - inversion Hs as [| ? ? Hs' Hall]; subst.
    destruct Hin as [<- | Hin].
    + rewrite Forall_forall in Hall. apply Hall.
      apply in_or_app. right. now left.
    + now apply IH.
Qed.

(** The latest record of a location is a record of the store with that
    name and of the highest year. *)
Lemma getLatestByLocation_Some (waterData : list Observation)
    (locationName : jsstring) (latest : Observation) :
  getLatestByLocation waterData locationName = Some latest ->
  In latest waterData /\ location latest = locationName
  /\ forall d, In d waterData -> location d = locationName ->
               year d <= year latest.
Proof.
  unfold getLatestByLocation. intros H.
  destruct (lastOf_Some _ _ H) as (l' & E).
  assert (Hin : In latest (getWaterByLocation waterData locationName))
    by (rewrite E; apply in_or_app; right; now left).
  apply records_of_location in Hin. destruct Hin as [Hin Hloc].
  split; [exact Hin |]. split; [exact Hloc |].
  intros d Hd Hl.
  assert (Hd' : In d (getWaterByLocation waterData locationName))
    by (apply records_of_location; now split).
  pose proof (sort_by_year_sorted
                (filter (fun d => str_eqb (location d) locationName)
                   waterData)) as Hs.
  fold (getWaterByLocation waterData locationName) in Hs.
  rewrite E in Hs, Hd'. exact (sorted_last l' latest d Hs Hd').
Qed.

Lemma getLatestByLocation_None (waterData : list Observation)
    (locationName : jsstring) :
  getLatestByLocation waterData locationName = None
  <-> forall d, In d waterData -> location d <> locationName.
Proof.
  unfold getLatestByLocation. rewrite lastOf_None. split.
  - intros E d Hd Hl.
    assert (H : In d (getWaterByLocation waterData locationName))
      by (apply records_of_location; now split).
    now rewrite E in H.
  - intros H.
    destruct (getWaterByLocation waterData locationName) as [| d l] eqn:E;
      [reflexivity |].
    assert (Hd : In d (getWaterByLocation waterData locationName))
      by (rewrite E; now left).
    apply records_of_location in Hd. destruct Hd as [Hd Hl].
    now destruct (H d Hd).
Qed.

(** *** The latest records of all locations *)

Lemma set_In_strict (m : object Observation) (k k' : jsstring)
    (v v' : Observation) :
  NoDup (map fst m) ->
  In (k', v') (set m k v) ->
  (k' = k /\ v' = v) \/ (k' <> k /\ In (k', v') m).
Proof.
  induction m as [| [k0 v0] m IH]; cbn [set map fst]; intros Hn.
  - intros [H | []]. injection H as <- <-. now left.
  - inversion Hn as [| ? ? Hk Hn']; subst.
    destruct (str_eqb k0 k) eqn:E.
    + apply str_eqb_eq in E. subst k0. intros [H | H].
      * injection H as <- <-. now left.
      * right. split; [| now right].
        intros ->. apply Hk.
        change k with (fst (k, v')). now apply (in_map fst).
    + apply str_eqb_neq in E. intros [H | H].
      * injection H as <- <-. right. split; [exact E | now left].
      * destruct (IH Hn' H) as [? | [? ?]]; [now left |].
        right. split; [assumption | now right].
Qed.

Lemma keys_functional (m : object Observation) (k : jsstring)
    (v v' : Observation) :
  NoDup (map fst m) -> In (k, v) m -> In (k, v') m -> v = v'.
Proof.
  induction m as [| [k0 v0] m IH]; cbn [map fst]; intros Hn H H';
    [contradiction |].
  inversion Hn as [| ? ? Hk Hn']; subst.
  destruct H as [H | H], H' as [H' | H'].
  - congruence.
  - injection H as -> ->. exfalso. apply Hk.
    change k with (fst (k, v')). now apply (in_map fst).
  - injection H' as -> ->. exfalso. apply Hk.
    change k with (fst (k, v)). now apply (in_map fst).
  - now apply IH.
Qed.

Lemma latest_max_nil : latest_max [] [].
Proof. split; cbn; tauto. Qed.

Lemma latestStep_max (seen : list Observation) (m : object Observation)
    (d : Observation) :
  latest_inv seen m -> latest_max seen m ->
  latest_max (seen ++ [d]) (latestStep m d).
Proof.
  intros [Hn Hs Hc] [Ho Hm]. unfold latestStep.
  destruct (get m (location d)) as [cur | |] eqn:G.
  - apply get_Own, own_In in G.
    assert (Hk : In (location d) (map fst m))
      by (change (location d) with (fst (location d, cur));
          now apply (in_map fst)).
    destruct (year d >? year cur) eqn:Y.
    + split.
      * intros k. rewrite set_keys_old by exact Hk. apply Ho.
      * intros k v H d' H' Hl.
        apply set_In_strict in H; [| exact Hn].
        apply in_app_or in H'.
        destruct H as [[-> ->] | [Hne H]].
        -- destruct H' as [H' | [<- | []]]; [| lia].
           pose proof (Hm _ _ G d' H' Hl). lia.
        -- destruct H' as [H' | [<- | []]]; [| congruence].
           exact (Hm _ _ H d' H' Hl).
    + split; [exact Ho |].
      intros k v H d' H' Hl. apply in_app_or in H'.
      destruct H' as [H' | [<- | []]].
      * exact (Hm _ _ H d' H' Hl).
      * subst k. rewrite (keys_functional m _ v cur Hn H G). lia.
  - apply get_Inherited in G. destruct G as [_ G].
    split; [exact Ho |].
    intros k v H d' H' Hl. apply in_app_or in H'.
    destruct H' as [H' | [<- | []]].
    + exact (Hm _ _ H d' H' Hl).
    + subst k. exfalso. apply (Ho (location d)); [| exact G].
      change (location d) with (fst (location d, v)).
      now apply (in_map fst).
  - apply get_Undefined in G. destruct G as [G Hp].
    apply own_None in G. split.
    + intros k. rewrite set_keys_new by exact G.
      intros H. apply in_app_or in H.
      destruct H as [H | [<- | []]]; [now apply Ho | exact Hp].
    + intros k v H d' H' Hl. apply in_app_or in H'.
      apply set_In in H.
      destruct H as [[-> ->] | H].
      * destruct H' as [H' | [<- | []]]; [| lia].
        exfalso. apply G. rewrite <- Hl. apply Hc; [exact H' |].
        now rewrite Hl.
      * destruct H' as [H' | [<- | []]].
        -- exact (Hm _ _ H d' H' Hl).
        -- subst k. exfalso. apply G.
           change (location d) with (fst (location d, v)).
           now apply (in_map fst).
Qed.

Lemma fold_latest_max (rest seen : list Observation)
    (m : object Observation) :
  latest_inv seen m -> latest_max seen m ->
  latest_max (seen ++ rest) (fold_left latestStep rest m).
Proof.
  revert seen m. induction rest as [| d rest IH]; intros seen m Hi Hm;
    cbn [fold_left].
  - now rewrite app_nil_r.
  - replace (seen ++ d :: rest) with ((seen ++ [d]) ++ rest)
      by (rewrite <- app_assoc; reflexivity).
    apply IH; [now apply latestStep_inv | now apply latestStep_max].
Qed.

Lemma latestMap_max (waterData : list Observation) :
  latest_max waterData (latestMap waterData).
Proof.
  unfold latestMap.
  apply (fold_latest_max waterData [] []);
    [apply latest_inv_nil | apply latest_max_nil].
Qed.

(** Every latest record is of the highest year of its location. *)
Lemma latestArr_max (waterData : list Observation) (d d' : Observation) :
  In d (latestArr waterData) -> In d' waterData ->
  location d' = location d -> year d' <= year d.
Proof.
  unfold latestArr. intros H H' Hl.
  apply (Permutation_in _ (Object_values_perm _)) in H.
  apply in_map_iff in H. destruct H as ([k v] & <- & H).
  cbn [snd] in *.
  destruct (entries_sound (latestMap_inv waterData) _ _ H) as [_ E].
  eapply entries_max;
    [apply latestMap_max | exact H | exact H' | now rewrite Hl].
Qed.

(** *** Stores with unique keys *)

Lemma uniqueKeys_eq (waterData : list Observation) (d1 d2 : Observation) :
  uniqueKeys waterData -> In d1 waterData -> In d2 waterData ->
  location d1 = location d2 -> year d1 = year d2 -> d1 = d2.
Proof.
  unfold uniqueKeys.
  induction waterData as [| d l IH]; cbn [map]; intros Hn H1 H2 Hl Hy;
    [contradiction |].
  inversion Hn as [| ? ? Hk Hn']; subst.
  assert (K : forall x, In x l -> keyOf x = keyOf d -> False).
  { intros x Hx E. apply Hk. rewrite <- E. now apply in_map. }
  destruct H1 as [<- | H1], H2 as [<- | H2].
  - reflexivity.
  - exfalso. apply (K d2 H2). unfold keyOf. congruence.
  - exfalso. apply (K d1 H1). unfold keyOf. congruence.
  - now apply IH.
Qed.

(** With unique keys, the latest record of the scan is the one that
    [getLatestByLocation] returns. *)
Lemma latestArr_is_latest (waterData : list Observation) (d : Observation) :
  uniqueKeys waterData -> In d (latestArr waterData) ->
  getLatestByLocation waterData (location d) = Some d.
Proof.
  intros Hu Hd.
  pose proof (latestArr_In waterData d Hd) as Hin.
  destruct (getLatestByLocation waterData (location d)) as [l |] eqn:E.
  - destruct (getLatestByLocation_Some _ _ _ E) as (Hl & Hloc & Hmax).
    f_equal. apply (uniqueKeys_eq waterData l d Hu Hl Hin Hloc).
    pose proof (Hmax d Hin eq_refl).
    pose proof (latestArr_max waterData d l Hd Hl Hloc). lia.
  - rewrite getLatestByLocation_None in E. now destruct (E d Hin).
Qed.

Lemma assignRanks_In (i : nat) (l : list Ranking.t) (r : Ranking.t) :
  In r (assignRanks i l) -> exists item k, In item l /\ r = setRank item k.
Proof.
  revert i. induction l as [| x l IH]; intros i; cbn [assignRanks];
    [contradiction |].
  intros [<- | H].
  - exists x, (i + 1)%nat. split; [now left | reflexivity].
  - destruct (IH _ H) as (item & k & Hi & ->).
    exists item, k. split; [now right | reflexivity].
Qed.

Lemma getRankings_In (waterData : list Observation) (r : Ranking.t) :
  In r (getRankings waterData) ->
  exists d k, In d (latestArr waterData)
              /\ r = setRank (rankingOf waterData d) k.
Proof.
  unfold getRankings. intros H.
  destruct (assignRanks_In _ _ _ H) as (item & k & Hi & ->).
  apply (Permutation_in _ (Permutation_sym (sort_perm by_score_desc _)))
    in Hi.
  apply in_map_iff in Hi. destruct Hi as (d & <- & Hd).
  now exists d, k.
Qed.

(** *** The two percentage changes *)

Lemma change_paths_agree (cur prv : number) :
  lt (Fin 0) prv = true ->
  same (relativeChange cur prv) (safeDiv cur prv).
Proof.
  unfold relativeChange, safeDiv, or_else, Math_abs.
  destruct prv as [p | | |]; try discriminate.
  - cbn [lt truthy strict_ne abs]. intros H. apply Qlt_bool_iff in H.
    assert (E : Qeq_bool p 0 = false).
    { apply not_true_is_false. intros E. apply Qeq_bool_iff in E.
      rewrite E in H. now apply Qlt_irrefl in H. }
    rewrite E. cbn [negb].
    assert (A : same (Fin (Qabs p)) (Fin p)).
    { cbn [same]. apply Qabs_pos. now apply Qlt_le_weak. }
    now rewrite A.
  - intros _. reflexivity.
Qed.

Lemma Forall2_maps (A B C : Type) (R : B -> C -> Prop)
    (f : A -> B) (g : A -> C) (l : list A) :
  (forall a, R (f a) (g a)) -> Forall2 R (map f l) (map g l).
Proof.
  intros H. induction l as [| a l IH]; cbn [map]; constructor; auto.
Qed.

Lemma changes_agree (p : Observation * Observation) :
  agree (yoyChange p) (yearlyChange p).
Proof.
  destruct p as [prv cur]. unfold agree, agreeOn, yoyChange, yearlyChange, change.
  cbn [YoY.from YoY.to YoY.waterLevelChange YoY.rainfallChange
         YoY.depletionChange YearlyChange.from YearlyChange.to
         YearlyChange.waterLevel YearlyChange.rainfall
         YearlyChange.depletion Change.prev Change.changePct].
  repeat split; apply change_paths_agree.
Qed.

End QueryFacts.

(** ** More on the synthetic series *)

Module SeriesFacts.
Import JS JS.Notations Data DataStore NumberFacts ScoreFacts RuntimeFacts
  ChangeFacts Generated.
Local Open Scope Q_scope.

Lemma finite_add (a b : number) : finite a -> finite b -> finite (add a b).
Proof. destruct a, b; try contradiction. intros _ _. exact I. Qed.

Lemma finite_mul (a b : number) : finite a -> finite b -> finite (mul a b).
Proof. destruct a, b; try contradiction. intros _ _. exact I. Qed.

Lemma finite_sub (a b : number) : finite a -> finite b -> finite (sub a b).
Proof. destruct a, b; try contradiction. intros _ _. exact I. Qed.

Lemma finite_div_200 (a : number) : finite a -> finite (div a (Fin 200)).
Proof. destruct a; try contradiction. intros _. exact I. Qed.

(** [Math.max(lo, a)] of a finite [a] is a finite number, at least
    [lo]. *)
Lemma floor_le (lo : Q) (a : number) :
  finite a ->
  finite (Math_max (Fin lo) a) /\ le (Fin lo) (Math_max (Fin lo) a) = true.
Proof.
  destruct a as [q | | |]; try contradiction. intros _.
  cbn [Math_max lt]. destruct (Qlt_bool lo q) eqn:E.
  - split; [exact I |]. cbn [le]. apply Qlt_bool_iff in E.
    apply Qle_bool_iff. lra.
  - split; [exact I |]. cbn [le]. apply Qle_bool_iff. lra.
Qed.

Lemma clamp_le (lo hi : Q) (a : number) :
  lo <= hi -> finite a ->
  le (Fin lo) (Math_max (Fin lo) (Math_min (Fin hi) a)) = true
  /\ le (Math_max (Fin lo) (Math_min (Fin hi) a)) (Fin hi) = true.
Proof.
  destruct a as [q | | |]; try contradiction. intros H _.
  destruct (clamp_Fin lo hi q H) as (c & -> & [H1 H2] & _).
  cbn [le]. split; now apply Qle_bool_iff.
Qed.

Ltac fin :=
  repeat first
    [ exact I | assumption | apply toFixed_finite | apply finite_add
    | apply finite_mul | apply finite_sub | apply finite_div_200 ].

(** What every generated record of another year than the base row's
    satisfies. *)
Lemma recordFor_bounds (baseRow : Observation) (hash yr : Z)
    (clock : nat -> Z) (n : nat) :
  allFinite baseRow -> yr <> year baseRow ->
  let r := fst (recordFor baseRow hash yr clock n) in
  withinBounds r
  /\ scarcityLevel r = classifyScarcity (depletionRate r) (rainfall r)
  /\ latitude r = Absent /\ longitude r = Absent.
Proof.
  intros (F1 & F2 & F3 & F4 & F5 & F6 & F7 & F8 & F9) Hne.
  unfold recordFor.
  destruct (yr =? year baseRow)%Z eqn:E; [apply Z.eqb_eq in E; contradiction |].
  unfold bind, new_Date, ret. cbn [fst]. unfold withinBounds.
  cbn [depletionRate rainfall groundwaterLevel consumption ph
         agriculturalUsage industrialUsage householdUsage perCapitaUsage
         scarcityLevel latitude longitude].
  set (offset := of_Z (yr - year baseRow)).
  set (variation := ((of_Z (Z.rem (Z.abs hash + yr) 100) - Fin 50)
                     / Fin 200)%num).
  assert (Fo : finite offset) by exact I.
  assert (Fv : finite variation) by (unfold variation; fin).
  repeat split;
    first [ now (apply clamp_le; [lra | fin]) | now (apply floor_le; fin) ].
Qed.

Lemma recordFor_shape (baseRow : Observation) (hash yr : Z)
    (clock : nat -> Z) (n : nat) :
  let r := fst (recordFor baseRow hash yr clock n) in
  location r = location baseRow
  /\ year r = yr
  /\ (yr = year baseRow -> r = baseRow).
Proof.
  unfold recordFor.
  destruct (yr =? year baseRow)%Z eqn:E.
  - apply Z.eqb_eq in E. cbn [ret fst]. repeat split. now symmetry.
  - apply Z.eqb_neq in E. unfold bind, new_Date, ret. cbn [fst].
    repeat split. intros H. contradiction.
Qed.

(** The results of the loop are the results of its body, one for each
    element. *)
Lemma forEach_results {A B : Type} (f : A -> Clock B) (xs : list A)
    (clock : nat -> Z) (n : nat) :
  Forall2 (fun x b => exists n', b = fst (f x clock n'))
    xs (fst (forEach f xs clock n)).
Proof.
  revert n. induction xs as [| x xs IH]; intros n; cbn [forEach].
  - constructor.
  - unfold bind at 1.
    destruct (f x clock n) as [b m] eqn:E. unfold bind.
    pose proof (IH m) as Hxs.
    destruct (forEach f xs clock m) as [bs k]. cbn [ret fst] in *.
    constructor; [| exact Hxs].
    exists n. now rewrite E.
Qed.

Lemma Forall2_In_r {A B : Type} (R : A -> B -> Prop) (xs : list A)
    (ys : list B) (y : B) :
  Forall2 R xs ys -> In y ys -> exists x, In x xs /\ R x y.
Proof.
  induction 1 as [| x0 y0 xs ys H0 H IH]; [contradiction |].
  intros [<- | Hy].
  - exists x0. split; [now left | exact H0].
  - destruct (IH Hy) as (x & Hx & Hr). exists x. split; [now right | exact Hr].
Qed.

Lemma Forall2_In_l {A B : Type} (R : A -> B -> Prop) (xs : list A)
    (ys : list B) (x : A) :
  Forall2 R xs ys -> In x xs -> exists y, In y ys /\ R x y.
Proof.
  induction 1 as [| x0 y0 xs ys H0 H IH]; [contradiction |].
  intros [<- | Hx].
  - exists y0. split; [now left | exact H0].
  - destruct (IH Hx) as (y & Hy & Hr). exists y. split; [now right | exact Hr].
Qed.

Lemma Forall2_map_r {A B C : Type} (R : A -> B -> Prop) (g : B -> C)
    (h : A -> C) (xs : list A) (ys : list B) :
  (forall x y, R x y -> g y = h x) ->
  Forall2 R xs ys -> map g ys = map h xs.
Proof.
  intros Hg. induction 1 as [| x y xs ys H0 H IH]; cbn [map]; [reflexivity |].
  now rewrite IH, (Hg x y H0).
Qed.

Lemma generated_years (baseRow : Observation) (clock : nat -> Z) (n : nat) :
  map year (fst (generateMultiYearData baseRow clock n)) = years.
Proof.
  unfold generateMultiYearData.
  erewrite (Forall2_map_r _ year (fun yr => yr));
    [apply map_id | | apply forEach_results].
  intros x y (n' & ->). apply recordFor_shape.
Qed.

End SeriesFacts.

(** ** The store *)

Module RegistryFacts.
Import JS JS.Notations Data DataStore NumberFacts ScoreFacts RuntimeFacts
  StoreFacts SeriesFacts Store Keys.
Local Open Scope Q_scope.

(** A decimal of [k] digits is its own rounding to [k] digits. *)
Lemma roundTo_exact (k : nat) (q : Q) (z : Z) :
  q * pow10 k == inject_Z z -> roundTo k q == q.
Proof.
  intros H. pose proof (pow10_pos k) as HP.
  assert (Hq : q == inject_Z z / pow10 k) by (rewrite <- H; field; lra).
  unfold roundTo. destruct (Qlt_bool q 0) eqn:E.
  - apply Qlt_bool_iff in E.
    assert (A : Qabs q * pow10 k == inject_Z (- z)).
    { rewrite Qabs_neg by lra. rewrite inject_Z_opp, <- H. ring. }
    rewrite A, Qfloor_half, inject_Z_opp, Hq. field. lra.
  - apply Qlt_bool_false in E.
    assert (A : Qabs q * pow10 k == inject_Z z).
    { rewrite Qabs_pos by lra. exact H. }
    rewrite A, Qfloor_half, Hq. reflexivity.
Qed.

Lemma toFixed_exact (k : nat) (q : Q) (z : Z) :
  q * pow10 k == inject_Z z -> Qabs q < pow10 21 ->
  same (toFixed k (Fin q)) (Fin q).
Proof.
  intros H B. unfold toFixed.
  destruct (Qle_bool (pow10 21) (Qabs q)) eqn:E.
  - reflexivity.
  - cbn [same]. now apply (roundTo_exact k q z).
Qed.

Lemma pow10_6 : pow10 6 == 1000000.
Proof. reflexivity. Qed.

Lemma pow10_21_big : 1000 < pow10 21.
Proof. reflexivity. Qed.

(** A coordinate: the centre and an offset of [r / 500 * 0.8 - 0.4]. *)
Lemma coordinate_exact (centre : Z) (r : Z) :
  (0 <= centre <= 1000000)%Z -> (- 500 < r < 500)%Z ->
  same
    (toFixed 6
       (Fin (inject_Z centre / 10000)
        + (of_Z r / Fin 500 * Fin 0.8 - Fin 0.4))%num)
    (Fin ((inject_Z centre - 4000 + 16 * inject_Z r) / 10000)).
Proof.
  intros Hc Hr. unfold of_Z. cbn [div add sub mul neg].
  change (Qeq_bool 500 0) with false. cbv iota.
  assert (Rlo : - (500) < inject_Z r)
    by (change (- (500)) with (inject_Z (-500)); rewrite <- Zlt_Qlt; lia).
  assert (Rhi : inject_Z r < 500)
    by (change 500 with (inject_Z 500); rewrite <- Zlt_Qlt; lia).
  assert (Clo : 0 <= inject_Z centre)
    by (change 0 with (inject_Z 0); rewrite <- Zle_Qle; lia).
  assert (Chi : inject_Z centre <= 1000000)
    by (change 1000000 with (inject_Z 1000000); rewrite <- Zle_Qle; lia).
  cbn [div add sub mul neg].
  set (q := inject_Z centre / 10000 + (inject_Z r / 500 * 0.8 + Qopp 0.4)).
  assert (Hq : q == (inject_Z centre - 4000 + 16 * inject_Z r) / 10000)
    by (unfold q; field).
  rewrite (toFixed_exact 6 q (100 * centre + -400000 + 1600 * r)).
  - cbn [same]. exact Hq.
  - rewrite pow10_6, Hq.
    rewrite !inject_Z_plus, !inject_Z_mult.
    change (inject_Z 100) with 100.
    change (inject_Z (-400000)) with (- (400000)).
    change (inject_Z 1600) with 1600. field.
  - apply Qlt_trans with 1000; [| apply pow10_21_big].
    apply Qabs_Qlt_condition. rewrite Hq. split.
    + apply Qlt_shift_div_l; lra.
    + apply Qlt_shift_div_r; lra.
Qed.

Lemma rem_500 (a : Z) : (- 500 < Z.rem a 500 < 500)%Z.
Proof.
  pose proof (Z.rem_bound_abs a 500). lia.
Qed.

(** The fallback coordinates: 16/10000 of a degree for each unit of the
    remainder, around 19.5975 and 73.3898. *)
Lemma generateCoordinates_exact (locationName : jsstring) :
  exists r s : Z,
    (- 500 < r < 500)%Z /\ (- 500 < s < 500)%Z
    /\ same (Coordinates.latitude (generateCoordinates locationName))
         (Fin ((195975 + 16 * inject_Z r) / 10000))
    /\ same (Coordinates.longitude (generateCoordinates locationName))
         (Fin ((733898 + 16 * inject_Z s) / 10000)).
Proof.
  exists (Z.rem (nameHash locationName) 500),
    (Z.rem (Z.shiftr (nameHash locationName) 8) 500).
  split; [apply rem_500 |]. split; [apply rem_500 |].
  unfold generateCoordinates.
  cbn [Coordinates.latitude Coordinates.longitude].
  split.
  - assert (C : same (Fin 19.9975) (Fin (inject_Z 199975 / 10000)))
      by reflexivity.
    rewrite C, coordinate_exact by (try apply rem_500; lia).
    cbn [same]. change (inject_Z 199975) with 199975. field.
  - assert (C : same (Fin 73.7898) (Fin (inject_Z 737898 / 10000)))
      by reflexivity.
    rewrite C, coordinate_exact by (try apply rem_500; lia).
    cbn [same]. change (inject_Z 737898) with 737898. field.
Qed.

(** *** Keys *)

Lemma sameKey_iff (row d : Observation) :
  sameKey row d = true <-> keyOf d = keyOf row.
Proof.
  unfold sameKey, keyOf. rewrite andb_true_iff, str_eqb_eq, Z.eqb_eq.
  split; [intros [-> ->]; reflexivity | intros H; now injection H].
Qed.

Lemma sameKey_false (row d : Observation) :
  sameKey row d = false <-> keyOf d <> keyOf row.
Proof.
  rewrite <- sameKey_iff. destruct (sameKey row d); split; congruence.
Qed.

Lemma addRow_In (st : state) (row d : Observation) :
  In d (waterData (addRow st row))
  <-> (In d (waterData st) /\ keyOf d <> keyOf row) \/ d = row.
Proof.
  unfold addRow. cbn [waterData].
  rewrite in_app_iff, filter_In, negb_true_iff, sameKey_false.
  cbn [In]. intuition auto.
Qed.

Lemma NoDup_map_filter (A B : Type) (g : A -> B) (f : A -> bool)
    (l : list A) :
  NoDup (map g l) -> NoDup (map g (filter f l)).
Proof.
  induction l as [| a l IH]; cbn [map filter]; intros H; [constructor |].
  inversion H as [| ? ? Ha Hl]; subst.
  destruct (f a); cbn [map]; [| now apply IH].
  constructor; [| now apply IH].
  intros Hin. apply Ha. apply in_map_iff in Hin.
  destruct Hin as (x & E & Hx). apply filter_In in Hx.
  rewrite <- E. apply in_map. tauto.
Qed.

Lemma addRow_unique (st : state) (row : Observation) :
  uniqueKeys (waterData st) -> uniqueKeys (waterData (addRow st row)).
Proof.
  unfold uniqueKeys, addRow. cbn [waterData]. intros H.
  rewrite map_app. cbn [map]. apply NoDup_app.
  - now apply NoDup_map_filter.
  - repeat constructor. cbn. tauto.
  - intros k Hk [<- | []]. apply in_map_iff in Hk.
    destruct Hk as (d & E & Hd). apply filter_In in Hd.
    destruct Hd as [_ Hd]. apply negb_true_iff, sameKey_false in Hd.
    contradiction.
Qed.

Lemma addWaterData_unique (rows : list Observation) (st : state) :
  uniqueKeys (waterData st) ->
  uniqueKeys (waterData (addWaterData st rows)).
Proof.
  unfold addWaterData. revert st.
  induction rows as [| row rows IH]; intros st H; cbn [fold_left];
    [exact H |].
  apply IH. now apply addRow_unique.
Qed.

(** The records after an upload: those of the store that no row
    replaces, and of the rows with one key the last one. *)
Lemma addWaterData_In (rows : list Observation) (st : state)
    (d : Observation) :
  In d (waterData (addWaterData st rows))
  <-> (In d (waterData st)
       /\ forall row, In row rows -> keyOf row <> keyOf d)
      \/ (exists before after,
             rows = before ++ d :: after
             /\ forall row, In row after -> keyOf row <> keyOf d).
Proof.
  unfold addWaterData. revert st.
  induction rows as [| row rows IH]; intros st; cbn [fold_left].
  - split.
    + intros H. left. split; [exact H | intros row []].
    + intros [[H _] | (before & after & E & _)]; [exact H |].
      now destruct before.
  - rewrite IH, addRow_In. split.
    + intros [[[[H Hne] | ->] Hall] | (before & after & -> & Hall)].
      * left. split; [exact H |].
        intros r [<- | Hr]; [congruence | now apply Hall].
      * right. exists [], rows. split; [reflexivity | exact Hall].
      * right. exists (row :: before), after. split; [reflexivity | exact Hall].
    + intros [[H Hall] | (before & after & E & Hall)].
      * left. split.
        -- left. split; [exact H |].
           intros E. apply (Hall row); [now left | now symmetry].
        -- intros r Hr. apply Hall. now right.
      * destruct before as [| b before]; cbn [app] in E.
        -- injection E as -> ->. left. split; [now right | exact Hall].
        -- injection E as -> ->. right. now exists before, after.
Qed.

(** *** The registry of locations *)

Lemma known_iff (ls : list Location.t) (name : jsstring) :
  known ls name = true <-> In name (map Location.name ls).
Proof.
  unfold known. rewrite existsb_exists, in_map_iff.
  split; intros (l & H1 & H2).
  - apply str_eqb_eq in H2. now exists l.
  - exists l. split; [exact H2 | now apply str_eqb_eq].
Qed.

Lemma addRow_locations (st : state) (row : Observation) :
  (exists added, locations (addRow st row) = locations st ++ added)
  /\ known (locations (addRow st row)) (location row) = true
  /\ (NoDup (map Location.name (locations st)) ->
      NoDup (map Location.name (locations (addRow st row))))
  /\ (forall name,
         In name (map Location.name (locations (addRow st row)))
         <-> In name (map Location.name (locations st))
             \/ name = location row).
Proof.
  unfold addRow. cbn [locations].
  destruct (known (locations st) (location row)) eqn:K.
  - split; [exists []; now rewrite app_nil_r |].
    split; [exact K |]. split; [tauto |].
    intros name. apply known_iff in K. split; [tauto |].
    intros [H | ->]; assumption.
  - assert (K' : ~ In (location row) (map Location.name (locations st))).
    { rewrite <- known_iff. congruence. }
    split; [now eexists |]. split; [| split].
    + apply known_iff. rewrite map_app. apply in_or_app. right. now left.
    + intros H. rewrite map_app. cbn [map locationOf Location.name].
      apply NoDup_app; [exact H | repeat constructor; cbn; tauto |].
      intros k Hk [<- | []]. contradiction.
    + intros name. rewrite map_app, in_app_iff.
      cbn [map locationOf Location.name In]. intuition auto.
Qed.

Lemma addWaterData_locations (rows : list Observation) (st : state) :
  (exists added,
      locations (addWaterData st rows) = locations st ++ added)
  /\ (NoDup (map Location.name (locations st)) ->
      NoDup (map Location.name (locations (addWaterData st rows))))
  /\ (forall name,
         In name (map Location.name (locations (addWaterData st rows)))
         <-> In name (map Location.name (locations st))
             \/ In name (map location rows)).
Proof.
  unfold addWaterData. revert st.
  induction rows as [| row rows IH]; intros st; cbn [fold_left].
  - split; [exists []; now rewrite app_nil_r |].
    split; [tauto |]. intros name. cbn. tauto.
  - destruct (IH (addRow st row)) as ((added2 & E2) & N2 & I2).
    destruct (addRow_locations st row) as ((added1 & E1) & _ & N1 & I1).
    split; [| split].
    + exists (added1 ++ added2). now rewrite E2, E1, app_assoc.
    + intros H. apply N2, N1, H.
    + intros name. rewrite I2, I1. cbn [map In]. intuition auto.
Qed.

(** *** Loading *)

Lemma generated_keys (baseRow : Observation) (clock : nat -> Z) (n : nat) :
  map keyOf (fst (generateMultiYearData baseRow clock n))
  = map (fun yr => (location baseRow, yr)) years.
Proof.
  unfold generateMultiYearData.
  apply (Forall2_map_r
           (fun yr r =>
              exists n', r = fst (recordFor baseRow
                                    (nameHash (location baseRow))
                                    yr clock n'))).
  - intros yr r (n' & ->). unfold keyOf.
    destruct (recordFor_shape baseRow (nameHash (location baseRow)) yr
                clock n') as (-> & -> & _).
    reflexivity.
  - apply forEach_results.
Qed.

Lemma generateAll_keys (rows : list Observation) (clock : nat -> Z)
    (n : nat) :
  map keyOf (fst (generateAll rows clock n))
  = flat_map (fun row => map (fun yr => (location row, yr)) years) rows.
Proof.
  revert n. induction rows as [| row rows IH]; intros n;
    cbn [generateAll flat_map].
  - reflexivity.
  - unfold bind at 1.
    pose proof (generated_keys row clock n) as K.
    destruct (generateMultiYearData row clock n) as [multiYear m].
    unfold bind. pose proof (IH m) as Krest.
    destruct (generateAll rows clock m) as [rest k].
    cbn [ret fst] in *. now rewrite map_app, K, Krest.
Qed.

Lemma years_nodup : NoDup years.
Proof.
  unfold years. repeat constructor; cbn; intuition discriminate.
Qed.

Lemma row_keys_nodup (name : jsstring) :
  NoDup (map (fun yr : Z => (name, yr)) years).
Proof.
  assert (G : forall l : list Z,
             NoDup l -> NoDup (map (fun yr : Z => (name, yr)) l)).
  { induction 1 as [| y l Hy Hl IH]; cbn [map]; constructor; [| exact IH].
    intros H. apply in_map_iff in H. destruct H as (y' & E & Hy').
    injection E as ->. contradiction. }
  apply G, years_nodup.
Qed.

Lemma generateAll_unique (rows : list Observation) (clock : nat -> Z)
    (n : nat) :
  NoDup (map location rows) ->
  uniqueKeys (fst (generateAll rows clock n)).
Proof.
  unfold uniqueKeys. rewrite generateAll_keys. clear clock n.
  induction rows as [| row rows IH]; cbn [map flat_map]; intros H.
  - constructor.
  - inversion H as [| ? ? Hrow Hrows]; subst.
    apply NoDup_app; [apply row_keys_nodup | now apply IH |].
    intros k Hk Hk'. apply in_map_iff in Hk. destruct Hk as (yr & <- & _).
    apply in_flat_map in Hk'. destruct Hk' as (row' & Hr & Hk').
    apply in_map_iff in Hk'. destruct Hk' as (yr' & E & _).
    injection E as E _. apply Hrow. rewrite <- E. now apply in_map.
Qed.

Lemma generateAll_length (rows : list Observation) (clock : nat -> Z)
    (n : nat) :
  List.length (fst (generateAll rows clock n)) = (6 * List.length rows)%nat.
Proof.
  rewrite <- (length_map keyOf), generateAll_keys.
  induction rows as [| row rows IH]; cbn [flat_map List.length];
    [reflexivity |].
  rewrite length_app, IH, length_map. cbn [years List.length]. lia.
Qed.

Lemma generateAll_locations (rows : list Observation) (clock : nat -> Z)
    (n : nat) (d : Observation) :
  In d (fst (generateAll rows clock n)) ->
  In (location d) (map location rows) /\ In (year d) years.
Proof.
  intros H. apply (in_map keyOf) in H. rewrite generateAll_keys in H.
  apply in_flat_map in H. destruct H as (row & Hr & H).
  apply in_map_iff in H. destruct H as (yr & E & Hy).
  unfold keyOf in E. injection E as E1 E2. subst yr. rewrite <- E1.
  split; [now apply in_map | exact Hy].
Qed.

Lemma uniqueLocations_names (rows : list Observation)
    (seen : list jsstring) :
  NoDup (map Location.name (uniqueLocations seen rows))
  /\ forall name,
       In name (map Location.name (uniqueLocations seen rows))
       <-> In name (map location rows) /\ ~ In name seen.
Proof.
  revert seen. induction rows as [| r rows IH]; intros seen;
    cbn [uniqueLocations map].
  - split; [constructor | cbn; tauto].
  - destruct (existsb (str_eqb (location r)) seen) eqn:E.
    + apply existsb_str_eqb in E. destruct (IH seen) as [N I].
      split; [exact N |]. intros name. rewrite I. cbn [In].
      split; [tauto |]. intros [[<- | H] Hs]; tauto.
    + assert (E' : ~ In (location r) seen)
        by (rewrite <- existsb_str_eqb; congruence).
      destruct (IH (location r :: seen)) as [N I].
      cbn [map locationOf Location.name]. split.
      * constructor; [| exact N]. rewrite I. cbn [In]. tauto.
      * intros name. cbn [In]. rewrite I. cbn [In].
        destruct (list_eq_dec N.eq_dec (location r) name) as [Heq | Hne];
          [rewrite Heq in E' |]; intuition congruence.
Qed.

(** *** The heat map *)

Lemma some_eq (A : Type) (x y : A) : Some x = Some y -> x = y.
Proof. congruence. Qed.

Lemma dropNull_In (A : Type) (xs : list (option A)) (x : A) :
  In x (dropNull xs) <-> In (Some x) xs.
Proof.
  induction xs as [| [y |] xs IH]; cbn [dropNull In].
  - tauto.
  - rewrite IH. split; intros [H | H]; auto; left; congruence.
  - rewrite IH. split; [tauto |]. intros [H | H]; [discriminate | exact H].
Qed.

Lemma intensity_exact (z : Z) :
  (0 <= z <= 100)%Z ->
  exists c,
    toFixed 2 (Math_max (Fin 0.1) ((Fin 100 - of_Z z) / Fin 100))%num = Fin c
    /\ 0.1 <= c <= 1
    /\ same (Fin c) (Math_max (Fin 0.1) ((Fin 100 - of_Z z) / Fin 100))%num.
Proof.
  intros Hz. unfold of_Z. cbn [sub add neg div].
  change (Qeq_bool 100 0) with false. cbv iota.
  assert (Zlo : 0 <= inject_Z z)
    by (change 0 with (inject_Z 0); rewrite <- Zle_Qle; lia).
  assert (Zhi : inject_Z z <= 100)
    by (change 100 with (inject_Z 100); rewrite <- Zle_Qle; lia).
  set (q := (100 + - inject_Z z) / 100).
  assert (Hq : q == (100 - inject_Z z) / 100) by (unfold q; field).
  assert (Hq' : q * 100 == 100 - inject_Z z) by (rewrite Hq; field).
  assert (P2 : pow10 2 == 100) by reflexivity.
  cbn [Math_max lt]. destruct (Qlt_bool 0.1 q) eqn:E.
  - apply Qlt_bool_iff in E.
    assert (X : same (toFixed 2 (Fin q)) (Fin q)).
    { apply (toFixed_exact 2 q (100 + - z)).
      - rewrite P2, Hq', inject_Z_plus, inject_Z_opp.
        change (inject_Z 100) with 100. ring.
      - apply Qlt_trans with 1000; [| apply pow10_21_big].
        apply Qabs_Qlt_condition. lra. }
    destruct (toFixed_fin 2 q) as (w & Ew). rewrite Ew in X |- *.
    cbn [same] in X. exists w. split; [reflexivity |].
    split; [lra | exact X].
  - apply Qlt_bool_false in E.
    assert (X : same (toFixed 2 (Fin 0.1)) (Fin 0.1)) by reflexivity.
    destruct (toFixed_fin 2 0.1) as (w & Ew). rewrite Ew in X |- *.
    cbn [same] in X. exists w. split; [reflexivity |].
    split; [lra | exact X].
Qed.

(** *** The extended statistics *)

Lemma trend_counts (rankings : list Ranking.t) (c : trendCounts) :
  let c' := fold_left trendStep rankings c in
  (improving c' + stable c' + declining c'
   = improving c + stable c + declining c + List.length rankings)%nat.
Proof.
  revert c. induction rankings as [| r l IH]; intros c;
    cbn [fold_left List.length].
  - cbv zeta. lia.
  - cbv zeta in IH |- *. rewrite IH. unfold trendStep.
    destruct (String.eqb (Ranking.trend r) "improving");
      [cbn [improving stable declining]; lia |].
    destruct (String.eqb (Ranking.trend r) "declining");
      cbn [improving stable declining]; lia.
Qed.

Lemma find_known (ls : list Location.t) (name : jsstring) :
  known ls name = true ->
  exists l, getLocationByName ls name = Some l /\ Location.name l = name.
Proof.
  unfold known, getLocationByName. intros H.
  destruct (find (fun l => str_eqb (Location.name l) name) ls) as [l |] eqn:E.
  - exists l. split; [reflexivity |].
    apply find_some in E. now apply str_eqb_eq.
  - apply existsb_exists in H. destruct H as (l & Hl & Hn).
    pose proof (find_none _ _ E l Hl) as F. cbv beta in F. congruence.
Qed.

End RegistryFacts.

(** ** Time stamps of the series, and scores of infinite metrics *)

Module StampFacts.
Import JS JS.Notations Data WaterScore DataStore NumberFacts ScoreFacts
  StoreFacts RankingFacts Generated Metrics.
Local Open Scope Q_scope.

(** What holds of the results of the body for any two clocks holds of
    the results of the loop, record by record. *)
Lemma forEach_related {A : Type} (R : Observation -> Observation -> Prop)
    (f : A -> Clock Observation) (xs : list A) :
  (forall x clock1 clock2 n1 n2,
      R (fst (f x clock1 n1)) (fst (f x clock2 n2))) ->
  forall clock1 clock2 n1 n2,
    Forall2 R (fst (forEach f xs clock1 n1)) (fst (forEach f xs clock2 n2)).
Proof.
  intros Hf. induction xs as [| x xs IH]; intros clock1 clock2 n1 n2.
  - constructor.
  - cbn [forEach]. unfold bind at 1 3.
    pose proof (Hf x clock1 clock2 n1 n2) as Hx.
    destruct (f x clock1 n1) as [a m1], (f x clock2 n2) as [b m2].
    unfold bind.
    pose proof (IH clock1 clock2 m1 m2) as Hxs.
    destruct (forEach f xs clock1 m1) as [l1 k1],
      (forEach f xs clock2 m2) as [l2 k2].
    cbn [ret fst] in *. now constructor.
Qed.

(** The record of one target year: the base row itself in its own year,
    whatever the clock. *)
Lemma recordFor_base (baseRow : Observation) (hash yr : Z)
    (clock1 clock2 : nat -> Z) (n1 n2 : nat) :
  let a := fst (recordFor baseRow hash yr clock1 n1) in
  let b := fst (recordFor baseRow hash yr clock2 n2) in
  same_but_lastUpdated a b
  /\ (year a = year baseRow -> a = baseRow /\ b = baseRow).
Proof.
  cbv zeta. split; [apply GeneratorFacts.recordFor_clock |].
  unfold recordFor. destruct (yr =? year baseRow)%Z eqn:E.
  - intros _. split; reflexivity.
  - apply Z.eqb_neq in E. unfold bind, new_Date, ret. cbn [fst year].
    intros H. contradiction.
Qed.

Lemma forEach_cons {A B : Type} (f : A -> Clock B) (x : A) (xs : list A)
    (clock : nat -> Z) (n : nat) :
  forEach f (x :: xs) clock n
  = (fst (f x clock n) :: fst (forEach f xs clock (snd (f x clock n))),
     snd (forEach f xs clock (snd (f x clock n)))).
Proof.
  cbn [forEach]. unfold bind, ret.
  destruct (f x clock n) as [b m]. cbn [fst snd].
  now destruct (forEach f xs clock m).
Qed.

(** The clock reading of one target year: none for the base row's own
    year, one for any other, kept as [lastUpdated]. *)
Lemma recordFor_stamp (baseRow : Observation) (hash yr : Z)
    (clock : nat -> Z) (n : nat) :
  let r := recordFor baseRow hash yr clock n in
  if (yr =? year baseRow)%Z
  then fst r = baseRow /\ snd r = n
  else year (fst r) = yr /\ lastUpdated (fst r) = Val (clock n)
       /\ snd r = S n.
Proof.
  cbv zeta. unfold recordFor. destruct (yr =? year baseRow)%Z.
  - split; reflexivity.
  - unfold bind, new_Date, ret. repeat split.
Qed.

(** The loop reads the clock once for every record it builds itself,
    and stamps the record with that reading. *)
Lemma forEach_stamps (baseRow : Observation) (hash : Z) (yrs : list Z)
    (clock : nat -> Z) (n : nat) :
  let r := forEach (recordFor baseRow hash) yrs clock n in
  stampedBy clock n (synthesized baseRow (fst r))
  /\ snd r = (n + List.length (synthesized baseRow (fst r)))%nat.
Proof.
  cbv zeta. unfold stampedBy. revert n.
  induction yrs as [| yr yrs IH]; intros n.
  - cbn. split; [reflexivity | lia].
  - rewrite forEach_cons. cbn [fst snd].
    pose proof (recordFor_stamp baseRow hash yr clock n) as S.
    cbv zeta in S.
    destruct (recordFor baseRow hash yr clock n) as [r m].
    cbn [fst snd] in *. destruct (IH m) as [IH1 IH2].
    unfold synthesized in *. cbn [filter].
    destruct (yr =? year baseRow)%Z eqn:E.
    + destruct S as [-> ->]. rewrite Z.eqb_refl. cbn [negb].
      split; assumption.
    + destruct S as (Y & L & ->). rewrite Y, E.
      cbn [negb map List.length seq]. rewrite L, IH1, IH2.
      split; [reflexivity | lia].
Qed.

(** The score when no metric is [NaN]: infinite metrics are clamped
    like any other. *)
Lemma score_integer_numeric (d : Observation) :
  numeric d ->
  exists z, calculateWaterScore d = of_Z z /\ (0 <= z <= 100)%Z.
Proof.
  intros (Hg & Hr & Hd & Hp). score_components d.
  destruct (normalize_cases (groundwaterLevel d) 4 20 true)
    as [[E _] | [_ (q1 & E1 & _)]];
    [reflexivity | contradiction |].
  destruct (normalize_cases (rainfall d) 500 1500 false)
    as [[E _] | [_ (q2 & E2 & _)]];
    [reflexivity | contradiction |].
  destruct (normalize_cases (depletionRate d) 0 10 true)
    as [[E _] | [_ (q3 & E3 & _)]];
    [reflexivity | contradiction |].
  destruct (normalize_cases (Math_abs (ph d - Fin 7.0)%num) 0 1.5 true)
    as [[E _] | [_ (q4 & E4 & _)]];
    [reflexivity | destruct (ph d); try discriminate; contradiction |].
  rewrite E1, E2, E3, E4. cbn [add mul]. apply finish_fin.
Qed.

Lemma rankings_scores_numeric (waterData : list Observation) :
  (forall d, In d waterData -> numeric d) ->
  Forall (fun r => finite (Ranking.waterScore r))
    (map (rankingOf waterData) (latestArr waterData)).
Proof.
  intros Hn. apply Forall_forall. intros r Hr.
  apply in_map_iff in Hr. destruct Hr as (d & <- & Hd).
  apply latestArr_In, Hn in Hd.
  destruct (score_integer_numeric d Hd) as (z & E & _).
  cbn. rewrite E. exact I.
Qed.

End StampFacts.

(** ** The properties of the specification *)

Section Claims.
Import JS JS.Notations Data NumberFacts RuntimeFacts.
Import WaterScore DataStore.

(** C1, as stated, fails: every generated record carries
    [lastUpdated: new Date()], so a second call made after the clock has
    moved returns a different series. *)
Lemma C1_counterexample :
  let baseRow := Samples.sample "Nashik" 2018 10 800 4 7.2 in
  let twice :=
    bind (generateMultiYearData baseRow) (fun first =>
    bind (generateMultiYearData baseRow) (fun second =>
    ret (first, second))) in
  fst (fst (twice Samples.ticking O)) <> snd (fst (twice Samples.ticking O)).
Proof.
  cbv zeta. intros H. vm_compute in H. discriminate H.
Qed.

(** C1, amended.  Two calls of [generateMultiYearData] with the same base
    row, whatever the clock shows, return series that agree record by
    record on every property other than [lastUpdated]; the record of the
    base row's own year is the base row itself in both, [lastUpdated]
    included; and the records of the other years carry, in order, the
    clock readings of their call as [lastUpdated], one reading each. *)
Theorem C1_generator_deterministic_but_timestamp (baseRow : Observation)
    (clock1 clock2 : nat -> Z) (n1 n2 : nat) :
  let first := fst (generateMultiYearData baseRow clock1 n1) in
  let second := fst (generateMultiYearData baseRow clock2 n2) in
  Forall2
    (fun a b =>
       same_but_lastUpdated a b
       /\ (year a = year baseRow -> a = baseRow /\ b = baseRow))
    first second
  /\ Generated.stampedBy clock1 n1 (Generated.synthesized baseRow first)
  /\ Generated.stampedBy clock2 n2 (Generated.synthesized baseRow second).
Proof.
  cbv zeta. unfold generateMultiYearData. split; [| split].
  - apply (StampFacts.forEach_related
             (fun a b =>
                same_but_lastUpdated a b
                /\ (year a = year baseRow -> a = baseRow /\ b = baseRow))).
    intros yr c1 c2 m1 m2. apply StampFacts.recordFor_base.
  - apply StampFacts.forEach_stamps.
  - apply StampFacts.forEach_stamps.
Qed.

(** C2, as stated, fails: three observations give two year-over-year
    rises, the run counter stops at 2 and no trend alert is pushed. *)
Lemma C2_counterexample :
  ~ exists a,
      In a (fst (AlertEngine.generateAlerts
                   (Samples.sample "A" 2018 7 900 2 7.2)
                   (Some Samples.rising3) Samples.ticking O))
      /\ AlertEngine.sustainedDecline a 3.
Proof.
  intros (a & Hin & _). vm_compute in Hin. exact Hin.
Qed.

(** C2, amended.  For a history of exactly four observations in
    chronological order whose groundwater level rises strictly from each
    year to the next (three rises in a row), [generateAlerts] emits the
    sustained-decline trend alert with [value] 3. *)
Theorem C2_sustained_decline_after_three_rises
    (data h1 h2 h3 h4 : Observation) (clock : nat -> Z) (n : nat) :
  (year h1 < year h2)%Z -> (year h2 < year h3)%Z -> (year h3 < year h4)%Z ->
  gt (groundwaterLevel h2) (groundwaterLevel h1) = true ->
  gt (groundwaterLevel h3) (groundwaterLevel h2) = true ->
  gt (groundwaterLevel h4) (groundwaterLevel h3) = true ->
  exists a,
    In a (fst (AlertEngine.generateAlerts data (Some [h1; h2; h3; h4])
                 clock n))
    /\ AlertEngine.sustainedDecline a 3.
Proof.
  intros Y12 Y23 Y34 G21 G32 G43.
  unfold AlertEngine.generateAlerts, bind, new_Date, ret. cbn [fst].
  change (3 <=? List.length [h1; h2; h3; h4])%nat with true. cbv iota.
  rewrite HistoryFacts.sort_by_year_id
    by (repeat constructor; lia).
  assert (Hrun : AlertEngine.consecutiveRise [h1; h2; h3; h4] = 3%nat).
  { unfold AlertEngine.consecutiveRise, AlertEngine.consecutive.
    cbn [AlertEngine.run]. now rewrite G21, G32, G43. }
  unfold AlertEngine.waterLevelTrendAlerts. rewrite Hrun.
  cbn [Nat.leb].
  eexists. split.
  - apply in_or_app. right. apply in_or_app. left. left. reflexivity.
  - repeat split.
Qed.

Lemma C2_witness :
  exists a,
    In a (fst (AlertEngine.generateAlerts
                 (Samples.sample "A" 2019 8 900 2 7.2)
                 (Some Samples.rising4) Samples.ticking O))
    /\ AlertEngine.sustainedDecline a 3.
Proof.
  apply (C2_sustained_decline_after_three_rises
           (Samples.sample "A" 2019 8 900 2 7.2)
           (Samples.sample "A" 2016 5 900 2 7.2)
           (Samples.sample "A" 2017 6 900 2 7.2)
           (Samples.sample "A" 2018 7 900 2 7.2)
           (Samples.sample "A" 2019 8 900 2 7.2)
           Samples.ticking O);
    try reflexivity.
Defined.

(** C3.  The claim fails for the summary.  For a depletion rate that goes
    from 0 to 2, [getLocationSummary] divides by [prv || 1] and reports a
    change of 200, where the claim asks for 0; on the same records
    [getYearlyChanges] reports 0. *)
Theorem C3_summary_change_from_zero :
  (exists s c,
     getLocationSummary Samples.fromZero (js "A") = Some s
     /\ Summary.yoyChanges s = [c]
     /\ same (YoY.depletionChange c) (Fin 200)
     /\ ~ same (YoY.depletionChange c) (Fin 0))
  /\ map (fun c => Change.changePct (YearlyChange.depletion c))
       (getYearlyChanges Samples.fromZero (js "A"))
     = [Fin 0].
Proof.
  split.
  - eexists. eexists. split; [vm_compute; reflexivity |].
    split; [reflexivity |]. split; vm_compute; [reflexivity | discriminate].
  - vm_compute. reflexivity.
Qed.

(** C4.  With fewer than two yearly records for the location, the
    predictions endpoint answers with status 400 and the failure message
    that names the missing history; it returns no prediction list. *)
Theorem C4_predictions_need_two_years (sqrtQ : Q -> Q)
    (parseInt : option jsstring -> number)
    (waterData : list Observation) (req : WaterController.Request.t) :
  (List.length
     (getWaterByLocation waterData (WaterController.Request.location req))
   < 2)%nat ->
  WaterController.getPredictions sqrtQ parseInt waterData req
  = Some {| WaterController.Response.status := 400;
            WaterController.Response.json :=
              WaterController.Failure
                "Need at least 2 years of data for predictions" |}.
Proof.
  intros H. unfold WaterController.getPredictions.
  apply Nat.ltb_lt in H. now rewrite H.
Qed.

Lemma C4_witness :
  (List.length
     (getWaterByLocation [Samples.sample "A" 2020 10 800 4 7.2] (js "A"))
   < 2)%nat
  /\ WaterController.getPredictions (fun q => q) (fun _ => NaN)
       [Samples.sample "A" 2020 10 800 4 7.2]
       {| WaterController.Request.location := js "A";
          WaterController.Request.years := None |}
     = Some {| WaterController.Response.status := 400;
               WaterController.Response.json :=
                 WaterController.Failure
                   "Need at least 2 years of data for predictions" |}.
Proof.
  assert (H : (List.length
                 (getWaterByLocation [Samples.sample "A" 2020 10 800 4 7.2]
                    (js "A")) < 2)%nat)
    by (vm_compute; lia).
  split; [exact H |].
  exact (C4_predictions_need_two_years (fun q => q) (fun _ => NaN)
           [Samples.sample "A" 2020 10 800 4 7.2]
           {| WaterController.Request.location := js "A";
              WaterController.Request.years := None |} H).
Defined.

(** C5, as stated, fails: two locations with the same score are ranked
    one after the other, so the scores are not strictly descending. *)
Lemma C5_counterexample :
  ~ StronglySorted (fun x y => gt x y = true)
      (map Ranking.waterScore (getRankings Samples.tied)).
Proof.
  intros H. vm_compute in H.
  inversion H as [| ? ? _ Hhd]; subst.
  inversion Hhd as [| ? ? Hgt _]; subst. discriminate Hgt.
Qed.

(** A location named like a member of [Object.prototype] never enters the
    latest-per-location object, so it is not ranked. *)
Lemma inherited_name_not_ranked :
  getRankings [Samples.sample "constructor" 2020 10 800 4 7.2] = [].
Proof. vm_compute. reflexivity. Qed.

(** A metric that is [NaN] gives a score that is [NaN], and no order
    holds between [NaN] and a number: in whatever order the two entries
    come, the scores are not in descending order. *)
Lemma nan_score_not_ordered :
  let store :=
    [Samples.sample "A" 2020 10 800 4 7.2;
     withRainfall (Samples.sample "B" 2020 10 800 4 7.2) NaN] in
  ~ StronglySorted (fun x y => ge x y = true)
      (map Ranking.waterScore (getRankings store))
  /\ ~ StronglySorted (fun x y => ge x y = true)
        (rev (map Ranking.waterScore (getRankings store))).
Proof.
  cbv zeta. split; intros H; vm_compute in H;
    inversion H as [| ? ? _ Hhd]; subst;
    inversion Hhd as [| ? ? Hge _]; subst; discriminate Hge.
Qed.

(** C5, amended.  The ranks of [getRankings] are [1 .. N] in the order
    of the list for every store.  When no metric is [NaN] the scores
    never increase along the list (equal scores stay next to each
    other); and when no location is named like a member of
    [Object.prototype] the list has exactly one entry per distinct
    location. *)
Theorem C5_rankings (waterData : list Observation) :
  ((forall d, In d waterData ->
              ~ In (location d) Object_prototype_names) ->
   Permutation (map Ranking.location (getRankings waterData))
     (nodup (list_eq_dec N.eq_dec) (map location waterData)))
  /\ ((forall d, In d waterData -> Metrics.numeric d) ->
      StronglySorted (fun x y => ge x y = true)
        (map Ranking.waterScore (getRankings waterData)))
  /\ map Ranking.rank (getRankings waterData)
     = map Some (seq 1 (List.length (getRankings waterData))).
Proof.
  unfold getRankings. split; [| split].
  - intros Hnames. rewrite RankingFacts.assignRanks_locations.
    rewrite <- (sort_perm by_score_desc).
    rewrite RankingFacts.rankingOf_locations.
    now apply StoreFacts.latestArr_locations.
  - intros Hnum. rewrite RankingFacts.assignRanks_scores.
    apply RankingFacts.sort_scores_descending.
    now apply StampFacts.rankings_scores_numeric.
  - rewrite RankingFacts.assignRanks_ranks.
    now rewrite RankingFacts.assignRanks_length.
Qed.

Lemma C5_witness :
  Permutation (map Ranking.location (getRankings Samples.tied))
    (nodup (list_eq_dec N.eq_dec) (map location Samples.tied))
  /\ StronglySorted (fun x y => ge x y = true)
       (map Ranking.waterScore (getRankings Samples.tied))
  /\ map Ranking.rank (getRankings Samples.tied)
     = map Some (seq 1 (List.length (getRankings Samples.tied))).
Proof.
  assert (H1 : forall d, In d Samples.tied -> Metrics.numeric d).
  { intros d [<- | [<- | []]]; repeat split; discriminate. }
  assert (H2 : forall d, In d Samples.tied ->
                         ~ In (location d) Object_prototype_names).
  { intros d [<- | [<- | []]]; vm_compute;
      intros H; repeat (destruct H as [H | H]; [discriminate H |]);
      exact H. }
  split; [| split].
  - exact (proj1 (C5_rankings Samples.tied) H2).
  - exact (proj1 (proj2 (C5_rankings Samples.tied)) H1).
  - exact (proj2 (proj2 (C5_rankings Samples.tied))).
Defined.

(** C6.  For the history (2018, level 10), (2019, level 12) and one year
    ahead, the regression slope of the groundwater level is 2, and
    [predictFuture] returns one prediction: year 2020, level 14, the
    interval from 14 to 14, labelled "high". *)
Theorem C6_two_point_forecast (sqrtQ : Q -> Q) (h1 h2 : Observation) :
  year h1 = 2018%Z -> groundwaterLevel h1 = Fin 10 ->
  year h2 = 2019%Z -> groundwaterLevel h2 = Fin 12 ->
  same (slope (linearRegression (waterLevelPoints [h1; h2]))) (Fin 2)
  /\ exists p,
       predictFuture sqrtQ [h1; h2] (Some (Fin 1)) = Some [p]
       /\ same (Prediction.year p) (Fin 2020)
       /\ same (Prediction.groundwaterLevel p) (Fin 14)
       /\ same (CI.lower (Prediction.groundwaterLevelCI p)) (Fin 14)
       /\ same (CI.upper (Prediction.groundwaterLevelCI p)) (Fin 14)
       /\ Prediction.confidenceLevel p = "high"%string.
Proof.
  intros Y1 L1 Y2 L2.
  assert (Hreg : linearRegression (waterLevelPoints [h1; h2])
                 = linearRegression
                     [ {| x := of_Z 2018; y := Fin 10 |};
                       {| x := of_Z 2019; y := Fin 12 |} ]).
  { unfold waterLevelPoints. cbn [map]. now rewrite Y1, L1, Y2, L2. }
  assert (Hlast : Math_max_list [of_Z (year h1); of_Z (year h2)] = Fin 2019).
  { rewrite Y1, Y2. reflexivity. }
  split.
  - rewrite Hreg. vm_compute. reflexivity.
  - unfold predictFuture.
    change (rounds (Fin 1)) with (Some 1%nat). cbn [map seq].
    eexists. split; [reflexivity |].
    rewrite ForecastFacts.calcResidualStdError_short
      by (unfold waterLevelPoints; cbn; lia).
    rewrite Hreg, Hlast.
    match goal with
    | |- context [predictAt sqrtQ ?h ?wl ?rf ?dp (Fin 0) ?rr ?dr ?ly ?i] =>
        edestruct (ForecastFacts.predictAt_level_zero_residual
                     sqrtQ h wl rf dp rr dr ly i)
          as (Hlevel & Hlower & Hupper);
          [cbn; lia | vm_compute; reflexivity |]
    end.
    cbv zeta in Hlevel, Hlower, Hupper.
    rewrite Hlevel, Hlower, Hupper.
    repeat split; vm_compute; reflexivity.
Qed.

Lemma C6_witness :
  exists p,
    predictFuture (fun q => q) Samples.twoPoints (Some (Fin 1)) = Some [p]
    /\ same (Prediction.year p) (Fin 2020)
    /\ same (Prediction.groundwaterLevel p) (Fin 14)
    /\ same (CI.lower (Prediction.groundwaterLevelCI p)) (Fin 14)
    /\ same (CI.upper (Prediction.groundwaterLevelCI p)) (Fin 14)
    /\ Prediction.confidenceLevel p = "high"%string.
Proof.
  exact (proj2 (C6_two_point_forecast (fun q => q)
                  (Samples.sample "A" 2018 10 800 4 7.2)
                  (Samples.sample "A" 2019 12 800 4 7.2)
                  eq_refl eq_refl eq_refl eq_refl)).
Defined.

(** C7.  For every observation whose groundwater level, rainfall,
    depletion rate and pH are finite numbers, [calculateWaterScore]
    is an integer of the closed interval [[0, 100]]. *)
Theorem C7_water_score_integer_in_range (d : Observation) :
  well_formed d ->
  exists z : Z, calculateWaterScore d = of_Z z /\ (0 <= z <= 100)%Z.
Proof. apply ScoreFacts.score_integer. Qed.

Lemma C7_witness :
  well_formed (Samples.sample "A" 2020 10 800 4 7.2)
  /\ exists z : Z,
       calculateWaterScore (Samples.sample "A" 2020 10 800 4 7.2) = of_Z z
       /\ (0 <= z <= 100)%Z.
Proof.
  assert (H : well_formed (Samples.sample "A" 2020 10 800 4 7.2))
    by (repeat split).
  split; [exact H |].
  exact (C7_water_score_integer_in_range _ H).
Defined.

(** C8.  The water score is monotone: of two observations that differ
    only in rainfall, the one with the higher rainfall does not have the
    lower score; of two that differ only in depletion rate, the one with
    the higher depletion rate does not have the higher score. *)
Theorem C8_water_score_monotone (d : Observation) (r1 r2 : number) :
  le r1 r2 = true ->
  lt (calculateWaterScore (withRainfall d r2))
     (calculateWaterScore (withRainfall d r1)) = false
  /\ lt (calculateWaterScore (withDepletionRate d r1))
        (calculateWaterScore (withDepletionRate d r2)) = false.
Proof.
  intros H. split.
  - now apply ScoreFacts.score_rainfall_mono.
  - now apply ScoreFacts.score_depletion_antimono.
Qed.

Lemma C8_witness :
  le (Fin 600) (Fin 900) = true
  /\ lt (calculateWaterScore
           (withRainfall (Samples.sample "A" 2020 10 800 4 7.2) (Fin 900)))
        (calculateWaterScore
           (withRainfall (Samples.sample "A" 2020 10 800 4 7.2) (Fin 600)))
     = false.
Proof.
  assert (H : le (Fin 600) (Fin 900) = true) by reflexivity.
  split; [exact H |].
  exact (proj1 (C8_water_score_monotone
                  (Samples.sample "A" 2020 10 800 4 7.2) _ _ H)).
Defined.

(** C9.  When the latest-per-location set is not empty, the district
    statistics exist and their three status counts add up to
    [totalLocations], the number of latest records. *)
Theorem C9_district_counts_partition (waterData : list Observation) :
  latestArr waterData <> [] ->
  exists s,
    getDistrictStats waterData = Some s
    /\ DistrictStats.totalLocations s = List.length (latestArr waterData)
    /\ (DistrictStats.safeCount s + DistrictStats.warningCount s
        + DistrictStats.criticalCount s
        = DistrictStats.totalLocations s)%nat.
Proof.
  intros Hne. unfold getDistrictStats.
  destruct (latestArr waterData) as [| d arr] eqn:E; [congruence |].
  eexists. split; [reflexivity |]. split; [reflexivity |].
  cbn [DistrictStats.safeCount DistrictStats.warningCount
         DistrictStats.criticalCount DistrictStats.totalLocations].
  pose proof (StoreFacts.tally_counts (d :: arr)
                {| totalWaterLevel := Fin 0; totalRainfall := Fin 0;
                   totalDepletion := Fin 0;
                   critical := O; warning := O; safe := O |}) as H.
  cbn zeta in H. cbn [critical warning safe] in H. lia.
Qed.

Lemma C9_witness :
  latestArr Samples.tied <> []
  /\ exists s,
       getDistrictStats Samples.tied = Some s
       /\ DistrictStats.totalLocations s
          = List.length (latestArr Samples.tied)
       /\ (DistrictStats.safeCount s + DistrictStats.warningCount s
           + DistrictStats.criticalCount s
           = DistrictStats.totalLocations s)%nat.
Proof.
  assert (H : latestArr Samples.tied <> []) by (vm_compute; discriminate).
  split; [exact H |].
  exact (C9_district_counts_partition Samples.tied H).
Defined.

(** C10.  The claim fails on a falling level: for (2018, level 10),
    (2019, level 2) the estimate for 2020 is -6; the point estimate and
    the lower bound are floored at 0, the upper bound is not, so the
    interval runs from 0 to -6 instead of being one point. *)
Theorem C10_upper_bound_not_floored (sqrtQ : Q -> Q) :
  exists p,
    predictFuture sqrtQ Samples.falling (Some (Fin 1)) = Some [p]
    /\ same (Prediction.groundwaterLevel p) (Fin 0)
    /\ same (CI.lower (Prediction.groundwaterLevelCI p)) (Fin 0)
    /\ same (CI.upper (Prediction.groundwaterLevelCI p)) (Fin (-6)).
Proof.
  unfold predictFuture.
  change (rounds (Fin 1)) with (Some 1%nat). cbn [map seq].
  eexists. split; [reflexivity |].
  rewrite ForecastFacts.calcResidualStdError_short by (vm_compute; lia).
  match goal with
  | |- context [predictAt sqrtQ ?h ?wl ?rf ?dp (Fin 0) ?rr ?dr ?ly ?i] =>
      edestruct (ForecastFacts.predictAt_level_zero_residual
                   sqrtQ h wl rf dp rr dr ly i)
        as (Hlevel & Hlower & Hupper);
        [vm_compute; lia | vm_compute; reflexivity |]
  end.
  cbv zeta in Hlevel, Hlower, Hupper.
  rewrite Hlevel, Hlower, Hupper.
  repeat split; vm_compute; reflexivity.
Qed.

End Claims.

(** ** Further properties of the code *)

Section Extras.
Import JS JS.Notations Data NumberFacts RuntimeFacts.
Import WaterScore DataStore AlertEngine Store Keys Changes Generated.
Local Open Scope Q_scope.



(** X2.  For finite rainfall, depletion rate and pH the sustainability
    score is a whole number from 0 to 100. *)
Theorem X2_sustainability_integer_in_range (d : Observation) :
  finite (rainfall d) -> finite (depletionRate d) -> finite (ph d) ->
  exists z : Z,
    calculateSustainabilityScore d = of_Z z /\ (0 <= z <= 100)%Z.
Proof. apply IndexFacts.sustainability_integer. Qed.

Lemma X2_witness :
  exists z : Z,
    calculateSustainabilityScore (Samples.sample "A" 2018 7 900 2 7.2)
    = of_Z z /\ (0 <= z <= 100)%Z.
Proof.
  apply (X2_sustainability_integer_in_range
           (Samples.sample "A" 2018 7 900 2 7.2));
    exact I.
Defined.

(** X3.  The value of the depletion tier never rises with the depletion
    rate: a higher rate gets the same tier or a worse one. *)
Theorem X3_depletion_index_antitone (r1 r2 : number) :
  le r1 r2 = true ->
  le (value (calculateDepletionIndex r2)) (value (calculateDepletionIndex r1))
  = true.
Proof. apply IndexFacts.depletionIndex_antimono. Qed.

Lemma X3_witness :
  le (value (calculateDepletionIndex (Fin 5)))
     (value (calculateDepletionIndex (Fin 3))) = true.
Proof.
  apply (X3_depletion_index_antitone (Fin 3) (Fin 5)). reflexivity.
Defined.

(** X4.  The quality tier depends only on how far the pH is from 7: a pH
    at least as far from 7 gets the same tier or a worse one. *)
Theorem X4_quality_index_antitone (p1 p2 : Q) :
  Qabs (p1 - 7) <= Qabs (p2 - 7) ->
  le (value (calculateWQI (Fin p2))) (value (calculateWQI (Fin p1))) = true.
Proof. apply IndexFacts.wqi_antimono. Qed.

Lemma X4_witness :
  le (value (calculateWQI (Fin 5.8))) (value (calculateWQI (Fin 7.9)))
  = true.
Proof.
  apply (X4_quality_index_antitone 7.9 5.8). vm_compute. discriminate.
Defined.

(** X7.  No prediction reports a negative estimate or a negative lower
    bound, whatever the history and the number of years. *)
Theorem X7_forecast_not_negative (sqrtQ : Q -> Q)
    (historicalData : list Observation) (yearsAhead : option number)
    (predictions : list Prediction.t) :
  predictFuture sqrtQ historicalData yearsAhead = Some predictions ->
  Forall
    (fun p =>
       lt (Prediction.groundwaterLevel p) (Fin 0) = false
       /\ lt (Prediction.rainfall p) (Fin 0) = false
       /\ lt (Prediction.depletionRate p) (Fin 0) = false
       /\ lt (CI.lower (Prediction.groundwaterLevelCI p)) (Fin 0) = false
       /\ lt (CI.lower (Prediction.rainfallCI p)) (Fin 0) = false
       /\ lt (CI.lower (Prediction.depletionRateCI p)) (Fin 0) = false)
    predictions.
Proof.
  unfold predictFuture. destruct (rounds _); [| discriminate].
  intros H. injection H as <-. apply Forall_forall. intros p Hp.
  apply in_map_iff in Hp. destruct Hp as (i & <- & _).
  apply ForecastShape.predictAt_not_negative.
Qed.

Lemma X7_witness :
  Forall
    (fun p =>
       lt (Prediction.groundwaterLevel p) (Fin 0) = false
       /\ lt (Prediction.rainfall p) (Fin 0) = false
       /\ lt (Prediction.depletionRate p) (Fin 0) = false
       /\ lt (CI.lower (Prediction.groundwaterLevelCI p)) (Fin 0) = false
       /\ lt (CI.lower (Prediction.rainfallCI p)) (Fin 0) = false
       /\ lt (CI.lower (Prediction.depletionRateCI p)) (Fin 0) = false)
    MoreSamples.fallingForecast.
Proof.
  apply (X7_forecast_not_negative (fun q => q) Samples.falling
           (Some (Fin 1)) MoreSamples.fallingForecast).
  vm_compute. reflexivity.
Defined.

(** X9.  [generateAlerts] reports a sustained decline of the water level
    exactly when, in the history sorted by year, the level rose strictly
    over each of the last three steps; a history of fewer than four
    records never gives one. *)
Theorem X9_sustained_decline_iff (data : Observation)
    (history : list Observation) (clock : nat -> Z) (n : nat) :
  (exists a m,
      In a (fst (generateAlerts data (Some history) clock n))
      /\ sustainedDecline a m)
  <-> exists earlier r0 r1 r2 r3,
        sort by_year history = earlier ++ [r0; r1; r2; r3]
        /\ gt (groundwaterLevel r1) (groundwaterLevel r0) = true
        /\ gt (groundwaterLevel r2) (groundwaterLevel r1) = true
        /\ gt (groundwaterLevel r3) (groundwaterLevel r2) = true.
Proof.
  unfold generateAlerts, bind, new_Date, ret. cbn [fst].
  rewrite <- (AlertFacts.consecutive_three
                (fun cur prev =>
                   gt (groundwaterLevel cur) (groundwaterLevel prev))).
  split.
  - intros (a & m & Hin & Hcat & Htitle & _).
    destruct (3 <=? List.length history)%nat.
    + apply in_app_iff in Hin. destruct Hin as [Hin | Hin].
      * apply AlertFacts.threshold_member in Hin. tauto.
      * apply in_app_iff in Hin. destruct Hin as [Hin | Hin].
        -- unfold waterLevelTrendAlerts in Hin.
           fold (consecutiveRise (sort by_year history)).
           destruct (3 <=? consecutiveRise (sort by_year history))%nat;
             [reflexivity | contradiction].
        -- apply AlertFacts.other_trend_title in Hin. contradiction.
    + apply AlertFacts.threshold_member in Hin. tauto.
  - intros H.
    assert (L : (3 <=? List.length history)%nat = true).
    { apply Nat.leb_le.
      destruct (proj1 (AlertFacts.consecutive_three _ _) H)
        as (earlier & r0 & r1 & r2 & r3 & E & _).
      rewrite <- (sort_length by_year history), E, length_app.
      cbn [List.length]. lia. }
    rewrite L.
    eexists. exists (consecutiveRise (sort by_year history)).
    split.
    + apply in_or_app. right. apply in_or_app. left.
      unfold waterLevelTrendAlerts.
      fold (consecutiveRise (sort by_year history)) in H.
      rewrite H. left. reflexivity.
    + repeat split.
Qed.

(** X10.  One call of [generateAlerts] reads the clock once and stamps
    every alert with that reading; it returns at most ten alerts, and at
    most six, none of category Trend, when the history is left out or
    has fewer than three records. *)
Theorem X10_alerts_stamped_and_bounded (data : Observation)
    (history : option (list Observation)) (clock : nat -> Z) (n : nat) :
  let alerts := fst (generateAlerts data history clock n) in
  snd (generateAlerts data history clock n) = S n
  /\ Forall (fun a => Alert.timestamp a = clock n) alerts
  /\ (List.length alerts <= 10)%nat
  /\ ((match history with
       | Some h => (List.length h < 3)%nat
       | None => True
       end) ->
      (List.length alerts <= 6)%nat
      /\ Forall (fun a => Alert.category a <> "Trend"%string) alerts).
Proof.
  unfold generateAlerts, bind, new_Date, ret. cbn [fst snd].
  split; [reflexivity |].
  pose proof (AlertFacts.threshold_lengths data (clock n)) as L6.
  destruct history as [h |].
  - destruct (3 <=? List.length h)%nat eqn:E.
    + pose proof (AlertFacts.trend_lengths data (clock n)
                    (sort by_year h)) as L4.
      split; [| split].
      * apply Forall_forall. intros a Hin.
        apply in_app_iff in Hin. destruct Hin as [Hin | Hin].
        -- now apply AlertFacts.threshold_member in Hin.
        -- now apply AlertFacts.trend_member in Hin.
      * rewrite length_app. lia.
      * apply Nat.leb_le in E. intros Hlt. lia.
    + split; [| split].
      * apply Forall_forall. intros a Hin.
        now apply AlertFacts.threshold_member in Hin.
      * lia.
      * intros _. split; [exact L6 |].
        apply Forall_forall. intros a Hin.
        now apply AlertFacts.threshold_member in Hin.
  - split; [| split].
    + apply Forall_forall. intros a Hin.
      now apply AlertFacts.threshold_member in Hin.
    + lia.
    + intros _. split; [exact L6 |].
      apply Forall_forall. intros a Hin.
      now apply AlertFacts.threshold_member in Hin.
Qed.

(** X11.  The [alertCount] of a location summary undercounts the alerts
    that [generateAlerts] raises for the same latest record: it leaves
    out the consumption alert and the pH alert at exactly 6.5 or 8. *)
Theorem X11_summary_alert_count (waterData : list Observation)
    (locationName : jsstring) (s : Summary.t) (clock : nat -> Z) (n : nat) :
  getLocationSummary waterData locationName = Some s ->
  exists latest,
    getLatestByLocation waterData locationName = Some latest
    /\ List.length (fst (generateAlerts latest None clock n))
       = (Summary.alertCount s
          + count (ge (consumption latest) (Fin 500))
          + count (negb (strict_ne (ph latest) (Fin 6.5))
                   || negb (strict_ne (ph latest) (Fin 8.0))))%nat.
Proof.
  unfold getLocationSummary, getLatestByLocation.
  destruct (lastOf (getWaterByLocation waterData locationName))
    as [latest |]; [| discriminate].
  intros H. injection H as <-. exists latest. split; [reflexivity |].
  cbn [Summary.alertCount].
  unfold generateAlerts, bind, new_Date, ret. cbn [fst].
  rewrite !length_app.
  rewrite AlertFacts.waterLevelAlerts_length,
    AlertFacts.depletionAlerts_length, AlertFacts.rainfallAlerts_length,
    AlertFacts.phAlerts_length, AlertFacts.consumptionAlerts_length,
    AlertFacts.scarcityAlerts_length.
  cbn [ge gt le lt]. lia.
Qed.

Lemma X11_witness :
  exists latest,
    getLatestByLocation MoreSamples.store (js "B") = Some latest
    /\ List.length (fst (generateAlerts latest None Samples.ticking O))
       = (3 + count (ge (consumption latest) (Fin 500))
          + count (negb (strict_ne (ph latest) (Fin 6.5))
                   || negb (strict_ne (ph latest) (Fin 8.0))))%nat.
Proof.
  apply (X11_summary_alert_count MoreSamples.store (js "B")
           (match getLocationSummary MoreSamples.store (js "B") with
            | Some s => s
            | None =>
                {| Summary.location := [];
                   Summary.year := 0;
                   Summary.waterScore := NaN;
                   Summary.status := "";
                   Summary.statusColor := "";
                   Summary.groundwaterLevel := NaN;
                   Summary.rainfall := NaN;
                   Summary.depletionRate := NaN;
                   Summary.ph := NaN;
                   Summary.scarcityLevel := [];
                   Summary.wqi := calculateWQI NaN;
                   Summary.depletionIndex := calculateDepletionIndex NaN;
                   Summary.sustainabilityScore := NaN;
                   Summary.trend := "";
                   Summary.alertCount := 0;
                   Summary.yoyChanges := [];
                   Summary.narrative := [];
                   Summary.yearsAvailable := [] |}
            end) Samples.ticking O).
  vm_compute. reflexivity.
Defined.


(** X13.  [getLatestByLocation] returns null exactly when the store has
    no record of the name; otherwise it returns a record of the store
    with that name whose year no other record of the name exceeds. *)
Theorem X13_latest_by_location (waterData : list Observation)
    (locationName : jsstring) :
  match getLatestByLocation waterData locationName with
  | Some latest =>
      In latest waterData /\ location latest = locationName
      /\ forall d, In d waterData -> location d = locationName ->
                   (year d <= year latest)%Z
  | None => forall d, In d waterData -> location d <> locationName
  end.
Proof.
  destruct (getLatestByLocation waterData locationName) as [latest |] eqn:E.
  - now apply QueryFacts.getLatestByLocation_Some.
  - now apply QueryFacts.getLatestByLocation_None.
Qed.

(** X14.  In a store with one record for a location and year, every
    entry of the rankings is computed from the record that
    [getLatestByLocation] returns for its location. *)
Theorem X14_rankings_use_latest (waterData : list Observation) :
  uniqueKeys waterData ->
  Forall
    (fun r =>
       exists latest,
         getLatestByLocation waterData (Ranking.location r) = Some latest
         /\ Ranking.waterScore r = calculateWaterScore latest
         /\ Ranking.groundwaterLevel r = groundwaterLevel latest
         /\ Ranking.rainfall r = rainfall latest
         /\ Ranking.depletionRate r = depletionRate latest
         /\ Ranking.scarcityLevel r = scarcityLevel latest)
    (getRankings waterData).
Proof.
  intros Hu. apply Forall_forall. intros r Hr.
  destruct (QueryFacts.getRankings_In waterData r Hr) as (d & k & Hd & ->).
  exists d. split; [| repeat split].
  exact (QueryFacts.latestArr_is_latest waterData d Hu Hd).
Qed.

Lemma X14_witness :
  Forall
    (fun r =>
       exists latest,
         getLatestByLocation MoreSamples.store (Ranking.location r)
         = Some latest
         /\ Ranking.waterScore r = calculateWaterScore latest
         /\ Ranking.groundwaterLevel r = groundwaterLevel latest
         /\ Ranking.rainfall r = rainfall latest
         /\ Ranking.depletionRate r = depletionRate latest
         /\ Ranking.scarcityLevel r = scarcityLevel latest)
    (getRankings MoreSamples.store).
Proof.
  apply (X14_rankings_use_latest MoreSamples.store).
  unfold uniqueKeys. vm_compute.
  repeat constructor; simpl; intuition discriminate.
Defined.

(** X15.  The summary and [getYearlyChanges] report the same pairs of
    years, and the same percentage for the water level, the rainfall and
    the depletion rate wherever the earlier value is above zero. *)
Theorem X15_change_reports_agree (waterData : list Observation)
    (locationName : jsstring) :
  match getLocationSummary waterData locationName with
  | Some s =>
      Forall2 agree (Summary.yoyChanges s)
        (getYearlyChanges waterData locationName)
  | None => getYearlyChanges waterData locationName = []
  end.
Proof.
  unfold getLocationSummary, getYearlyChanges.
  set (records := getWaterByLocation waterData locationName).
  destruct (lastOf records) as [latest |] eqn:E.
  - cbn [Summary.yoyChanges].
    destruct (2 <=? List.length records)%nat eqn:L.
    + replace (List.length records <? 2)%nat with false
        by (symmetry; apply Nat.ltb_ge; now apply Nat.leb_le).
      apply QueryFacts.Forall2_maps, QueryFacts.changes_agree.
    + replace (List.length records <? 2)%nat with true
        by (symmetry; apply Nat.ltb_lt; apply Nat.leb_gt in L; lia).
      constructor.
  - apply QueryFacts.lastOf_None in E. now rewrite E.
Qed.

(** X16.  [generateMultiYearData] returns six records, one for each year
    from 2016 to 2021 in that order, all of the location of the base
    row; the base row itself is among them exactly when its year is one
    of the six. *)
Theorem X16_generated_series_shape (baseRow : Observation)
    (clock : nat -> Z) (n : nat) :
  let records := fst (generateMultiYearData baseRow clock n) in
  map year records = [2016; 2017; 2018; 2019; 2020; 2021]%Z
  /\ Forall (fun r => location r = location baseRow) records
  /\ (In baseRow records <-> In (year baseRow) years).
Proof.
  cbv zeta.
  pose proof (SeriesFacts.generated_years baseRow clock n) as Hy.
  pose proof (SeriesFacts.forEach_results
                (recordFor baseRow (nameHash (location baseRow)))
                years clock n) as Hr.
  fold (generateMultiYearData baseRow) in Hr.
  split; [exact Hy |]. split; [| split].
  - apply Forall_forall. intros r Hin.
    destruct (SeriesFacts.Forall2_In_r _ _ _ _ Hr Hin)
      as (yr & _ & n' & ->).
    apply SeriesFacts.recordFor_shape.
  - intros Hin. rewrite <- Hy. now apply in_map.
  - intros Hin.
    destruct (SeriesFacts.Forall2_In_l _ _ _ _ Hr Hin)
      as (r & Hr' & n' & ->).
    destruct (SeriesFacts.recordFor_shape baseRow
                (nameHash (location baseRow)) (year baseRow) clock n')
      as (_ & _ & E).
    cbv zeta in E. now rewrite E in Hr'.
Qed.

(** X17.  When the numeric properties of the base row are finite, every
    generated record of another year respects the floors of the
    generator (depletion 0.5, rainfall 400, level 3, consumption 100,
    agricultural 50, industrial 10, household 20 and per-capita use
    50), has a pH from 6 to 9, carries the scarcity label that the
    generator's rule gives for its own depletion rate and rainfall, and
    has no coordinates. *)
Theorem X17_generated_records_bounded (baseRow : Observation)
    (clock : nat -> Z) (n : nat) :
  allFinite baseRow ->
  Forall
    (fun r =>
       year r <> year baseRow ->
       withinBounds r
       /\ scarcityLevel r = classifyScarcity (depletionRate r) (rainfall r)
       /\ latitude r = Absent /\ longitude r = Absent)
    (fst (generateMultiYearData baseRow clock n)).
Proof.
  intros Hf. apply Forall_forall. intros r Hin.
  pose proof (SeriesFacts.forEach_results
                (recordFor baseRow (nameHash (location baseRow)))
                years clock n) as Hr.
  fold (generateMultiYearData baseRow) in Hr.
  destruct (SeriesFacts.Forall2_In_r _ _ _ _ Hr Hin) as (yr & _ & n' & ->).
  intros Hne.
  apply (SeriesFacts.recordFor_bounds baseRow _ yr clock n' Hf).
  intros ->. apply Hne.
  apply SeriesFacts.recordFor_shape.
Qed.

Lemma X17_witness :
  Forall
    (fun r =>
       year r <> 2018%Z ->
       withinBounds r
       /\ scarcityLevel r = classifyScarcity (depletionRate r) (rainfall r)
       /\ latitude r = Absent /\ longitude r = Absent)
    (fst (generateMultiYearData (Samples.sample "Nashik" 2018 10 800 4 7.2)
            Samples.ticking O)).
Proof.
  apply (X17_generated_records_bounded
           (Samples.sample "Nashik" 2018 10 800 4 7.2) Samples.ticking O).
  repeat split.
Defined.

(** X18.  The fallback coordinates of any name lie within 0.8 degrees of
    19.5975 north and 73.3898 east: the offset of a negative hash goes
    down to -1.2 from the centre 19.9975, 73.7898. *)
Theorem X18_fallback_coordinates_box (locationName : jsstring) :
  let c := generateCoordinates locationName in
  lt (Fin 18.7975) (Coordinates.latitude c) = true
  /\ lt (Coordinates.latitude c) (Fin 20.3975) = true
  /\ lt (Fin 72.5898) (Coordinates.longitude c) = true
  /\ lt (Coordinates.longitude c) (Fin 74.1898) = true.
Proof.
  cbv zeta.
  destruct (RegistryFacts.generateCoordinates_exact locationName)
    as (r & s & Hr & Hs & -> & ->).
  assert (Rlo : - (500) < inject_Z r)
    by (change (- (500)) with (inject_Z (-500)); rewrite <- Zlt_Qlt; lia).
  assert (Rhi : inject_Z r < 500)
    by (change 500 with (inject_Z 500); rewrite <- Zlt_Qlt; lia).
  assert (Slo : - (500) < inject_Z s)
    by (change (- (500)) with (inject_Z (-500)); rewrite <- Zlt_Qlt; lia).
  assert (Shi : inject_Z s < 500)
    by (change 500 with (inject_Z 500); rewrite <- Zlt_Qlt; lia).
  cbn [lt]. rewrite !Qlt_bool_iff.
  repeat split;
    first [ apply Qlt_shift_div_l; lra | apply Qlt_shift_div_r; lra ].
Qed.

(** X19.  An upload keeps the store free of duplicates: when no two
    records share their location and year before [addWaterData], none
    do after it, whatever the rows. *)
Theorem X19_upload_keeps_keys_unique (st : state)
    (rows : list Observation) :
  uniqueKeys (waterData st) ->
  uniqueKeys (waterData (addWaterData st rows)).
Proof. apply RegistryFacts.addWaterData_unique. Qed.

Lemma X19_witness :
  uniqueKeys
    (waterData
       (addWaterData MoreSamples.registry
          [Samples.sample "A" 2019 9 850 3 7;
           Samples.sample "A" 2019 9.5 840 3 7])).
Proof.
  apply (X19_upload_keeps_keys_unique MoreSamples.registry).
  unfold uniqueKeys. vm_compute.
  repeat constructor; simpl; intuition discriminate.
Defined.

(** X20.  After an upload the store holds the records it had whose
    location and year no row carries, and of the rows the last one of
    every location and year; nothing else. *)
Theorem X20_upload_replaces_by_key (st : state) (rows : list Observation)
    (d : Observation) :
  In d (waterData (addWaterData st rows))
  <-> (In d (waterData st)
       /\ forall row, In row rows -> keyOf row <> keyOf d)
      \/ (exists before after,
             rows = before ++ d :: after
             /\ forall row, In row after -> keyOf row <> keyOf d).
Proof. apply RegistryFacts.addWaterData_In. Qed.

(** X21.  An upload only appends to the registry of locations: the
    entries it had stay first and unchanged, the names of the registry
    are the old names and the locations of the rows, names that were
    distinct stay distinct, and every uploaded location can be looked
    up by name. *)
Theorem X21_upload_extends_registry (st : state)
    (rows : list Observation) :
  let st' := addWaterData st rows in
  (exists added, locations st' = locations st ++ added)
  /\ (forall name,
         In name (map Location.name (locations st'))
         <-> In name (map Location.name (locations st))
             \/ In name (map location rows))
  /\ (NoDup (map Location.name (locations st)) ->
      NoDup (map Location.name (locations st')))
  /\ Forall
       (fun row =>
          exists l,
            getLocationByName (locations st') (location row) = Some l
            /\ Location.name l = location row)
       rows.
Proof.
  cbv zeta.
  destruct (RegistryFacts.addWaterData_locations rows st) as (A & N & I).
  split; [exact A |]. split; [exact I |]. split; [exact N |].
  apply Forall_forall. intros row Hrow.
  apply RegistryFacts.find_known, RegistryFacts.known_iff, I.
  right. now apply in_map.
Qed.

(** X22.  After [loadData] the store has six records for every row of
    the file and the registry has every location of the rows once; the
    location of every record is registered; and when no two rows share
    their location, no two records share their location and year. *)
Theorem X22_load_fills_store (rows : list Observation)
    (clock : nat -> Z) (n : nat) :
  let st := fst (loadData rows clock n) in
  List.length (waterData st) = (6 * List.length rows)%nat
  /\ NoDup (map Location.name (locations st))
  /\ (forall name,
         In name (map Location.name (locations st))
         <-> In name (map location rows))
  /\ Forall (fun d => known (locations st) (location d) = true)
       (waterData st)
  /\ (NoDup (map location rows) -> uniqueKeys (waterData st)).
Proof.
  unfold loadData, bind.
  pose proof (RegistryFacts.generateAll_length rows clock n) as L.
  pose proof (RegistryFacts.generateAll_unique rows clock n) as U.
  pose proof (RegistryFacts.generateAll_locations rows clock n) as G.
  destruct (generateAll rows clock n) as [records m].
  cbn [ret fst waterData locations] in *.
  destruct (RegistryFacts.uniqueLocations_names rows []) as [N I].
  split; [exact L |]. split; [exact N |]. split; [| split].
  - intros name. rewrite I. cbn [In]. tauto.
  - apply Forall_forall. intros d Hd.
    apply RegistryFacts.known_iff, I. split; [| cbn; tauto].
    now apply G.
  - exact U.
Qed.

(** X23.  For a store of records with finite metrics, every entry of the
    heat map belongs to a registered location, and its intensity is
    [max(0.1, (100 - score) / 100)] exactly, a number from 0.1 to 1:
    rounding to two digits changes nothing. *)
Theorem X23_heatmap_intensity (st : state) :
  Forall well_formed (waterData st) ->
  Forall
    (fun h =>
       known (locations st) (Heat.location h) = true
       /\ le (Fin 0.1) (Heat.intensity h) = true
       /\ le (Heat.intensity h) (Fin 1) = true
       /\ same (Heat.intensity h)
            (Math_max (Fin 0.1)
               ((Fin 100 - Heat.waterScore h) / Fin 100))%num)
    (getHeatmapData st).
Proof.
  intros Hw. rewrite Forall_forall in Hw.
  apply Forall_forall. intros h Hh.
  unfold getHeatmapData in Hh. apply RegistryFacts.dropNull_In in Hh.
  apply in_map_iff in Hh. destruct Hh as (d & E & Hd).
  unfold heatOf in E.
  destruct (find (fun l => str_eqb (Location.name l) (location d))
              (locations st)) as [loc |] eqn:F; [| discriminate].
  apply RegistryFacts.some_eq in E. subst h.
  cbv beta iota zeta delta [Heat.location Heat.intensity Heat.waterScore].
  apply find_some in F. destruct F as [Fin' Fn].
  split.
  { apply RegistryFacts.known_iff. apply str_eqb_eq in Fn.
    rewrite <- Fn. now apply in_map. }
  apply StoreFacts.latestArr_In in Hd.
  destruct (ScoreFacts.score_integer d (Hw d Hd)) as (z & -> & Hz).
  destruct (RegistryFacts.intensity_exact z Hz) as (c & -> & [C1 C2] & X).
  cbn [le]. rewrite !Qle_bool_iff. repeat split; assumption.
Qed.

Lemma X23_witness :
  Forall
    (fun h =>
       known (locations MoreSamples.registry) (Heat.location h) = true
       /\ le (Fin 0.1) (Heat.intensity h) = true
       /\ le (Heat.intensity h) (Fin 1) = true
       /\ same (Heat.intensity h)
            (Math_max (Fin 0.1)
               ((Fin 100 - Heat.waterScore h) / Fin 100))%num)
    (getHeatmapData MoreSamples.registry).
Proof.
  apply (X23_heatmap_intensity MoreSamples.registry).
  vm_compute. repeat constructor.
Defined.

(** X24.  In the extended district statistics the three trend counts add
    up to the number of ranked locations, [best5] is the first five of
    the rankings and [worst5] the first five of the rankings read from
    the end; with five locations or fewer [worst5] is [best5]
    reversed. *)
Theorem X24_enhanced_stats (st : state) :
  let e := getEnhancedDistrictStats st in
  let rankings := getRankings (waterData st) in
  (improving (EnhancedStats.trendDistribution e)
   + stable (EnhancedStats.trendDistribution e)
   + declining (EnhancedStats.trendDistribution e)
   = List.length rankings)%nat
  /\ EnhancedStats.best5 e = map entryOf (firstn 5 rankings)
  /\ EnhancedStats.worst5 e = map entryOf (firstn 5 (rev rankings))
  /\ ((List.length rankings <= 5)%nat ->
      EnhancedStats.worst5 e = rev (EnhancedStats.best5 e)).
Proof.
  cbv zeta. unfold getEnhancedDistrictStats.
  cbn [EnhancedStats.trendDistribution EnhancedStats.best5
         EnhancedStats.worst5].
  split; [| split; [| split]].
  - pose proof (RegistryFacts.trend_counts (getRankings (waterData st))
                  {| improving := O; stable := O; declining := O |}) as H.
    cbv zeta in H. rewrite H. cbn [improving stable declining]. lia.
  - reflexivity.
  - unfold last5. now rewrite firstn_rev.
  - intros H. unfold last5, first5.
    replace (List.length (getRankings (waterData st)) - 5)%nat with O
      by lia.
    cbn [skipn]. rewrite firstn_all2 by exact H. now rewrite map_rev.
Qed.

(** X25.  With two or more records of the location the predictions
    handler answers 200; it forecasts [years] years when the query
    parameter parses to a whole number other than 0 (none when it is
    negative) and three years when it parses to 0 or to NaN. *)
Theorem X25_predictions_years (sqrtQ : Q -> Q)
    (parseInt : option jsstring -> number)
    (waterData : list Observation) (req : WaterController.Request.t)
    (z : Z) :
  (2 <= List.length
          (getWaterByLocation waterData
             (WaterController.Request.location req)))%nat ->
  parseInt (WaterController.Request.years req) = of_Z z
  \/ (parseInt (WaterController.Request.years req) = NaN /\ z = 0%Z) ->
  exists predictions,
    WaterController.getPredictions sqrtQ parseInt waterData req
    = Some {| WaterController.Response.status := 200;
              WaterController.Response.json :=
                WaterController.Predictions predictions
                  (List.length
                     (getWaterByLocation waterData
                        (WaterController.Request.location req))) |}
    /\ List.length predictions
       = Z.to_nat (if (z =? 0)%Z then 3 else z).
Proof.
  intros Hlen Hparse. unfold WaterController.getPredictions.
  replace (List.length
             (getWaterByLocation waterData
                (WaterController.Request.location req)) <? 2)%nat
    with false by (symmetry; apply Nat.ltb_ge; exact Hlen).
  assert (Y : or_else (parseInt (WaterController.Request.years req)) (Fin 3)
              = Fin (inject_Z (if (z =? 0)%Z then 3 else z))).
  { destruct Hparse as [-> | [-> ->]]; [| reflexivity].
    unfold or_else, of_Z, truthy.
    destruct (z =? 0)%Z eqn:E.
    - apply Z.eqb_eq in E. subst z. reflexivity.
    - apply Z.eqb_neq in E.
      replace (Qeq_bool (inject_Z z) 0) with false; [reflexivity |].
      symmetry. apply not_true_is_false. intros H.
      apply Qeq_bool_iff in H. apply E.
      apply inject_Z_injective. exact H. }
  rewrite Y.
  destruct (ForecastShape.predictFuture_length sqrtQ
              (getWaterByLocation waterData
                 (WaterController.Request.location req))
              (inject_Z (if (z =? 0)%Z then 3 else z)))
    as (predictions & -> & L).
  exists predictions. split; [reflexivity |].
  now rewrite L, Qfloor_Z.
Qed.

Lemma X25_witness :
  exists predictions,
    WaterController.getPredictions (fun q => q) (fun _ => of_Z 0)
      MoreSamples.store
      {| WaterController.Request.location := js "A";
         WaterController.Request.years := Some (js "0") |}
    = Some {| WaterController.Response.status := 200;
              WaterController.Response.json :=
                WaterController.Predictions predictions
                  (List.length
                     (getWaterByLocation MoreSamples.store (js "A"))) |}
    /\ List.length predictions = 3%nat.
Proof.
  apply (X25_predictions_years (fun q => q) (fun _ => of_Z 0)
           MoreSamples.store
           {| WaterController.Request.location := js "A";
              WaterController.Request.years := Some (js "0") |} 0).
  - vm_compute. lia.
  - left. reflexivity.
Defined.

End Extras.
